(** * Redstone circuit designer: the circuit engine, embedded and verified

    A shallow embedding of the simulator (Direction, EntityManager,
    RedstoneSimulator and the component classes) and of the editor's entry
    points in InputManager (placeOrInteract, rotateComponent and the items
    of the context menu), followed by the properties of the engine proved
    over it.

    Conventions of the embedding.
    - JavaScript numbers that hold grid coordinates, rotations, identifiers,
      clock values and power levels are integers of [Z]; [%] is the truncated
      remainder [Z.rem].
    - The entity table is a JavaScript [Map] keyed by identifier; iteration
      follows insertion order and [getBlockEntity] takes the first match, so
      the table is an association list in insertion order.
    - Component objects are mutated in place through [this]; here a method
      receives the identifier [self] of the entity that owns the component
      and reads and writes the component in the table.
    - The mutual recursion notifyNeighbors / onNeighborUpdate is not bounded
      by the engine; it is driven by a fuel argument, and running out of it is
      the outcome [Fail OutOfFuel].
    - A [TypeError] ends a call with the outcome [Fail TypeError], which
      keeps no state.  The one place where the engine throws after a write
      that stays - a menu item whose callback finds its cell empty - has a
      step of its own among the reachable states. *)

From Stdlib Require Import ZArith List String Bool Lia.
Import ListNotations.
Open Scope string_scope.
Open Scope Z_scope.
Open Scope list_scope.

(** ** Outcomes of a call *)

Inductive error : Type :=
| TypeError   (* a property read on [undefined], or a missing method *)
| OutOfFuel.  (* the call did not return within the fuel given *)

Inductive outcome (A : Type) : Type :=
| Done (a : A)
| Fail (e : error).
Arguments Done {A} a.
Arguments Fail {A} e.

Definition bind {A B : Type} (m : outcome A) (k : A -> outcome B) : outcome B :=
  match m with
  | Done a => k a
  | Fail e => Fail e
  end.

Notation "x <- m ;; k" := (bind m (fun x => k))
  (at level 61, m at next level, right associativity).
Notation "' p <- m ;; k" := (bind m (fun x => match x with p => k end))
  (at level 61, p pattern, m at next level, right associativity).

Fixpoint foldM {A B : Type} (f : A -> B -> outcome A) (l : list B) (a : A)
  : outcome A :=
  match l with
  | [] => Done a
  | b :: l' => a' <- f a b ;; foldM f l' a'
  end.

(** ** Direction *)

Module Direction.
Definition NORTH : Z := 0.
Definition EAST : Z := 1.
Definition SOUTH : Z := 2.
Definition WEST : Z := 3.
Definition UP : Z := 4.
Definition DOWN : Z := 5.

Record vector : Type := { vx : Z; vy : Z; vz : Z }.

Definition toVector (dir : Z) : vector :=
  if dir =? 0 then {| vx := 0; vy := -1; vz := 0 |}
  else if dir =? 1 then {| vx := 1; vy := 0; vz := 0 |}
  else if dir =? 2 then {| vx := 0; vy := 1; vz := 0 |}
  else if dir =? 3 then {| vx := -1; vy := 0; vz := 0 |}
  else if dir =? 4 then {| vx := 0; vy := 0; vz := 1 |}
  else if dir =? 5 then {| vx := 0; vy := 0; vz := -1 |}
  else {| vx := 0; vy := 0; vz := 0 |}.

Definition opposite (dir : Z) : Z :=
  if dir =? 0 then 2
  else if dir =? 1 then 3
  else if dir =? 2 then 0
  else if dir =? 3 then 1
  else if dir =? 4 then 5
  else if dir =? 5 then 4
  else dir.

(** The array [[NORTH, EAST, SOUTH, WEST]] every cardinal loop iterates. *)
Definition cardinals : list Z := [NORTH; EAST; SOUTH; WEST].
End Direction.
Import Direction.

(** ** Components of an entity *)

Record position : Type := { px : Z; py : Z; pz : Z }.

(** The [blockState] object.  [bs_extended] and [bs_isSticky] are absent
    ([undefined]) until a piston writes them; the source only tests them for
    truthiness, so absent is [false]. *)
Record blockState : Type := {
  bs_type : string;
  bs_rotation : Z;
  bs_powered : bool;
  bs_powerLevel : Z;
  bs_waterlogged : bool;
  bs_extended : bool;
  bs_isSticky : bool
}.

Inductive componentClass : Type :=
| RedstoneDustComponent
| RedstoneTorchComponent
| LeverComponent
| ButtonComponent
| RepeaterComponent
| ComparatorComponent
| ObserverComponent
| PistonComponent
| StickyPistonComponent
| PistonHeadComponent
| RedstoneBlockComponent
| StoneComponent.

Inductive comparatorMode : Type := compare | subtract.

(** A ['redstone'] component: its class and the fields the classes declare.
    A field a class does not declare is never read for that class. *)
Record component : Type := {
  cls : componentClass;
  powerLevel : Z;          (* RedstoneComponent *)
  delay : Z;               (* RepeaterComponent *)
  locked : bool;           (* RepeaterComponent *)
  powered : bool;          (* RepeaterComponent *)
  mode : comparatorMode;   (* ComparatorComponent *)
  outputPower : Z;         (* ComparatorComponent *)
  extended : bool;         (* PistonComponent *)
  isSticky : bool;         (* PistonComponent, PistonHeadComponent *)
  headId : Z;              (* PistonComponent *)
  sourcePistonId : Z       (* PistonHeadComponent *)
}.

Record entity : Type := {
  e_position : position;
  e_redstone : option component;
  e_blockState : blockState
}.

Record scheduledTick : Type := {
  tick_x : Z;
  tick_y : Z;
  tick_time : Z;
  tick_priority : Z
}.

Record simulator : Type := {
  width : Z;
  height : Z;
  entities : list (Z * entity);   (* entityManager.entities *)
  nextId : Z;                     (* entityManager.nextId *)
  tickCount : Z;
  nextTickList : list scheduledTick
}.

(** *** Field updates *)

Definition set_powerLevel (v : Z) (c : component) : component :=
  {| cls := cls c; powerLevel := v; delay := delay c; locked := locked c;
     powered := powered c; mode := mode c; outputPower := outputPower c;
     extended := extended c; isSticky := isSticky c; headId := headId c;
     sourcePistonId := sourcePistonId c |}.

Definition set_delay (v : Z) (c : component) : component :=
  {| cls := cls c; powerLevel := powerLevel c; delay := v; locked := locked c;
     powered := powered c; mode := mode c; outputPower := outputPower c;
     extended := extended c; isSticky := isSticky c; headId := headId c;
     sourcePistonId := sourcePistonId c |}.

Definition set_locked (v : bool) (c : component) : component :=
  {| cls := cls c; powerLevel := powerLevel c; delay := delay c; locked := v;
     powered := powered c; mode := mode c; outputPower := outputPower c;
     extended := extended c; isSticky := isSticky c; headId := headId c;
     sourcePistonId := sourcePistonId c |}.

Definition set_powered (v : bool) (c : component) : component :=
  {| cls := cls c; powerLevel := powerLevel c; delay := delay c;
     locked := locked c; powered := v; mode := mode c;
     outputPower := outputPower c; extended := extended c;
     isSticky := isSticky c; headId := headId c;
     sourcePistonId := sourcePistonId c |}.

Definition set_mode (v : comparatorMode) (c : component) : component :=
  {| cls := cls c; powerLevel := powerLevel c; delay := delay c;
     locked := locked c; powered := powered c; mode := v;
     outputPower := outputPower c; extended := extended c;
     isSticky := isSticky c; headId := headId c;
     sourcePistonId := sourcePistonId c |}.

Definition set_outputPower (v : Z) (c : component) : component :=
  {| cls := cls c; powerLevel := powerLevel c; delay := delay c;
     locked := locked c; powered := powered c; mode := mode c;
     outputPower := v; extended := extended c; isSticky := isSticky c;
     headId := headId c; sourcePistonId := sourcePistonId c |}.

Definition set_extended (v : bool) (c : component) : component :=
  {| cls := cls c; powerLevel := powerLevel c; delay := delay c;
     locked := locked c; powered := powered c; mode := mode c;
     outputPower := outputPower c; extended := v; isSticky := isSticky c;
     headId := headId c; sourcePistonId := sourcePistonId c |}.

Definition set_isSticky (v : bool) (c : component) : component :=
  {| cls := cls c; powerLevel := powerLevel c; delay := delay c;
     locked := locked c; powered := powered c; mode := mode c;
     outputPower := outputPower c; extended := extended c; isSticky := v;
     headId := headId c; sourcePistonId := sourcePistonId c |}.

Definition set_headId (v : Z) (c : component) : component :=
  {| cls := cls c; powerLevel := powerLevel c; delay := delay c;
     locked := locked c; powered := powered c; mode := mode c;
     outputPower := outputPower c; extended := extended c;
     isSticky := isSticky c; headId := v;
     sourcePistonId := sourcePistonId c |}.

Definition set_sourcePistonId (v : Z) (c : component) : component :=
  {| cls := cls c; powerLevel := powerLevel c; delay := delay c;
     locked := locked c; powered := powered c; mode := mode c;
     outputPower := outputPower c; extended := extended c;
     isSticky := isSticky c; headId := headId c; sourcePistonId := v |}.

Definition set_bs_type (v : string) (b : blockState) : blockState :=
  {| bs_type := v; bs_rotation := bs_rotation b; bs_powered := bs_powered b;
     bs_powerLevel := bs_powerLevel b; bs_waterlogged := bs_waterlogged b;
     bs_extended := bs_extended b; bs_isSticky := bs_isSticky b |}.

Definition set_bs_rotation (v : Z) (b : blockState) : blockState :=
  {| bs_type := bs_type b; bs_rotation := v; bs_powered := bs_powered b;
     bs_powerLevel := bs_powerLevel b; bs_waterlogged := bs_waterlogged b;
     bs_extended := bs_extended b; bs_isSticky := bs_isSticky b |}.

Definition set_bs_powered (v : bool) (b : blockState) : blockState :=
  {| bs_type := bs_type b; bs_rotation := bs_rotation b; bs_powered := v;
     bs_powerLevel := bs_powerLevel b; bs_waterlogged := bs_waterlogged b;
     bs_extended := bs_extended b; bs_isSticky := bs_isSticky b |}.

Definition set_bs_powerLevel (v : Z) (b : blockState) : blockState :=
  {| bs_type := bs_type b; bs_rotation := bs_rotation b;
     bs_powered := bs_powered b; bs_powerLevel := v;
     bs_waterlogged := bs_waterlogged b; bs_extended := bs_extended b;
     bs_isSticky := bs_isSticky b |}.

Definition set_bs_extended (v : bool) (b : blockState) : blockState :=
  {| bs_type := bs_type b; bs_rotation := bs_rotation b;
     bs_powered := bs_powered b; bs_powerLevel := bs_powerLevel b;
     bs_waterlogged := bs_waterlogged b; bs_extended := v;
     bs_isSticky := bs_isSticky b |}.

Definition set_bs_isSticky (v : bool) (b : blockState) : blockState :=
  {| bs_type := bs_type b; bs_rotation := bs_rotation b;
     bs_powered := bs_powered b; bs_powerLevel := bs_powerLevel b;
     bs_waterlogged := bs_waterlogged b; bs_extended := bs_extended b;
     bs_isSticky := v |}.

Definition with_position (p : position) (e : entity) : entity :=
  {| e_position := p; e_redstone := e_redstone e;
     e_blockState := e_blockState e |}.

Definition with_redstone (f : component -> component) (e : entity) : entity :=
  {| e_position := e_position e; e_redstone := option_map f (e_redstone e);
     e_blockState := e_blockState e |}.

Definition with_blockState (f : blockState -> blockState) (e : entity)
  : entity :=
  {| e_position := e_position e; e_redstone := e_redstone e;
     e_blockState := f (e_blockState e) |}.

Definition with_entities (l : list (Z * entity)) (s : simulator) : simulator :=
  {| width := width s; height := height s; entities := l; nextId := nextId s;
     tickCount := tickCount s; nextTickList := nextTickList s |}.

Definition with_nextTickList (l : list scheduledTick) (s : simulator)
  : simulator :=
  {| width := width s; height := height s; entities := entities s;
     nextId := nextId s; tickCount := tickCount s; nextTickList := l |}.

(** ** EntityManager *)

Fixpoint lookup (id : Z) (l : list (Z * entity)) : option entity :=
  match l with
  | [] => None
  | (k, e) :: l' => if k =? id then Some e else lookup id l'
  end.

(** Replace the value stored under [id]; the key keeps its place. *)
Fixpoint update (id : Z) (f : entity -> entity) (l : list (Z * entity))
  : list (Z * entity) :=
  match l with
  | [] => []
  | (k, e) :: l' =>
      if k =? id then (k, f e) :: l' else (k, e) :: update id f l'
  end.

(** [removeEntity(id)]: [Map.delete]. *)
Definition removeEntity (id : Z) (s : simulator) : simulator :=
  with_entities
    (filter (fun ke => negb (fst ke =? id)) (entities s)) s.

(** [getComponent(id, 'redstone')]. *)
Definition getRedstone (s : simulator) (id : Z) : option component :=
  match lookup id (entities s) with
  | Some e => e_redstone e
  | None => None
  end.

(** The component [this] of a method running for entity [self].  Every
    caller takes [self] from an entity it has just looked up, so the
    component is in the table. *)
Definition getThis (s : simulator) (self : Z) : outcome component :=
  match getRedstone s self with
  | Some c => Done c
  | None => Fail TypeError
  end.

(** An assignment [this.f = v]. *)
Definition setThis (s : simulator) (self : Z) (f : component -> component)
  : simulator :=
  with_entities (update self (with_redstone f) (entities s)) s.

(** ** RedstoneSimulator *)

Definition newSimulator (w h : Z) : simulator :=
  {| width := w; height := h; entities := []; nextId := 1;
     tickCount := 0; nextTickList := [] |}.

Definition at_cell (x y : Z) (ke : Z * entity) : bool :=
  (px (e_position (snd ke)) =? x) && (py (e_position (snd ke)) =? y).

(** [getBlockEntity(x, y)]: the first entity, in insertion order, whose
    position is [(x, y)]. *)
Definition getBlockEntity (s : simulator) (x y : Z) : option (Z * entity) :=
  find (at_cell x y) (entities s).

(** [scheduleBlockUpdate(x, y, delay, priority = 0)]. *)
Definition scheduleBlockUpdate (s : simulator) (x y delay : Z) : simulator :=
  with_nextTickList
    (nextTickList s ++
       [{| tick_x := x; tick_y := y; tick_time := tickCount s + delay;
           tick_priority := 0 |}]) s.

(** [RedstoneComponent.updateBlockState]: [Object.assign] on the block state
    of the entity found at [(x, y)]. *)
Definition updateBlockState (s : simulator) (x y : Z)
    (changes : blockState -> blockState) : simulator :=
  match getBlockEntity s x y with
  | Some (id, _) =>
      with_entities (update id (with_blockState changes) (entities s)) s
  | None => s
  end.

(** [simulator.getBlockEntity(x, y).components.get('blockState').rotation],
    a [TypeError] when the cell is empty. *)
Definition rotationAt (s : simulator) (x y : Z) : outcome Z :=
  match getBlockEntity s x y with
  | Some (_, e) => Done (bs_rotation (e_blockState e))
  | None => Fail TypeError
  end.

(** The direction of the block a torch is attached to, from its rotation
    (RedstoneTorchComponent.onScheduledTick and getPowerOutput). *)
Definition torchAttachedDir (rotation : Z) : Z :=
  if rotation =? 0 then SOUTH
  else if rotation =? 1 then WEST
  else if rotation =? 2 then NORTH
  else if rotation =? 3 then EAST
  else SOUTH.

(** [getPowerOutput(simulator, x, y, toDirection)], dispatched on the class
    of the component [c]. *)
Definition getPowerOutput (s : simulator) (c : component) (x y toDirection : Z)
  : outcome Z :=
  match cls c with
  | RedstoneDustComponent => Done (powerLevel c)
  | RedstoneTorchComponent =>
      rotation <- rotationAt s x y ;;
      if toDirection =? torchAttachedDir rotation then Done 0
      else Done (powerLevel c)
  | LeverComponent => Done (powerLevel c)
  | ButtonComponent => Done (powerLevel c)
  | RepeaterComponent =>
      rotation <- rotationAt s x y ;;
      if toDirection =? rotation then Done (powerLevel c) else Done 0
  | ComparatorComponent =>
      rotation <- rotationAt s x y ;;
      if toDirection =? rotation then Done (outputPower c) else Done 0
  | ObserverComponent =>
      rotation <- rotationAt s x y ;;
      if toDirection =? Z.rem (rotation + 2) 4 then Done (powerLevel c)
      else Done 0
  | RedstoneBlockComponent => Done 15
  | PistonComponent | StickyPistonComponent | PistonHeadComponent
  | StoneComponent => Done 0
  end.

(** [getPower(x, y, fromDirection)]. *)
Definition getPower (s : simulator) (x y fromDirection : Z) : outcome Z :=
  let vec := toVector fromDirection in
  let sourceX := x + vx vec in
  let sourceY := y + vy vec in
  match getBlockEntity s sourceX sourceY with
  | None => Done 0
  | Some (_, sourceEntity) =>
      match e_redstone sourceEntity with
      | None => Done 0
      | Some redstone =>
          getPowerOutput s redstone sourceX sourceY (opposite fromDirection)
      end
  end.

(** [getMaxNeighborPower(x, y)]. *)
Definition getMaxNeighborPower (s : simulator) (x y : Z) : outcome Z :=
  foldM (fun max dir => p <- getPower s x y dir ;; Done (Z.max max p))
        cardinals 0.

(** [checkQuasiConnectivity(x, y)]: the hook returns [false]. *)
Definition checkQuasiConnectivity (s : simulator) (x y : Z) : bool := false.

(** [notifyNeighbors(x, y)], over the [onNeighborUpdate] it dispatches to. *)
Definition notifyNeighborsWith
    (onNeighborUpdate : simulator -> Z -> Z -> Z -> Z -> Z -> outcome simulator)
    (s : simulator) (x y : Z) : outcome simulator :=
  foldM (fun s dir =>
           let vec := toVector dir in
           let nx := x + vx vec in
           let ny := y + vy vec in
           match getBlockEntity s nx ny with
           | None => Done s
           | Some (id, neighbor) =>
               match e_redstone neighbor with
               | None => Done s
               | Some _ => onNeighborUpdate s id nx ny x y
               end
           end)
        cardinals s.

(** The level a wire computes from its four neighbours
    (RedstoneDustComponent.onNeighborUpdate, the [forEach]). *)
Definition dustMaxPower (s : simulator) (x y : Z) : outcome Z :=
  foldM (fun maxPower dir =>
           let vec := toVector dir in
           let nx := x + vx vec in
           let ny := y + vy vec in
           match getBlockEntity s nx ny with
           | None => Done maxPower
           | Some (_, neighbor) =>
               match e_redstone neighbor with
               | None => Done maxPower
               | Some redstone =>
                   match cls redstone with
                   | RedstoneDustComponent =>
                       Done (Z.max maxPower (powerLevel redstone - 1))
                   | _ =>
                       p <- getPowerOutput s redstone nx ny (opposite dir) ;;
                       Done (Z.max maxPower p)
                   end
               end
           end)
        cardinals 0.

(** [RepeaterComponent.getRepeaterInput]: only repeaters and comparators
    lock a repeater. *)
Definition getRepeaterInput (s : simulator) (x y fromDirection : Z)
  : outcome Z :=
  let vec := toVector fromDirection in
  let sourceX := x + vx vec in
  let sourceY := y + vy vec in
  match getBlockEntity s sourceX sourceY with
  | None => Done 0
  | Some (_, e) =>
      match e_redstone e with
      | None => Done 0
      | Some redstone =>
          match cls redstone with
          | RepeaterComponent | ComparatorComponent =>
              getPowerOutput s redstone sourceX sourceY
                (opposite fromDirection)
          | _ => Done 0
          end
      end
  end.

(** [onNeighborUpdate(simulator, x, y, neighborX, neighborY)] of the
    component of [self], dispatched on its class.  One unit of fuel is one
    level of the recursion through [notifyNeighbors]. *)
Fixpoint onNeighborUpdate (fuel : nat) (s : simulator)
    (self x y neighborX neighborY : Z) {struct fuel} : outcome simulator :=
  match fuel with
  | O => Fail OutOfFuel
  | S fuel' =>
      this <- getThis s self ;;
      match cls this with
      | RedstoneDustComponent =>
          maxPower <- dustMaxPower s x y ;;
          if negb (powerLevel this =? maxPower) then
            let s1 := setThis s self (set_powerLevel maxPower) in
            let s2 := updateBlockState s1 x y (set_bs_powerLevel maxPower) in
            notifyNeighborsWith (onNeighborUpdate fuel') s2 x y
          else Done s
      | RedstoneTorchComponent => Done (scheduleBlockUpdate s x y 2)
      | RepeaterComponent =>
          rotation <- rotationAt s x y ;;
          let leftSide := Z.rem (rotation + 3) 4 in
          let rightSide := Z.rem (rotation + 1) 4 in
          powerLeft <- getRepeaterInput s x y leftSide ;;
          powerRight <- getRepeaterInput s x y rightSide ;;
          let nowLocked := (powerLeft >? 0) || (powerRight >? 0) in
          let s1 := setThis s self (set_locked nowLocked) in
          if nowLocked then Done s1
          else
            let inputDir := Z.rem (rotation + 2) 4 in
            inputPower <- getPower s1 x y inputDir ;;
            let shouldBePowered := inputPower >? 0 in
            if shouldBePowered && negb (powered this) then
              Done (scheduleBlockUpdate s1 x y (delay this * 2))
            else if negb shouldBePowered && powered this then
              Done (scheduleBlockUpdate s1 x y (delay this * 2))
            else Done s1
      | ComparatorComponent => Done (scheduleBlockUpdate s x y 0)
      | ObserverComponent =>
          rotation <- rotationAt s x y ;;
          let vec := toVector rotation in
          if (neighborX =? x + vx vec) && (neighborY =? y + vy vec) then
            Done (scheduleBlockUpdate s x y 2)
          else Done s
      | PistonComponent | StickyPistonComponent =>
          maxPower <- getMaxNeighborPower s x y ;;
          let qcPower := checkQuasiConnectivity s x y in
          let shouldExtend := (maxPower >? 0) || qcPower in
          if shouldExtend && negb (extended this) then
            Done (scheduleBlockUpdate s x y 2)
          else if negb shouldExtend && extended this then
            Done (scheduleBlockUpdate s x y 2)
          else Done s
      | LeverComponent | ButtonComponent | PistonHeadComponent
      | RedstoneBlockComponent | StoneComponent => Done s
      end
  end.

Definition notifyNeighbors (fuel : nat) (s : simulator) (x y : Z)
  : outcome simulator :=
  notifyNeighborsWith (onNeighborUpdate fuel) s x y.

(** *** Creation *)

(** [initComponentRegistry]: the twelve registered kinds. *)
Definition componentRegistry (type : string) : option componentClass :=
  if String.eqb type "minecraft:redstone_dust" then Some RedstoneDustComponent
  else if String.eqb type "minecraft:redstone_torch"
    then Some RedstoneTorchComponent
  else if String.eqb type "minecraft:lever" then Some LeverComponent
  else if String.eqb type "minecraft:button" then Some ButtonComponent
  else if String.eqb type "minecraft:repeater" then Some RepeaterComponent
  else if String.eqb type "minecraft:comparator" then Some ComparatorComponent
  else if String.eqb type "minecraft:observer" then Some ObserverComponent
  else if String.eqb type "minecraft:piston" then Some PistonComponent
  else if String.eqb type "minecraft:sticky_piston"
    then Some StickyPistonComponent
  else if String.eqb type "minecraft:piston_head"
    then Some PistonHeadComponent
  else if String.eqb type "minecraft:redstone_block"
    then Some RedstoneBlockComponent
  else if String.eqb type "minecraft:stone" then Some StoneComponent
  else None.

(** [new ComponentClass()]: the constructors' initial field values. *)
Definition newComponent (k : componentClass) : component :=
  {| cls := k;
     powerLevel := match k with RedstoneBlockComponent => 15 | _ => 0 end;
     delay := 1;
     locked := false;
     powered := false;
     mode := compare;
     outputPower := 0;
     extended := false;
     isSticky := match k with StickyPistonComponent => true | _ => false end;
     headId := -1;
     sourcePistonId := -1 |}.

Definition newBlockState (type : string) : blockState :=
  {| bs_type := type; bs_rotation := 0; bs_powered := false;
     bs_powerLevel := 0; bs_waterlogged := false;
     bs_extended := false; bs_isSticky := false |}.

(** [onPlaced(simulator, x, y)]: the torch schedules its first check, every
    other class runs its [onNeighborUpdate] on itself. *)
Definition onPlaced (fuel : nat) (s : simulator) (self x y : Z)
  : outcome simulator :=
  this <- getThis s self ;;
  match cls this with
  | RedstoneTorchComponent => Done (scheduleBlockUpdate s x y 2)
  | _ => onNeighborUpdate fuel s self x y x y
  end.

(** [RedstoneSimulator.createEntity(type, x, y)]; returns the new state and
    the identifier. *)
Definition createEntity (fuel : nat) (s : simulator) (type : string) (x y : Z)
  : outcome (simulator * Z) :=
  let entityId := nextId s in
  let ent :=
    {| e_position := {| px := x; py := y; pz := 0 |};
       e_redstone := option_map newComponent (componentRegistry type);
       e_blockState := newBlockState type |} in
  let s1 :=
    {| width := width s; height := height s;
       entities := entities s ++ [(entityId, ent)];
       nextId := nextId s + 1;
       tickCount := tickCount s; nextTickList := nextTickList s |} in
  match e_redstone ent with
  | Some _ => s2 <- onPlaced fuel s1 entityId x y ;; Done (s2, entityId)
  | None => Done (s1, entityId)
  end.

(** *** Piston motion *)

(** The test shared by [canPush] and [doPull]: obsidian, bedrock, a piston
    head, or an extended piston. *)
Definition immovable (b : blockState) : bool :=
  String.eqb (bs_type b) "minecraft:obsidian"
  || String.eqb (bs_type b) "minecraft:bedrock"
  || String.eqb (bs_type b) "minecraft:piston_head"
  || ((String.eqb (bs_type b) "minecraft:piston"
       || String.eqb (bs_type b) "minecraft:sticky_piston")
      && bs_extended b).

(** The [while (true)] of [canPush], from cell [(cx, cy)] with [count]
    blocks already passed. *)
Fixpoint canPushLoop (fuel : nat) (s : simulator) (vec : vector)
    (cx cy count : Z) {struct fuel} : outcome bool :=
  match fuel with
  | O => Fail OutOfFuel
  | S fuel' =>
      match getBlockEntity s cx cy with
      | None => Done true
      | Some (_, block) =>
          if immovable (e_blockState block) then Done false
          else
            let count := count + 1 in
            if count >=? 12 then Done false
            else canPushLoop fuel' s vec (cx + vx vec) (cy + vy vec) count
      end
  end.

(** [canPush(simulator, x, y, direction)].  The loop leaves after at most
    twelve rounds, so twelve units of fuel run it to its end. *)
Definition canPush (s : simulator) (x y direction : Z) : outcome bool :=
  let vec := toVector direction in
  canPushLoop 12 s vec (x + vx vec) (y + vy vec) 0.

(** The first loop of [doPush]: the run of occupied cells from [(cx, cy)]. *)
Fixpoint collectStack (fuel : nat) (s : simulator) (vec : vector) (cx cy : Z)
    {struct fuel} : outcome (list (Z * (Z * Z))) :=
  match fuel with
  | O => Fail OutOfFuel
  | S fuel' =>
      match getBlockEntity s cx cy with
      | None => Done []
      | Some (id, _) =>
          rest <- collectStack fuel' s vec (cx + vx vec) (cy + vy vec) ;;
          Done ((id, (cx, cy)) :: rest)
      end
  end.

Definition moveTo (x y : Z) (e : entity) : entity :=
  with_position {| px := x; py := y; pz := pz (e_position e) |} e.

(** [doPush]: collect the stack, then move it from its far end. *)
Definition doPush (fuel : nat) (s : simulator) (x y direction : Z)
  : outcome simulator :=
  let vec := toVector direction in
  stack <- collectStack (S (List.length (entities s))) s vec
             (x + vx vec) (y + vy vec) ;;
  foldM (fun s item =>
           let '(id, (ix, iy)) := item in
           let newX := ix + vx vec in
           let newY := iy + vy vec in
           let s1 := with_entities (update id (moveTo newX newY) (entities s)) s in
           s2 <- notifyNeighbors fuel s1 ix iy ;;
           notifyNeighbors fuel s2 newX newY)
        (rev stack) s.

(** [doPull]. *)
Definition doPull (fuel : nat) (s : simulator) (x y direction : Z)
  : outcome simulator :=
  let vec := toVector direction in
  let targetX := x + vx vec * 2 in
  let targetY := y + vy vec * 2 in
  match getBlockEntity s targetX targetY with
  | None => Done s
  | Some (id, block) =>
      if immovable (e_blockState block) then Done s
      else
        let destX := x + vx vec in
        let destY := y + vy vec in
        let s1 :=
          with_entities (update id (moveTo destX destY) (entities s)) s in
        s2 <- notifyNeighbors fuel s1 targetX targetY ;;
        notifyNeighbors fuel s2 destX destY
  end.

(** [PistonComponent.extend]. *)
Definition extend (fuel : nat) (s : simulator) (self x y : Z)
  : outcome simulator :=
  this <- getThis s self ;;
  if extended this then Done s
  else
    match getBlockEntity s x y with
    | None => Fail TypeError
    | Some (entityId, ent) =>
        let rotation := bs_rotation (e_blockState ent) in
        let pushDir := rotation in
        let vec := toVector pushDir in
        ok <- canPush s x y pushDir ;;
        if ok then
          s1 <- doPush fuel s x y pushDir ;;
          let s2 := setThis s1 self (set_extended true) in
          let s3 := updateBlockState s2 x y (set_bs_extended true) in
          let headX := x + vx vec in
          let headY := y + vy vec in
          let s4 := match getBlockEntity s3 headX headY with
                    | Some (existing, _) => removeEntity existing s3
                    | None => s3
                    end in
          '(s5, newHead) <-
            createEntity fuel s4 "minecraft:piston_head" headX headY ;;
          let s6 := setThis s5 newHead
                      (fun c => set_isSticky (isSticky this)
                                  (set_sourcePistonId entityId c)) in
          let s7 := with_entities
                      (update newHead
                         (with_blockState
                            (fun b => set_bs_isSticky (isSticky this)
                                        (set_bs_rotation rotation b)))
                         (entities s6)) s6 in
          let s8 := setThis s7 self (set_headId newHead) in
          notifyNeighbors fuel s8 headX headY
        else Done s
    end.

(** [PistonComponent.retract]. *)
Definition retract (fuel : nat) (s : simulator) (self x y : Z)
  : outcome simulator :=
  this <- getThis s self ;;
  if negb (extended this) then Done s
  else
    rotation <- rotationAt s x y ;;
    let pushDir := rotation in
    let s1 := setThis s self (set_extended false) in
    let s2 := updateBlockState s1 x y (set_bs_extended false) in
    s3 <- (if negb (headId this =? -1) then
             let s' := setThis (removeEntity (headId this) s2) self
                         (set_headId (-1)) in
             let vec := toVector pushDir in
             notifyNeighbors fuel s' (x + vx vec) (y + vy vec)
           else Done s2) ;;
    if isSticky this then doPull fuel s3 x y pushDir else Done s3.

(** *** Scheduled ticks *)

(** The value a comparator computes from its rear and side inputs
    (ComparatorComponent.onScheduledTick). *)
Definition comparatorNewPower (m : comparatorMode) (rearPower sidePower : Z)
  : Z :=
  match m with
  | subtract => Z.max 0 (rearPower - sidePower)
  | compare => if rearPower >=? sidePower then rearPower else 0
  end.

(** [onScheduledTick(simulator, x, y, data)] of the component of [self]. *)
Definition onScheduledTick (fuel : nat) (s : simulator) (self x y : Z)
  : outcome simulator :=
  this <- getThis s self ;;
  match cls this with
  | RedstoneTorchComponent =>
      rotation <- rotationAt s x y ;;
      let attachedDir := torchAttachedDir rotation in
      inputPower <- getPower s x y attachedDir ;;
      let shouldBeOff := inputPower >? 0 in
      let isOff := powerLevel this =? 0 in
      if shouldBeOff && negb isOff then
        let s1 := setThis s self (set_powerLevel 0) in
        let s2 := updateBlockState s1 x y
                    (set_bs_type "minecraft:redstone_torch_off") in
        notifyNeighbors fuel s2 x y
      else if negb shouldBeOff && isOff then
        let s1 := setThis s self (set_powerLevel 15) in
        let s2 := updateBlockState s1 x y
                    (set_bs_type "minecraft:redstone_torch") in
        notifyNeighbors fuel s2 x y
      else Done s
  | ButtonComponent =>
      let s1 := setThis s self (set_powerLevel 0) in
      let s2 := updateBlockState s1 x y (set_bs_powered false) in
      notifyNeighbors fuel s2 x y
  | RepeaterComponent =>
      if locked this then Done s
      else
        rotation <- rotationAt s x y ;;
        let inputDir := Z.rem (rotation + 2) 4 in
        inputPower <- getPower s x y inputDir ;;
        let shouldBePowered := inputPower >? 0 in
        let s1 := setThis s self
                    (fun c => set_powerLevel (if shouldBePowered then 15 else 0)
                                (set_powered shouldBePowered c)) in
        let type := if shouldBePowered then "minecraft:repeater_on"
                    else "minecraft:repeater" in
        let s2 := updateBlockState s1 x y
                    (fun b => set_bs_powered shouldBePowered
                                (set_bs_type type b)) in
        notifyNeighbors fuel s2 x y
  | ComparatorComponent =>
      rotation <- rotationAt s x y ;;
      let inputDir := Z.rem (rotation + 2) 4 in
      rearPower <- getPower s x y inputDir ;;
      let leftSide := Z.rem (rotation + 3) 4 in
      let rightSide := Z.rem (rotation + 1) 4 in
      powerLeft <- getPower s x y leftSide ;;
      powerRight <- getPower s x y rightSide ;;
      let sidePower := Z.max powerLeft powerRight in
      let newPower := comparatorNewPower (mode this) rearPower sidePower in
      if negb (outputPower this =? newPower) then
        let s1 := setThis s self
                    (fun c => set_powerLevel newPower
                                (set_outputPower newPower c)) in
        let type := if newPower >? 0 then "minecraft:comparator_on"
                    else "minecraft:comparator" in
        let s2 := updateBlockState s1 x y
                    (fun b => set_bs_powerLevel newPower (set_bs_type type b)) in
        notifyNeighbors fuel s2 x y
      else Done s
  | ObserverComponent =>
      if powerLevel this =? 0 then
        let s1 := setThis s self (set_powerLevel 15) in
        let s2 := updateBlockState s1 x y
                    (set_bs_type "minecraft:observer_on") in
        s3 <- notifyNeighbors fuel s2 x y ;;
        Done (scheduleBlockUpdate s3 x y 2)
      else
        let s1 := setThis s self (set_powerLevel 0) in
        let s2 := updateBlockState s1 x y (set_bs_type "minecraft:observer") in
        notifyNeighbors fuel s2 x y
  | PistonComponent | StickyPistonComponent =>
      maxPower <- getMaxNeighborPower s x y ;;
      let shouldExtend := maxPower >? 0 in
      if shouldExtend && negb (extended this) then extend fuel s self x y
      else if negb shouldExtend && extended this then retract fuel s self x y
      else Done s
  | RedstoneDustComponent | LeverComponent | PistonHeadComponent
  | RedstoneBlockComponent | StoneComponent => Done s
  end.

(** The dispatch of one due entry: the entry names a cell, and the callback
    goes to the component of whatever entity is found there now. *)
Definition dispatchTick (fuel : nat) (s : simulator) (t : scheduledTick)
  : outcome simulator :=
  match getBlockEntity s (tick_x t) (tick_y t) with
  | None => Done s
  | Some (id, ent) =>
      match e_redstone ent with
      | None => Done s
      | Some _ => onScheduledTick fuel s id (tick_x t) (tick_y t)
      end
  end.

(** [const dueTicks = this.nextTickList.filter(t => t.time <= now)]. *)
Definition dueTicks (now : Z) (l : list scheduledTick) : list scheduledTick :=
  filter (fun t => tick_time t <=? now) l.

(** [this.nextTickList.filter(t => t.time > now)]. *)
Definition laterTicks (now : Z) (l : list scheduledTick)
  : list scheduledTick :=
  filter (fun t => tick_time t >? now) l.

(** [processScheduledTicks()]. *)
Definition processScheduledTicks (fuel : nat) (s : simulator)
  : outcome simulator :=
  let now := tickCount s in
  let due := dueTicks now (nextTickList s) in
  let s1 := with_nextTickList (laterTicks now (nextTickList s)) s in
  foldM (dispatchTick fuel) due s1.

(** [tick()]. *)
Definition tick (fuel : nat) (s : simulator) : outcome simulator :=
  processScheduledTicks fuel
    {| width := width s; height := height s; entities := entities s;
       nextId := nextId s; tickCount := tickCount s + 1;
       nextTickList := nextTickList s |}.

(** ** The editor: InputManager *)

(** [LeverComponent.toggle]; a component of another class has no such
    method. *)
Definition toggle (fuel : nat) (s : simulator) (self x y : Z)
  : outcome simulator :=
  this <- getThis s self ;;
  match cls this with
  | LeverComponent =>
      let newLevel := if powerLevel this >? 0 then 0 else 15 in
      let s1 := setThis s self (set_powerLevel newLevel) in
      let s2 := updateBlockState s1 x y (set_bs_powered (newLevel >? 0)) in
      notifyNeighbors fuel s2 x y
  | _ => Fail TypeError
  end.

(** [ButtonComponent.press]. *)
Definition press (fuel : nat) (s : simulator) (self x y : Z)
  : outcome simulator :=
  this <- getThis s self ;;
  match cls this with
  | ButtonComponent =>
      if powerLevel this =? 0 then
        let s1 := setThis s self (set_powerLevel 15) in
        let s2 := updateBlockState s1 x y (set_bs_powered true) in
        s3 <- notifyNeighbors fuel s2 x y ;;
        Done (scheduleBlockUpdate s3 x y 20)
      else Done s
  | _ => Fail TypeError
  end.

(** [placeOrInteract(x, y)] with the tool [selectedComponent]. *)
Definition placeOrInteract (fuel : nat) (s : simulator)
    (selectedComponent : string) (x y : Z) : outcome simulator :=
  if (x <? 0) || (x >=? width s) || (y <? 0) || (y >=? height s) then Done s
  else
    match getBlockEntity s x y with
    | Some (id, existingEntity) =>
        if String.eqb selectedComponent "erase" then
          notifyNeighbors fuel (removeEntity id s) x y
        else
          match e_redstone existingEntity with
          | Some _ =>
              let type := bs_type (e_blockState existingEntity) in
              if String.eqb type "minecraft:lever" then toggle fuel s id x y
              else if String.eqb type "minecraft:button" then
                press fuel s id x y
              else Done s
          | None => Done s
          end
    | None =>
        if String.eqb selectedComponent "erase" then Done s
        else
          '(s', _) <- createEntity fuel s selectedComponent x y ;; Done s'
    end.

(** [rotateComponent(x, y)]. *)
Definition rotateComponent (fuel : nat) (s : simulator) (x y : Z)
  : outcome simulator :=
  match getBlockEntity s x y with
  | None => Done s
  | Some (id, ent) =>
      let b := e_blockState ent in
      if (String.eqb (bs_type b) "minecraft:piston"
          || String.eqb (bs_type b) "minecraft:sticky_piston")
         && bs_extended b
      then Done s
      else
        let s1 :=
          with_entities
            (update id
               (with_blockState
                  (fun b => set_bs_rotation (Z.rem (bs_rotation b + 1) 4) b))
               (entities s)) s in
        s2 <- match e_redstone ent with
              | Some _ => onNeighborUpdate fuel s1 id x y x y
              | None => Done s1
              end ;;
        notifyNeighbors fuel s2 x y
  end.

(** *** The context menu (showContextMenu)

    The menu is built for the entity found at [(x, y)] when it opens.  Its
    items are closures: they keep that entity's identifier, its ['redstone']
    component object and the cell, and act on those when they are clicked,
    whatever has happened to the simulator since (the game loop goes on
    ticking and the keyboard and touch handlers go on working while the menu
    is open).  On an empty cell the menu offers only Cancel. *)

(** [type.includes(needle)]. *)
Definition includes (needle hay : string) : bool :=
  match String.index 0 needle hay with
  | Some _ => true
  | None => false
  end.

(** Building the menu: the entity at the cell, if any, is what the items
    capture.  For a type that includes "repeater" or "comparator" the item's
    label reads a field of the entity's component, a [TypeError] when it has
    none; the Delay item is added in the first case, the Mode item in the
    second. *)
Definition showContextMenu (s : simulator) (x y : Z)
  : outcome (option (Z * entity)) :=
  match getBlockEntity s x y with
  | None => Done None
  | Some (id, ent) =>
      let type := bs_type (e_blockState ent) in
      if includes "repeater" type || includes "comparator" type then
        match e_redstone ent with
        | None => Fail TypeError
        | Some _ => Done (Some (id, ent))
        end
      else Done (Some (id, ent))
  end.

(** **** Callbacks on a component whose entity is gone

    When the captured entity has been removed from the table the handler
    still holds its component object.  A callback called on it reads the
    fields of that object, here [this]; what it assigns to them reaches no
    table and is left out.  Everything else is as in [extend], [retract] and
    [onScheduledTick]. *)

Definition extendDetached (fuel : nat) (s : simulator) (this : component)
    (x y : Z) : outcome simulator :=
  if extended this then Done s
  else
    match getBlockEntity s x y with
    | None => Fail TypeError
    | Some (entityId, ent) =>
        let rotation := bs_rotation (e_blockState ent) in
        let pushDir := rotation in
        let vec := toVector pushDir in
        ok <- canPush s x y pushDir ;;
        if ok then
          s1 <- doPush fuel s x y pushDir ;;
          let s3 := updateBlockState s1 x y (set_bs_extended true) in
          let headX := x + vx vec in
          let headY := y + vy vec in
          let s4 := match getBlockEntity s3 headX headY with
                    | Some (existing, _) => removeEntity existing s3
                    | None => s3
                    end in
          '(s5, newHead) <-
            createEntity fuel s4 "minecraft:piston_head" headX headY ;;
          let s6 := setThis s5 newHead
                      (fun c => set_isSticky (isSticky this)
                                  (set_sourcePistonId entityId c)) in
          let s7 := with_entities
                      (update newHead
                         (with_blockState
                            (fun b => set_bs_isSticky (isSticky this)
                                        (set_bs_rotation rotation b)))
                         (entities s6)) s6 in
          notifyNeighbors fuel s7 headX headY
        else Done s
    end.

Definition retractDetached (fuel : nat) (s : simulator) (this : component)
    (x y : Z) : outcome simulator :=
  if negb (extended this) then Done s
  else
    rotation <- rotationAt s x y ;;
    let pushDir := rotation in
    let s2 := updateBlockState s x y (set_bs_extended false) in
    s3 <- (if negb (headId this =? -1) then
             let s' := removeEntity (headId this) s2 in
             let vec := toVector pushDir in
             notifyNeighbors fuel s' (x + vx vec) (y + vy vec)
           else Done s2) ;;
    if isSticky this then doPull fuel s3 x y pushDir else Done s3.

Definition onScheduledTickDetached (fuel : nat) (s : simulator)
    (this : component) (x y : Z) : outcome simulator :=
  match cls this with
  | RedstoneTorchComponent =>
      rotation <- rotationAt s x y ;;
      let attachedDir := torchAttachedDir rotation in
      inputPower <- getPower s x y attachedDir ;;
      let shouldBeOff := inputPower >? 0 in
      let isOff := powerLevel this =? 0 in
      if shouldBeOff && negb isOff then
        let s2 := updateBlockState s x y
                    (set_bs_type "minecraft:redstone_torch_off") in
        notifyNeighbors fuel s2 x y
      else if negb shouldBeOff && isOff then
        let s2 := updateBlockState s x y
                    (set_bs_type "minecraft:redstone_torch") in
        notifyNeighbors fuel s2 x y
      else Done s
  | ButtonComponent =>
      let s2 := updateBlockState s x y (set_bs_powered false) in
      notifyNeighbors fuel s2 x y
  | RepeaterComponent =>
      if locked this then Done s
      else
        rotation <- rotationAt s x y ;;
        let inputDir := Z.rem (rotation + 2) 4 in
        inputPower <- getPower s x y inputDir ;;
        let shouldBePowered := inputPower >? 0 in
        let type := if shouldBePowered then "minecraft:repeater_on"
                    else "minecraft:repeater" in
        let s2 := updateBlockState s x y
                    (fun b => set_bs_powered shouldBePowered
                                (set_bs_type type b)) in
        notifyNeighbors fuel s2 x y
  | ComparatorComponent =>
      rotation <- rotationAt s x y ;;
      let inputDir := Z.rem (rotation + 2) 4 in
      rearPower <- getPower s x y inputDir ;;
      let leftSide := Z.rem (rotation + 3) 4 in
      let rightSide := Z.rem (rotation + 1) 4 in
      powerLeft <- getPower s x y leftSide ;;
      powerRight <- getPower s x y rightSide ;;
      let sidePower := Z.max powerLeft powerRight in
      let newPower := comparatorNewPower (mode this) rearPower sidePower in
      if negb (outputPower this =? newPower) then
        let type := if newPower >? 0 then "minecraft:comparator_on"
                    else "minecraft:comparator" in
        let s2 := updateBlockState s x y
                    (fun b => set_bs_powerLevel newPower (set_bs_type type b)) in
        notifyNeighbors fuel s2 x y
      else Done s
  | ObserverComponent =>
      if powerLevel this =? 0 then
        let s2 := updateBlockState s x y
                    (set_bs_type "minecraft:observer_on") in
        s3 <- notifyNeighbors fuel s2 x y ;;
        Done (scheduleBlockUpdate s3 x y 2)
      else
        let s2 := updateBlockState s x y (set_bs_type "minecraft:observer") in
        notifyNeighbors fuel s2 x y
  | PistonComponent | StickyPistonComponent =>
      maxPower <- getMaxNeighborPower s x y ;;
      let shouldExtend := maxPower >? 0 in
      if shouldExtend && negb (extended this) then
        extendDetached fuel s this x y
      else if negb shouldExtend && extended this then
        retractDetached fuel s this x y
      else Done s
  | RedstoneDustComponent | LeverComponent | PistonHeadComponent
  | RedstoneBlockComponent | StoneComponent => Done s
  end.

(** **** The items *)

(** [redstone.delay = (redstone.delay % 4) + 1]. *)
Definition cycleDelay (c : component) : component :=
  set_delay (Z.rem (delay c) 4 + 1) c.

Definition otherMode (m : comparatorMode) : comparatorMode :=
  match m with
  | compare => subtract
  | subtract => compare
  end.

(** [redstone.mode = (redstone.mode === 'compare') ? 'subtract' : 'compare']. *)
Definition swapMode (c : component) : component :=
  set_mode (otherMode (mode c)) c.

(** The Delay and the Mode item: an assignment [assign] to the captured
    component, then that component's [onScheduledTick] at the captured cell
    [(x, y)].  While the captured entity [id] is in the table (identifiers
    are not issued twice) its component is the captured object; once it is
    gone the object is a free one, with the field values [detached]. *)
Definition menuItem (assign : component -> component) (fuel : nat)
    (s : simulator) (id : Z) (detached : component) (x y : Z)
  : outcome simulator :=
  match lookup id (entities s) with
  | Some _ => onScheduledTick fuel (setThis s id assign) id x y
  | None => onScheduledTickDetached fuel s (assign detached) x y
  end.

(** The Delay item, offered when the captured type includes "repeater". *)
Definition menuDelay : nat -> simulator -> Z -> component -> Z -> Z
                       -> outcome simulator :=
  menuItem cycleDelay.

(** The Mode item, offered when the captured type includes "comparator" and
    not "repeater". *)
Definition menuMode : nat -> simulator -> Z -> component -> Z -> Z
                      -> outcome simulator :=
  menuItem swapMode.

(** The Delete item: [removeEntity(entity.id)] for the captured entity, then
    [notifyNeighbors(x, y)] for the captured cell. *)
Definition menuDelete (fuel : nat) (s : simulator) (id x y : Z)
  : outcome simulator :=
  notifyNeighbors fuel (removeEntity id s) x y.

(** The Rotate item calls [rotateComponent(x, y)] for the captured cell. *)

(** * Auxiliary definitions

    Total readings of the power queries, the relations and state checks the
    statements use, and the scenarios they are exercised on. *)

(** ** What a notification cascade leaves alone

    A cascade of [onNeighborUpdate] calls writes the level of wires, the
    [locked] flag of repeaters and the [powerLevel] of block states, and it
    appends to the tick list; it touches nothing else. *)

Definition comp_frame (c c' : component) : Prop :=
  cls c' = cls c /\ delay c' = delay c /\ powered c' = powered c
  /\ mode c' = mode c /\ outputPower c' = outputPower c
  /\ extended c' = extended c /\ isSticky c' = isSticky c
  /\ headId c' = headId c /\ sourcePistonId c' = sourcePistonId c
  /\ (cls c <> RedstoneDustComponent -> powerLevel c' = powerLevel c).

Definition bs_frame (b b' : blockState) : Prop :=
  bs_type b' = bs_type b /\ bs_rotation b' = bs_rotation b
  /\ bs_powered b' = bs_powered b /\ bs_waterlogged b' = bs_waterlogged b
  /\ bs_extended b' = bs_extended b /\ bs_isSticky b' = bs_isSticky b.

Definition opt_frame (o o' : option component) : Prop :=
  match o, o' with
  | None, None => True
  | Some c, Some c' => comp_frame c c'
  | _, _ => False
  end.

Definition ent_frame (e e' : entity) : Prop :=
  e_position e' = e_position e
  /\ bs_frame (e_blockState e) (e_blockState e')
  /\ opt_frame (e_redstone e) (e_redstone e').

Definition table_frame (l l' : list (Z * entity)) : Prop :=
  Forall2 (fun ke ke' => fst ke' = fst ke /\ ent_frame (snd ke) (snd ke'))
          l l'.

Definition notify_frame (s s' : simulator) : Prop :=
  width s' = width s /\ height s' = height s /\ nextId s' = nextId s
  /\ tickCount s' = tickCount s
  /\ (exists added, nextTickList s' = nextTickList s ++ added)
  /\ table_frame (entities s) (entities s').

(** No callback touches the clock, and the only writes to the tick list
    outside [processScheduledTicks] append to it. *)
Definition queue_grows (s s' : simulator) : Prop :=
  tickCount s' = tickCount s
  /\ exists added, nextTickList s' = nextTickList s ++ added.

(** ** The power queries as total functions *)

(** The value of [getPowerOutput] for a component of an entity with the
    given rotation. *)
Definition powerOutputOf (c : component) (rotation toDirection : Z) : Z :=
  match cls c with
  | RedstoneDustComponent | LeverComponent | ButtonComponent => powerLevel c
  | RedstoneTorchComponent =>
      if toDirection =? torchAttachedDir rotation then 0 else powerLevel c
  | RepeaterComponent => if toDirection =? rotation then powerLevel c else 0
  | ComparatorComponent => if toDirection =? rotation then outputPower c else 0
  | ObserverComponent =>
      if toDirection =? Z.rem (rotation + 2) 4 then powerLevel c else 0
  | RedstoneBlockComponent => 15
  | PistonComponent | StickyPistonComponent | PistonHeadComponent
  | StoneComponent => 0
  end.

(** The value of [getPower]. *)
Definition powerInto (s : simulator) (x y fromDirection : Z) : Z :=
  let vec := toVector fromDirection in
  match getBlockEntity s (x + vx vec) (y + vy vec) with
  | None => 0
  | Some (_, e) =>
      match e_redstone e with
      | None => 0
      | Some c =>
          powerOutputOf c (bs_rotation (e_blockState e))
            (opposite fromDirection)
      end
  end.

(** The value of [getRepeaterInput]. *)
Definition lockInput (s : simulator) (x y fromDirection : Z) : Z :=
  let vec := toVector fromDirection in
  match getBlockEntity s (x + vx vec) (y + vy vec) with
  | None => 0
  | Some (_, e) =>
      match e_redstone e with
      | None => 0
      | Some c =>
          match cls c with
          | RepeaterComponent | ComparatorComponent =>
              powerOutputOf c (bs_rotation (e_blockState e))
                (opposite fromDirection)
          | _ => 0
          end
      end
  end.

(** One round of the wire's [forEach], as a function. *)
Definition dustStep (s : simulator) (x y maxPower dir : Z) : Z :=
  let vec := toVector dir in
  match getBlockEntity s (x + vx vec) (y + vy vec) with
  | None => maxPower
  | Some (_, neighbor) =>
      match e_redstone neighbor with
      | None => maxPower
      | Some c =>
          match cls c with
          | RedstoneDustComponent => Z.max maxPower (powerLevel c - 1)
          | _ => Z.max maxPower
                   (powerOutputOf c (bs_rotation (e_blockState neighbor))
                      (opposite dir))
          end
      end
  end.

(** What one neighbour contributes to a wire, in the words of the
    specification: a wire neighbour its level less one, floored at 0; a
    neighbour of another kind its output toward the wire; nothing
    otherwise. *)
Definition wireContribution (s : simulator) (x y dir : Z) : Z :=
  let vec := toVector dir in
  match getBlockEntity s (x + vx vec) (y + vy vec) with
  | None => 0
  | Some (_, neighbor) =>
      match e_redstone neighbor with
      | None => 0
      | Some c =>
          match cls c with
          | RedstoneDustComponent => Z.max 0 (powerLevel c - 1)
          | _ => powerOutputOf c (bs_rotation (e_blockState neighbor))
                   (opposite dir)
          end
      end
  end.

(** The maximum over the four cardinal neighbours (0 when none gives
    more). *)
Definition wireLevel (s : simulator) (x y : Z) : Z :=
  fold_right Z.max 0 (map (wireContribution s x y) cardinals).

(** ** Dispatch *)

(** [dispatched s self x y e]: [self] is the entity a dispatcher finds at
    [(x, y)], the situation in which [notifyNeighbors] and
    [processScheduledTicks] call a component's methods.  (In a [Map] the key
    [self] names that one entity.) *)
Definition dispatched (s : simulator) (self x y : Z) (e : entity) : Prop :=
  getBlockEntity s x y = Some (self, e) /\ lookup self (entities s) = Some e.

(** A component commits a change: it assigns fields of [this] and patches
    the block state of its cell. *)
Definition commit (s : simulator) (self x y : Z)
    (f : component -> component) (g : blockState -> blockState) : simulator :=
  updateBlockState (setThis s self f) x y g.

(** ** Checks on a state *)

(** Which identifier sits where. *)
Definition layout (s : simulator) : list (Z * position) :=
  map (fun ke => (fst ke, e_position (snd ke))) (entities s).

(** A piston head points back at a piston that is extended and points at
    it. *)
Definition head_has_source (s : simulator) (ke : Z * entity) : bool :=
  match e_redstone (snd ke) with
  | Some hc =>
      match cls hc with
      | PistonHeadComponent =>
          match getRedstone s (sourcePistonId hc) with
          | Some pc =>
              match cls pc with
              | PistonComponent | StickyPistonComponent =>
                  extended pc && (headId pc =? fst ke)
              | _ => false
              end
          | None => false
          end
      | _ => true
      end
  | None => true
  end.

(** An extended piston has its head in the next cell along its rotation. *)
Definition piston_has_head (s : simulator) (ke : Z * entity) : bool :=
  match e_redstone (snd ke) with
  | Some pc =>
      match cls pc with
      | PistonComponent | StickyPistonComponent =>
          if extended pc then
            let vec := toVector (bs_rotation (e_blockState (snd ke))) in
            match getBlockEntity s (px (e_position (snd ke)) + vx vec)
                    (py (e_position (snd ke)) + vy vec) with
            | Some (_, h) =>
                match e_redstone h with
                | Some hc =>
                    match cls hc with
                    | PistonHeadComponent => sourcePistonId hc =? fst ke
                    | _ => false
                    end
                | None => false
                end
            | None => false
            end
          else true
      | _ => true
      end
  | None => true
  end.

(** Invariant 4 of the data model, as a check on a state. *)
Definition heads_match_pistons (s : simulator) : bool :=
  forallb (head_has_source s) (entities s)
  && forallb (piston_has_head s) (entities s).

(** The cell shows a stone. *)
Definition is_stone_at (s : simulator) (x y : Z) : bool :=
  match getBlockEntity s x y with
  | Some (_, b) => String.eqb (bs_type (e_blockState b)) "minecraft:stone"
  | None => false
  end.

(** ** Statements that are put to the test *)

(** The torch contract for an attachment direction given as a function of
    the rotation: the scheduled check settles the torch's level, off exactly
    when power enters from that direction, and then returns or hands over to
    the notification of its neighbours, which leaves that level alone; the
    torch emits nothing toward that direction and its level everywhere
    else. *)
Definition torch_contract (attachment : Z -> Z) : Prop :=
  forall (fuel : nat) (s : simulator) (self x y : Z) (e : entity)
         (this : component),
    dispatched s self x y e ->
    e_redstone e = Some this ->
    cls this = RedstoneTorchComponent ->
    0 <= bs_rotation (e_blockState e) <= 3 ->
    let attachedDir := attachment (bs_rotation (e_blockState e)) in
    getPower s x y attachedDir = Done (powerInto s x y attachedDir)
    /\ (exists s1 c1,
       getRedstone s1 self = Some c1
       /\ (powerLevel c1 = 0 <-> powerInto s x y attachedDir > 0)
       /\ (onScheduledTick fuel s self x y = Done s1
           \/ onScheduledTick fuel s self x y = notifyNeighbors fuel s1 x y))
    /\ (forall s', onScheduledTick fuel s self x y = Done s' ->
          exists c', getRedstone s' self = Some c'
                     /\ (powerLevel c' = 0 <-> powerInto s x y attachedDir > 0))
    /\ getPowerOutput s this x y attachedDir = Done 0
    /\ (forall d, d <> attachedDir ->
          getPowerOutput s this x y d = Done (powerLevel this)).

(** C6 as stated: the scheduled callback of an unlocked repeater whose
    desired state equals its current one changes nothing and notifies
    nobody. *)
Definition repeater_tick_guarded : Prop :=
  forall (fuel : nat) (s : simulator) (self x y : Z) (e : entity)
         (this : component) (s' : simulator),
    dispatched s self x y e ->
    e_redstone e = Some this ->
    cls this = RepeaterComponent ->
    locked this = false ->
    (powerInto s x y (Z.rem (bs_rotation (e_blockState e) + 2) 4) >? 0)
    = powered this ->
    onScheduledTick fuel s self x y = Done s' ->
    s' = s.

(** C2 as stated, second half: an entry that becomes due while its cell
    holds another block than at enqueue time is dropped. *)
Definition stale_entry_dropped : Prop :=
  forall (fuel : nat) (s s2 : simulator) (x y d id id2 : Z) (e e2 : entity),
    getBlockEntity s x y = Some (id, e) ->
    getBlockEntity s2 x y = Some (id2, e2) ->
    id2 <> id ->
    dispatchTick fuel s2
      {| tick_x := x; tick_y := y; tick_time := tickCount s + d;
         tick_priority := 0 |}
    = Done s2.

(** C3 as stated, for [createEntity] itself: on an occupied cell or outside
    the grid no record is inserted. *)
Definition createEntity_guarded : Prop :=
  forall (fuel : nat) (s : simulator) (kind : string) (x y : Z)
         (s' : simulator) (id : Z),
    getBlockEntity s x y <> None
    \/ x < 0 \/ width s <= x \/ y < 0 \/ height s <= y ->
    createEntity fuel s kind x y = Done (s', id) ->
    layout s' = layout s.

(** ** Scenarios

    States reached from an empty 64 x 48 simulator by editor actions and
    ticks; the theorems are exercised on them. *)

Definition fuel50 : nat := 50%nat.

Fixpoint perform (ops : list (simulator -> outcome simulator)) (s : simulator)
  : outcome simulator :=
  match ops with
  | [] => Done s
  | op :: ops' => s' <- op s ;; perform ops' s'
  end.

Definition place (kind : string) (x y : Z) (s : simulator)
  : outcome simulator :=
  placeOrInteract fuel50 s kind x y.

(** A click with a placing tool on an occupied cell interacts with it. *)
Definition click (x y : Z) (s : simulator) : outcome simulator :=
  placeOrInteract fuel50 s "minecraft:stone" x y.

Definition erase (x y : Z) (s : simulator) : outcome simulator :=
  placeOrInteract fuel50 s "erase" x y.

Definition state_of (o : outcome simulator) : simulator :=
  match o with
  | Done s => s
  | Fail _ => newSimulator 0 0
  end.

Definition entity_of (s : simulator) (id : Z) : entity :=
  match lookup id (entities s) with
  | Some e => e
  | None => {| e_position := {| px := 0; py := 0; pz := 0 |};
               e_redstone := None; e_blockState := newBlockState "" |}
  end.

Definition this_of (s : simulator) (id : Z) : component :=
  match getRedstone s id with
  | Some c => c
  | None => newComponent StoneComponent
  end.

(** A comparator facing north at (5,5): a power block behind it at
    (5,6), and on its west side the end of a wire run fed by a power block
    at (0,5). *)
Definition comparator_ops : list (simulator -> outcome simulator) :=
  [ place "minecraft:redstone_block" 5 6;
    place "minecraft:redstone_block" 0 5;
    place "minecraft:redstone_dust" 1 5;
    place "minecraft:redstone_dust" 2 5;
    place "minecraft:redstone_dust" 3 5;
    place "minecraft:redstone_dust" 4 5;
    place "minecraft:comparator" 5 5 ].

Definition comparator_scene : simulator :=
  Eval vm_compute in state_of (perform comparator_ops (newSimulator 64 48)).

(** The wire run of [comparator_scene] after the power block at (0,5)
    that feeds it has been taken away, at the moment the first wire is
    told. *)
Definition wire_cut_scene : simulator :=
  Eval vm_compute in removeEntity 2 comparator_scene.

(** A torch at (5,5), lit by its first check, then a power block set
    south of it at (5,6). *)
Definition torch_ops : list (simulator -> outcome simulator) :=
  [ place "minecraft:redstone_torch" 5 5; tick fuel50; tick fuel50 ].

Definition torch_scene : simulator :=
  Eval vm_compute in state_of (perform torch_ops (newSimulator 64 48)).

Definition torch_block_scene : simulator :=
  Eval vm_compute in
    state_of (place "minecraft:redstone_block" 5 6 torch_scene).

(** A repeater facing north at (5,5), a lever behind it at (5,6)
    switched on and off again before the repeater's delay has passed, and a
    comparator in front at (5,4). *)
Definition repeater_ops : list (simulator -> outcome simulator) :=
  [ place "minecraft:repeater" 5 5;
    place "minecraft:lever" 5 6;
    place "minecraft:comparator" 5 4;
    tick fuel50;
    click 5 6;
    click 5 6 ].

Definition repeater_scene : simulator :=
  Eval vm_compute in state_of (perform repeater_ops (newSimulator 64 48)).

(** The same with the lever left on. *)
Definition repeater_on_scene : simulator :=
  Eval vm_compute in
    state_of (perform (removelast repeater_ops) (newSimulator 64 48)).

(** A button at (5,5) is pressed and then erased; nineteen ticks pass.
    In the second scene an observer is placed on the vacated cell before
    the ticks. *)
Definition button_ops : list (simulator -> outcome simulator) :=
  [ place "minecraft:button" 5 5; click 5 5; erase 5 5 ].

(** The state in which the button's [press] enqueues its turn-off. *)
Definition pressed_scene : simulator :=
  Eval vm_compute in
    state_of (perform (removelast button_ops) (newSimulator 64 48)).

Definition orphan_scene : simulator :=
  Eval vm_compute in
    state_of (perform (button_ops ++ repeat (tick fuel50) 19)
                (newSimulator 64 48)).

Definition replaced_scene : simulator :=
  Eval vm_compute in
    state_of (perform (button_ops ++ [place "minecraft:observer" 5 5]
                         ++ repeat (tick fuel50) 19)
                (newSimulator 64 48)).

(** A piston at (5,5) facing north, extended by a lever at (6,5). *)
Definition piston_ops : list (simulator -> outcome simulator) :=
  [ place "minecraft:piston" 5 5;
    place "minecraft:lever" 6 5;
    click 6 5;
    tick fuel50;
    tick fuel50 ].

Definition extended_scene : simulator :=
  Eval vm_compute in state_of (perform piston_ops (newSimulator 64 48)).

(** [extended_scene] with the lever switched off again: the piston is still
    extended and its retraction is scheduled. *)
Definition retracting_scene : simulator :=
  Eval vm_compute in state_of (click 6 5 extended_scene).

(** [piston_ops] without its two ticks: the piston is powered and its
    extension is scheduled. *)
Definition extending_scene : simulator :=
  Eval vm_compute in
    state_of (perform (firstn 3 piston_ops) (newSimulator 64 48)).

(** A sticky piston at (5,5) is extended; its head at (5,4) is erased and a
    stone is put in its place, another stone at (5,3); then the lever is
    switched off and the piston's delay passes. *)
Definition pull_ops : list (simulator -> outcome simulator) :=
  [ place "minecraft:sticky_piston" 5 5;
    place "minecraft:lever" 6 5;
    click 6 5;
    tick fuel50;
    tick fuel50;
    erase 5 4;
    place "minecraft:stone" 5 4;
    place "minecraft:stone" 5 3;
    click 6 5;
    tick fuel50;
    tick fuel50 ].

Definition pull_scene : simulator :=
  Eval vm_compute in state_of (perform pull_ops (newSimulator 64 48)).

(** A piston at (5,20) facing north, [n] stones in front of it from
    (5,19) upward, and a lever at (6,20) switched on. *)
Definition push_ops (n : nat) : list (simulator -> outcome simulator) :=
  [ place "minecraft:piston" 5 20 ]
  ++ map (fun i => place "minecraft:stone" 5 (19 - Z.of_nat i)) (seq 0 n)
  ++ [ place "minecraft:lever" 6 20; click 6 20 ].

Definition push12_scene : simulator :=
  Eval vm_compute in state_of (perform (push_ops 12) (newSimulator 64 48)).

Definition push11_scene : simulator :=
  Eval vm_compute in state_of (perform (push_ops 11) (newSimulator 64 48)).

(** A repeater at (5,4) with a piston behind it at (5,5), facing north,
    and a lever beside the piston.  [menu_open_scene] is the state in which
    the context menu is opened on the repeater; in [stale_menu_scene] the
    lever has been switched on and two ticks have passed with the menu still
    open. *)
Definition stale_menu_ops : list (simulator -> outcome simulator) :=
  [ place "minecraft:repeater" 5 4;
    place "minecraft:piston" 5 5;
    place "minecraft:lever" 6 5;
    click 6 5;
    tick fuel50;
    tick fuel50 ].

Definition menu_open_scene : simulator :=
  Eval vm_compute in
    state_of (perform (firstn 3 stale_menu_ops) (newSimulator 64 48)).

Definition stale_menu_scene : simulator :=
  Eval vm_compute in
    state_of (perform stale_menu_ops (newSimulator 64 48)).

(** [stale_menu_scene] after the Delay item of the menu opened in
    [menu_open_scene] has been clicked. *)
Definition stale_clicked_scene : simulator :=
  Eval vm_compute in
    state_of (menuDelay fuel50 stale_menu_scene 1
                (this_of menu_open_scene 1) 5 4).

(** [pressed_scene] nineteen ticks later: the button's release, due at
    clock 20, is the next entry to fire. *)
Definition waiting_scene : simulator :=
  Eval vm_compute in
    state_of (perform (repeat (tick fuel50) 19) pressed_scene).

(** ** Reachable states and what holds in all of them *)

(** The states a simulator of the application can be in: a fresh one, and
    from there the editor's actions and the game loop's ticks, each taken
    when it returns.  A menu item acts on the identifier and the cell its
    closure captured when the menu opened, possibly long before: the
    relation lets an item run with any identifier, any cell and, for a
    component whose entity is gone, any field values, the captured ones
    being among them.  The callback of the Delay and of the Mode item can
    throw, at its first read of a cell that is empty by now and before it
    has written anything: the handler then leaves the simulator with the
    assignment alone. *)
Inductive reachable : simulator -> Prop :=
| reach_new (w h : Z) : reachable (newSimulator w h)
| reach_place fuel s kind x y s' :
    reachable s -> placeOrInteract fuel s kind x y = Done s' -> reachable s'
| reach_rotate fuel s x y s' :
    reachable s -> rotateComponent fuel s x y = Done s' -> reachable s'
| reach_delay fuel s id detached x y s' :
    reachable s -> menuDelay fuel s id detached x y = Done s' -> reachable s'
| reach_delay_thrown s id :
    reachable s -> reachable (setThis s id cycleDelay)
| reach_mode fuel s id detached x y s' :
    reachable s -> menuMode fuel s id detached x y = Done s' -> reachable s'
| reach_mode_thrown s id :
    reachable s -> reachable (setThis s id swapMode)
| reach_delete fuel s id x y s' :
    reachable s -> menuDelete fuel s id x y = Done s' -> reachable s'
| reach_tick fuel s s' :
    reachable s -> tick fuel s = Done s' -> reachable s'.

(** Levels are redstone levels and a repeater's delay is one of its four
    settings. *)
Definition comp_ok (c : component) : Prop :=
  0 <= powerLevel c <= 15 /\ 0 <= outputPower c <= 15 /\ 1 <= delay c <= 4.

(** A rotation is a cardinal direction. *)
Definition ent_ok (e : entity) : Prop :=
  0 <= bs_rotation (e_blockState e) <= 3
  /\ match e_redstone e with
     | Some c => comp_ok c
     | None => True
     end.

(** Identifiers are pairwise different, positive and below [nextId]. *)
Definition ids_ok (s : simulator) : Prop :=
  NoDup (map fst (entities s))
  /\ 0 < nextId s
  /\ Forall (fun k => 0 < k < nextId s) (map fst (entities s)).

(** No queued entry is due before the current clock value. *)
Definition queue_ok (s : simulator) : Prop :=
  Forall (fun t => tickCount s <= tick_time t) (nextTickList s).

Definition wf (s : simulator) : Prop :=
  ids_ok s /\ Forall (fun ke => ent_ok (snd ke)) (entities s) /\ queue_ok s.

(** ** Motion *)

(** An entity carried along by a piston keeps its block state, but for the
    wire level shown, and its component, but for what a notification writes
    ([opt_frame]). *)
Definition carried (e e' : entity) : Prop :=
  bs_frame (e_blockState e) (e_blockState e')
  /\ opt_frame (e_redstone e) (e_redstone e')
  /\ pz (e_position e') = pz (e_position e).

(** [moved_by target s s']: the same identifiers in the same order, each
    entity carried, and the entity of identifier [k] that was at [p] now at
    [target k p]. *)
Definition moved_by (target : Z -> position -> position) (s s' : simulator)
  : Prop :=
  nextId s' = nextId s
  /\ map fst (entities s') = map fst (entities s)
  /\ forall k e,
       lookup k (entities s) = Some e ->
       exists e',
         lookup k (entities s') = Some e'
         /\ carried e e'
         /\ e_position e' = target k (e_position e).

(** Where [doPush] puts the entity of one stack item, and of a list of
    them. *)
Definition pushTarget (vec : vector) (item : Z * (Z * Z)) (k : Z)
    (p : position) : position :=
  if k =? fst item then
    {| px := fst (snd item) + vx vec; py := snd (snd item) + vy vec;
       pz := pz p |}
  else p.

Definition pushTargets (vec : vector) (items : list (Z * (Z * Z))) (k : Z)
    (p : position) : position :=
  fold_left (fun p item => pushTarget vec item k p) items p.

(** ** The push limit *)



(** ** Editing round trips and identifiers *)

(** The test of [getBlockEntity], on a position. *)
Definition cell_of (x y : Z) (kp : Z * position) : bool :=
  (px (snd kp) =? x) && (py (snd kp) =? y).

(** From [s] to [s'] the counter has not gone back, and an identifier in the
    table of [s'] was in the table of [s] or has been issued since. *)
Definition ids_step (s s' : simulator) : Prop :=
  nextId s <= nextId s'
  /\ forall k, In k (map fst (entities s')) ->
               In k (map fst (entities s)) \/ nextId s <= k.

(** [evolves s s']: the simulator gets from [s] to [s'] by the steps of
    [reachable]. *)
Inductive evolves : simulator -> simulator -> Prop :=
| ev_refl s : evolves s s
| ev_place fuel s s1 kind x y s' :
    evolves s s1 -> placeOrInteract fuel s1 kind x y = Done s' -> evolves s s'
| ev_rotate fuel s s1 x y s' :
    evolves s s1 -> rotateComponent fuel s1 x y = Done s' -> evolves s s'
| ev_delay fuel s s1 id detached x y s' :
    evolves s s1 -> menuDelay fuel s1 id detached x y = Done s' ->
    evolves s s'
| ev_delay_thrown s s1 id :
    evolves s s1 -> evolves s (setThis s1 id cycleDelay)
| ev_mode fuel s s1 id detached x y s' :
    evolves s s1 -> menuMode fuel s1 id detached x y = Done s' ->
    evolves s s'
| ev_mode_thrown s s1 id :
    evolves s s1 -> evolves s (setThis s1 id swapMode)
| ev_delete fuel s s1 id x y s' :
    evolves s s1 -> menuDelete fuel s1 id x y = Done s' -> evolves s s'
| ev_tick fuel s s1 s' :
    evolves s s1 -> tick fuel s1 = Done s' -> evolves s s'.

(** * Properties *)

(** ** Outcomes *)

Lemma bind_Done {A B : Type} (m : outcome A) (k : A -> outcome B) (b : B) :
  bind m k = Done b -> exists a, m = Done a /\ k a = Done b.
Proof.
  destruct m as [a|e]; simpl; intros H; [exists a; auto | discriminate].
Qed.

(** Invert a hypothesis [x <- m ;; k = Done r] into its two steps. *)
Ltac bind_inv H :=
  let a := fresh "a" in
  let Ha := fresh "Hstep" in
  apply bind_Done in H; destruct H as [a [Ha H]].

Section FoldM.
Context {A B : Type} (R : A -> A -> Prop) (f : A -> B -> outcome A).
Hypothesis R_refl : forall a, R a a.
Hypothesis R_trans : forall a b c, R a b -> R b c -> R a c.
Hypothesis f_R : forall a b a', f a b = Done a' -> R a a'.

Lemma foldM_preserves (l : list B) :
  forall a a', foldM f l a = Done a' -> R a a'.
Proof.
  induction l as [|b l IH]; simpl; intros a a' H.
  - injection H as <-. apply R_refl.
  - bind_inv H. eapply R_trans; [eapply f_R; eassumption | eauto].
Qed.
End FoldM.

Lemma foldM_id {A B : Type} (f : A -> B -> outcome A) (l : list B) (a : A) :
  (forall b, In b l -> f a b = Done a) -> foldM f l a = Done a.
Proof.
  induction l as [|b l IH]; simpl; intros H; [reflexivity|].
  rewrite (H b) by auto. simpl. apply IH. auto.
Qed.

(** ** The entity table *)

Lemma lookup_update_same id f l :
  lookup id (update id f l) = option_map f (lookup id l).
Proof.
  induction l as [|[k e] l IH]; simpl; [reflexivity|].
  destruct (k =? id) eqn:E; simpl; rewrite E; auto.
Qed.

Lemma lookup_update_other id k f l :
  k <> id -> lookup k (update id f l) = lookup k l.
Proof.
  intros Hk. induction l as [|[k0 e] l IH]; simpl; [reflexivity|].
  destruct (k0 =? id) eqn:E; simpl.
  - apply Z.eqb_eq in E. subst k0.
    destruct (id =? k) eqn:E2; [apply Z.eqb_eq in E2; congruence | reflexivity].
  - destruct (k0 =? k); auto.
Qed.

Lemma update_keys id f l : map fst (update id f l) = map fst l.
Proof.
  induction l as [|[k e] l IH]; simpl; [reflexivity|].
  destruct (k =? id); simpl; congruence.
Qed.

Lemma update_Forall2 (R : entity -> entity -> Prop) id f l :
  (forall e, R e e) ->
  (forall e, lookup id l = Some e -> R e (f e)) ->
  Forall2 (fun ke ke' => fst ke' = fst ke /\ R (snd ke) (snd ke'))
          l (update id f l).
Proof.
  intros Hrefl. induction l as [|[k e] l IH]; simpl; intros Hf.
  - constructor.
  - destruct (k =? id) eqn:E.
    + constructor; [simpl; auto|].
      clear - Hrefl. induction l; constructor; auto.
    + constructor; [simpl; auto | auto].
Qed.

(** The entity the dispatcher found at [(x, y)] is the one its identifier
    names: updating it by identifier updates what the cell shows. *)
Lemma find_update_owner x y self e f l :
  find (at_cell x y) l = Some (self, e) ->
  lookup self l = Some e ->
  e_position (f e) = e_position e ->
  find (at_cell x y) (update self f l) = Some (self, f e)
  /\ lookup self (update self f l) = Some (f e).
Proof.
  intros Hfind Hlook Hpos. split.
  2:{ rewrite lookup_update_same, Hlook. reflexivity. }
  assert (Hat : at_cell x y (self, e) = true)
    by (apply find_some in Hfind; tauto).
  revert Hfind Hlook.
  induction l as [|[k e0] l IH]; simpl; [discriminate|].
  intros Hfind Hlook.
  destruct (k =? self) eqn:Ek.
  - injection Hlook as ->. apply Z.eqb_eq in Ek. subst k.
    simpl. unfold at_cell in *. simpl in *. rewrite Hpos, Hat. reflexivity.
  - destruct (at_cell x y (k, e0)) eqn:Ec.
    + injection Hfind as -> ->. rewrite Z.eqb_refl in Ek. discriminate.
    + simpl. rewrite Ec. auto.
Qed.

(** ** The frame of a notification cascade *)

Lemma comp_frame_refl c : comp_frame c c.
Proof. unfold comp_frame; tauto. Qed.

Lemma comp_frame_trans a b c :
  comp_frame a b -> comp_frame b c -> comp_frame a c.
Proof.
  unfold comp_frame. intros H1 H2.
  destruct H1 as (A1 & A2 & A3 & A4 & A5 & A6 & A7 & A8 & A9 & A10).
  destruct H2 as (B1 & B2 & B3 & B4 & B5 & B6 & B7 & B8 & B9 & B10).
  repeat split; try congruence.
  intros Hc. rewrite B10 by congruence. auto.
Qed.

Lemma bs_frame_refl b : bs_frame b b.
Proof. unfold bs_frame; tauto. Qed.

Lemma bs_frame_trans a b c : bs_frame a b -> bs_frame b c -> bs_frame a c.
Proof. unfold bs_frame. intuition congruence. Qed.

Lemma ent_frame_refl e : ent_frame e e.
Proof.
  unfold ent_frame, opt_frame. repeat split; try apply bs_frame_refl.
  destruct (e_redstone e); auto using comp_frame_refl.
Qed.

Lemma ent_frame_trans a b c : ent_frame a b -> ent_frame b c -> ent_frame a c.
Proof.
  unfold ent_frame, opt_frame. intros (P1 & B1 & C1) (P2 & B2 & C2).
  split; [congruence|]. split; [eauto using bs_frame_trans|].
  destruct (e_redstone a), (e_redstone b), (e_redstone c);
    try tauto; eauto using comp_frame_trans.
Qed.

Lemma table_frame_refl l : table_frame l l.
Proof.
  induction l; constructor; auto using ent_frame_refl.
Qed.

Lemma table_frame_trans a b c :
  table_frame a b -> table_frame b c -> table_frame a c.
Proof.
  unfold table_frame. intros H. revert c.
  induction H as [|x y l l' [Hk He] _ IH]; intros c Hc; inversion Hc; subst.
  - constructor.
  - match goal with H : _ /\ _ |- _ => destruct H as [Hk' He'] end.
    constructor; [split; [congruence | eauto using ent_frame_trans] | auto].
Qed.

Lemma notify_frame_refl s : notify_frame s s.
Proof.
  unfold notify_frame. repeat split; auto using table_frame_refl.
  exists []. rewrite app_nil_r. reflexivity.
Qed.

Lemma notify_frame_trans a b c :
  notify_frame a b -> notify_frame b c -> notify_frame a c.
Proof.
  unfold notify_frame.
  intros (W1 & H1 & N1 & T1 & [ad1 Q1] & E1) (W2 & H2 & N2 & T2 & [ad2 Q2] & E2).
  repeat split; try congruence; eauto using table_frame_trans.
  exists (ad1 ++ ad2). rewrite Q2, Q1, app_assoc. reflexivity.
Qed.

Lemma setThis_frame s self f :
  (forall c, getRedstone s self = Some c -> comp_frame c (f c)) ->
  notify_frame s (setThis s self f).
Proof.
  intros Hf. unfold notify_frame, setThis; simpl.
  repeat split; auto.
  - exists []. rewrite app_nil_r. reflexivity.
  - apply update_Forall2; [apply ent_frame_refl|].
    intros e He. unfold ent_frame, with_redstone, opt_frame; simpl.
    repeat split; try apply bs_frame_refl.
    destruct (e_redstone e) as [c|] eqn:Ec; simpl; auto.
    apply Hf. unfold getRedstone. rewrite He. exact Ec.
Qed.

Lemma updateBlockState_frame s x y changes :
  (forall b, bs_frame b (changes b)) ->
  notify_frame s (updateBlockState s x y changes).
Proof.
  intros Hc. unfold updateBlockState.
  destruct (getBlockEntity s x y) as [[id e]|]; [|apply notify_frame_refl].
  unfold notify_frame; simpl. repeat split; auto.
  - exists []. rewrite app_nil_r. reflexivity.
  - apply update_Forall2; [apply ent_frame_refl|].
    intros e0 _. unfold ent_frame, with_blockState, opt_frame; simpl.
    split; [reflexivity|]. split; [apply Hc|].
    destruct (e_redstone e0); auto using comp_frame_refl.
Qed.

Lemma schedule_frame s x y d : notify_frame s (scheduleBlockUpdate s x y d).
Proof.
  unfold notify_frame, scheduleBlockUpdate; simpl.
  repeat split; eauto using table_frame_refl.
Qed.

Lemma set_locked_frame v c : comp_frame c (set_locked v c).
Proof. unfold comp_frame; simpl; tauto. Qed.

Lemma set_bs_powerLevel_frame v b : bs_frame b (set_bs_powerLevel v b).
Proof. unfold bs_frame; simpl; tauto. Qed.

Lemma getThis_Done s self c :
  getThis s self = Done c -> getRedstone s self = Some c.
Proof.
  unfold getThis. destruct (getRedstone s self); intros H;
    [injection H as ->; reflexivity | discriminate].
Qed.

(** Split a hypothesis [H : ... = Done _] along the control flow of the
    code it comes from. *)
Ltac flow H :=
  repeat (first
    [ match type of H with
      | Done _ = Done _ => injection H as H
      | Fail _ = Done _ => discriminate H
      | bind _ _ = Done _ => bind_inv H
      | (if ?c then _ else _) = Done _ =>
          let E := fresh "Hcond" in destruct c eqn:E
      | (match ?m with Some _ => _ | None => _ end) = Done _ =>
          let E := fresh "Hcase" in destruct m as [?|] eqn:E
      | (let '(_, _) := ?p in _) = Done _ => destruct p
      | (match ?p with (_, _) => _ end) = Done _ => destruct p
      end ]).

Lemma notifyNeighborsWith_frame upd s x y s' :
  (forall s id nx ny x y s', upd s id nx ny x y = Done s' -> notify_frame s s') ->
  notifyNeighborsWith upd s x y = Done s' -> notify_frame s s'.
Proof.
  intros Hupd. unfold notifyNeighborsWith.
  apply foldM_preserves;
    [apply notify_frame_refl | apply notify_frame_trans |].
  intros a d a' H. flow H; subst; eauto using notify_frame_refl.
Qed.

Lemma onNeighborUpdate_frame fuel :
  forall s self x y nx ny s',
    onNeighborUpdate fuel s self x y nx ny = Done s' -> notify_frame s s'.
Proof.
  induction fuel as [|fuel IH]; simpl; intros s self x y nx ny s' H;
    [discriminate|].
  bind_inv H. apply getThis_Done in Hstep. rename a into this.
  destruct (cls this) eqn:Hcls; flow H; subst;
    try apply notify_frame_refl; try apply schedule_frame.
  - (* wire: the level changes, then the neighbours are told *)
    eapply notify_frame_trans;
      [|eapply notifyNeighborsWith_frame; [apply IH | eassumption]].
    eapply notify_frame_trans;
      [|apply updateBlockState_frame, set_bs_powerLevel_frame].
    apply setThis_frame. intros c Hc.
    assert (c = this) by congruence. subst c.
    unfold comp_frame; simpl. repeat split; auto. congruence.
  - apply setThis_frame; auto using set_locked_frame.
  - eapply notify_frame_trans; [|apply schedule_frame].
    apply setThis_frame; auto using set_locked_frame.
  - eapply notify_frame_trans; [|apply schedule_frame].
    apply setThis_frame; auto using set_locked_frame.
  - apply setThis_frame; auto using set_locked_frame.
Qed.

Lemma notifyNeighbors_frame fuel s x y s' :
  notifyNeighbors fuel s x y = Done s' -> notify_frame s s'.
Proof.
  apply notifyNeighborsWith_frame. apply onNeighborUpdate_frame.
Qed.

(** *** Fuel

    Fuel only bounds the depth of the cascade: when a call returns, it
    returns the same state with any larger amount. *)

Lemma foldM_mono {A B : Type} (f1 f2 : A -> B -> outcome A) (l : list B) :
  (forall a b r, f1 a b = Done r -> f2 a b = Done r) ->
  forall a r, foldM f1 l a = Done r -> foldM f2 l a = Done r.
Proof.
  intros Hf. induction l as [|b l IH]; simpl; intros a r H; [exact H|].
  bind_inv H. rewrite (Hf _ _ _ Hstep). simpl. auto.
Qed.

Lemma notifyNeighborsWith_mono upd1 upd2 :
  (forall s id nx ny x y r,
     upd1 s id nx ny x y = Done r -> upd2 s id nx ny x y = Done r) ->
  forall s x y r,
    notifyNeighborsWith upd1 s x y = Done r ->
    notifyNeighborsWith upd2 s x y = Done r.
Proof.
  intros Hupd s x y r. unfold notifyNeighborsWith. apply foldM_mono.
  intros a d r' H.
  destruct (getBlockEntity a _ _) as [[id n]|]; [|exact H].
  destruct (e_redstone n); [|exact H]. auto.
Qed.

Lemma onNeighborUpdate_fuel_S fuel :
  forall s self x y nx ny r,
    onNeighborUpdate fuel s self x y nx ny = Done r ->
    onNeighborUpdate (S fuel) s self x y nx ny = Done r.
Proof.
  induction fuel as [|fuel IH]; intros s self x y nx ny r H;
    [discriminate|].
  remember (S fuel) as fuel1 eqn:Ef. simpl. rewrite Ef in H. simpl in H.
  destruct (getThis s self) as [this|]; [|discriminate]. simpl in *.
  destruct (cls this); try exact H.
  destruct (dustMaxPower s x y) as [maxPower|]; [|discriminate]. simpl in *.
  destruct (negb (powerLevel this =? maxPower)); [|exact H].
  revert H. apply notifyNeighborsWith_mono. subst fuel1. exact IH.
Qed.

Lemma onNeighborUpdate_fuel_le fuel fuel' s self x y nx ny r :
  (fuel <= fuel')%nat ->
  onNeighborUpdate fuel s self x y nx ny = Done r ->
  onNeighborUpdate fuel' s self x y nx ny = Done r.
Proof.
  induction 1 as [|fuel' _ IH]; intros H; [exact H|].
  apply onNeighborUpdate_fuel_S. auto.
Qed.

Lemma notifyNeighbors_fuel_le fuel fuel' s x y r :
  (fuel <= fuel')%nat ->
  notifyNeighbors fuel s x y = Done r ->
  notifyNeighbors fuel' s x y = Done r.
Proof.
  intros Hle. unfold notifyNeighbors. apply notifyNeighborsWith_mono.
  intros. eapply onNeighborUpdate_fuel_le; eassumption.
Qed.

(** *** Reading a state through the frame *)

Lemma table_frame_find x y l l' :
  table_frame l l' ->
  match find (at_cell x y) l, find (at_cell x y) l' with
  | Some (k, e), Some (k', e') => k' = k /\ ent_frame e e'
  | None, None => True
  | _, _ => False
  end.
Proof.
  induction 1 as [|[k e] [k' e'] l l' [Hk He] _ IH]; simpl; auto.
  simpl in Hk, He. subst k'.
  assert (Hc : at_cell x y (k, e') = at_cell x y (k, e)).
  { unfold at_cell; simpl. destruct He as [Hp _]. rewrite Hp. reflexivity. }
  rewrite Hc. destruct (at_cell x y (k, e)); auto.
Qed.

Lemma table_frame_lookup id l l' :
  table_frame l l' ->
  match lookup id l, lookup id l' with
  | Some e, Some e' => ent_frame e e'
  | None, None => True
  | _, _ => False
  end.
Proof.
  induction 1 as [|[k e] [k' e'] l l' [Hk He] _ IH]; simpl; auto.
  simpl in Hk, He. subst k'. destruct (k =? id); auto.
Qed.

Lemma table_frame_keys l l' : table_frame l l' -> map fst l' = map fst l.
Proof.
  induction 1 as [|ke ke' l l' [Hk _] _ IH]; simpl; congruence.
Qed.

Lemma find_lookup_unique (p : Z * entity -> bool) l k e :
  NoDup (map fst l) -> find p l = Some (k, e) -> lookup k l = Some e.
Proof.
  induction l as [|[k0 e0] l IH]; simpl; intros Hnd H; [discriminate|].
  inversion Hnd as [|? ? Hnin Hnd']; subst.
  destruct (p (k0, e0)).
  - injection H as -> ->. rewrite Z.eqb_refl. reflexivity.
  - destruct (k0 =? k) eqn:E; [|auto].
    apply Z.eqb_eq in E. subst k0. exfalso. apply Hnin.
    apply find_some in H. destruct H as [Hin _].
    apply (in_map fst) in Hin. exact Hin.
Qed.

Lemma frame_getRedstone s s' self c :
  notify_frame s s' -> getRedstone s self = Some c ->
  exists c', getRedstone s' self = Some c' /\ comp_frame c c'.
Proof.
  intros (_ & _ & _ & _ & _ & Ht) Hc. unfold getRedstone in *.
  pose proof (table_frame_lookup self _ _ Ht) as Hl.
  destruct (lookup self (entities s)) as [e|]; [|discriminate].
  destruct (lookup self (entities s')) as [e'|]; [|contradiction].
  destruct Hl as (_ & _ & Hr). unfold opt_frame in Hr. rewrite Hc in Hr.
  destruct (e_redstone e') as [c'|]; [eauto | contradiction].
Qed.

(** ** Power queries are total

    Every caller of [getPowerOutput] passes the cell where it has just found
    the component, so the rotation it reads is there. *)

Lemma getPowerOutput_found s c x y d id e :
  getBlockEntity s x y = Some (id, e) ->
  getPowerOutput s c x y d
  = Done (powerOutputOf c (bs_rotation (e_blockState e)) d).
Proof.
  intros H. unfold getPowerOutput, powerOutputOf, rotationAt. rewrite H.
  destruct (cls c); simpl; try reflexivity;
    match goal with |- context [if ?b then _ else _] => destruct b end;
    reflexivity.
Qed.

Lemma getPower_total s x y d : getPower s x y d = Done (powerInto s x y d).
Proof.
  unfold getPower, powerInto.
  destruct (getBlockEntity s _ _) as [[id e]|] eqn:H; [|reflexivity].
  destruct (e_redstone e); [|reflexivity].
  eapply getPowerOutput_found; eassumption.
Qed.

Lemma getMaxNeighborPower_total s x y :
  getMaxNeighborPower s x y
  = Done (Z.max (Z.max (Z.max (Z.max 0 (powerInto s x y NORTH))
                                     (powerInto s x y EAST))
                              (powerInto s x y SOUTH))
                (powerInto s x y WEST)).
Proof.
  unfold getMaxNeighborPower, cardinals. simpl.
  rewrite !getPower_total. reflexivity.
Qed.

(** ** Dispatch and commit *)

Lemma dispatched_this s self x y e this :
  dispatched s self x y e -> e_redstone e = Some this ->
  getThis s self = Done this.
Proof.
  intros [_ Hl] Hr. unfold getThis, getRedstone. rewrite Hl, Hr. reflexivity.
Qed.

Lemma dispatched_rotation s self x y e :
  dispatched s self x y e ->
  rotationAt s x y = Done (bs_rotation (e_blockState e)).
Proof. intros [Hf _]. unfold rotationAt. rewrite Hf. reflexivity. Qed.

Lemma commit_dispatched s self x y e f g :
  dispatched s self x y e ->
  dispatched (commit s self x y f g) self x y
             (with_blockState g (with_redstone f e)).
Proof.
  intros [Hf Hl]. unfold commit, updateBlockState, setThis, getBlockEntity in *.
  simpl.
  destruct (find_update_owner x y self e (with_redstone f) (entities s) Hf Hl
              eq_refl) as [Hf1 Hl1].
  rewrite Hf1. simpl.
  destruct (find_update_owner x y self _ (with_blockState g) _ Hf1 Hl1 eq_refl)
    as [Hf2 Hl2].
  split; assumption.
Qed.

Lemma commit_this s self x y e this f g :
  dispatched s self x y e -> e_redstone e = Some this ->
  getRedstone (commit s self x y f g) self = Some (f this).
Proof.
  intros Hd Hr. destruct (commit_dispatched s self x y e f g Hd) as [_ Hl].
  unfold getRedstone. rewrite Hl. simpl. rewrite Hr. reflexivity.
Qed.

(** After the commit the neighbours are notified; the cascade leaves a
    component that is not a wire as committed, up to the [locked] flag. *)
Lemma commit_notify_this fuel s self x y e this f g s' :
  dispatched s self x y e -> e_redstone e = Some this ->
  notifyNeighbors fuel (commit s self x y f g) x y = Done s' ->
  exists c', getRedstone s' self = Some c' /\ comp_frame (f this) c'.
Proof.
  intros Hd Hr Hn. apply notifyNeighbors_frame in Hn.
  eapply frame_getRedstone; [eassumption|].
  eapply commit_this; eassumption.
Qed.

(** ** The comparator *)

Lemma comparator_scene_reached :
  perform comparator_ops (newSimulator 64 48) = Done comparator_scene.
Proof. vm_compute. reflexivity. Qed.

(** C9.  On a scheduled tick of a comparator, with [rearPower] the power
    entering from the rear and [sidePower] the larger of the two side
    inputs, the new output is [rearPower] in compare mode when
    [rearPower >= sidePower] and 0 otherwise, and
    [max 0 (rearPower - sidePower)] in subtract mode; equal rear and side
    inputs in compare mode give the rear value.  The comparator commits the
    value and notifies its neighbours when it differs from the current
    output, does nothing otherwise, and the output it holds when the call
    returns is that value. *)
Theorem comparator_scheduled_output (fuel : nat) (s : simulator)
    (self x y : Z) (e : entity) (this : component) :
  dispatched s self x y e ->
  e_redstone e = Some this ->
  cls this = ComparatorComponent ->
  let rotation := bs_rotation (e_blockState e) in
  let rearPower := powerInto s x y (Z.rem (rotation + 2) 4) in
  let leftPower := powerInto s x y (Z.rem (rotation + 3) 4) in
  let rightPower := powerInto s x y (Z.rem (rotation + 1) 4) in
  let sidePower := Z.max leftPower rightPower in
  getPower s x y (Z.rem (rotation + 2) 4) = Done rearPower
  /\ getPower s x y (Z.rem (rotation + 3) 4) = Done leftPower
  /\ getPower s x y (Z.rem (rotation + 1) 4) = Done rightPower
  /\ exists newPower,
      (mode this = compare -> rearPower >= sidePower -> newPower = rearPower)
      /\ (mode this = compare -> rearPower < sidePower -> newPower = 0)
      /\ (mode this = subtract -> newPower = Z.max 0 (rearPower - sidePower))
      /\ (mode this = compare -> rearPower = sidePower -> newPower = rearPower)
      /\ onScheduledTick fuel s self x y
         = (if outputPower this =? newPower then Done s
            else notifyNeighbors fuel
                   (commit s self x y
                      (fun c => set_powerLevel newPower
                                  (set_outputPower newPower c))
                      (fun b => set_bs_powerLevel newPower
                                  (set_bs_type
                                     (if newPower >? 0
                                      then "minecraft:comparator_on"
                                      else "minecraft:comparator") b)))
                   x y)
      /\ (forall s', onScheduledTick fuel s self x y = Done s' ->
            exists c', getRedstone s' self = Some c'
                       /\ outputPower c' = newPower).
Proof.
  intros Hd Hr Hcls rotation rearPower leftPower rightPower sidePower.
  repeat (split; [apply getPower_total|]).
  exists (comparatorNewPower (mode this) rearPower sidePower).
  assert (Hrun : onScheduledTick fuel s self x y
          = (if outputPower this
                =? comparatorNewPower (mode this) rearPower sidePower
             then Done s
             else notifyNeighbors fuel
                    (commit s self x y
                       (fun c => set_powerLevel
                                   (comparatorNewPower (mode this) rearPower
                                      sidePower)
                                   (set_outputPower
                                      (comparatorNewPower (mode this)
                                         rearPower sidePower) c))
                       (fun b => set_bs_powerLevel
                                   (comparatorNewPower (mode this) rearPower
                                      sidePower)
                                   (set_bs_type
                                      (if comparatorNewPower (mode this)
                                            rearPower sidePower >? 0
                                       then "minecraft:comparator_on"
                                       else "minecraft:comparator") b)))
                    x y)).
  { unfold onScheduledTick.
    rewrite (dispatched_this _ _ _ _ _ _ Hd Hr). simpl. rewrite Hcls.
    rewrite (dispatched_rotation _ _ _ _ _ Hd). simpl.
    rewrite !getPower_total. simpl.
    fold rotation rearPower leftPower rightPower sidePower.
    destruct (outputPower this =? _); reflexivity. }
  repeat split.
  - intros Hm Hge. rewrite Hm. simpl.
    destruct (rearPower >=? sidePower) eqn:E; [reflexivity|].
    rewrite Z.geb_leb in E. apply Z.leb_gt in E. lia.
  - intros Hm Hlt. rewrite Hm. simpl.
    destruct (rearPower >=? sidePower) eqn:E; [|reflexivity].
    rewrite Z.geb_leb in E. apply Z.leb_le in E. lia.
  - intros Hm. rewrite Hm. reflexivity.
  - intros Hm Heq. rewrite Hm. simpl.
    destruct (rearPower >=? sidePower) eqn:E; [reflexivity|].
    rewrite Z.geb_leb in E. apply Z.leb_gt in E. lia.
  - exact Hrun.
  - intros s' Hs'. rewrite Hrun in Hs'.
    destruct (outputPower this =? _) eqn:E.
    + injection Hs' as <-. exists this. split.
      * apply getThis_Done. eapply dispatched_this; eassumption.
      * apply Z.eqb_eq in E. exact E.
    + destruct (commit_notify_this _ _ _ _ _ _ _ _ _ _ Hd Hr Hs')
        as (c' & Hc' & Hfr).
      exists c'. split; [exact Hc'|].
      destruct Hfr as (_ & _ & _ & _ & Ho & _). rewrite Ho. reflexivity.
Qed.

Lemma comparator_scheduled_output_witness :
  exists s' c',
    onScheduledTick fuel50 comparator_scene 7 5 5 = Done s'
    /\ getRedstone s' 7 = Some c' /\ outputPower c' = 15.
Proof.
  destruct (comparator_scheduled_output fuel50 comparator_scene 7 5 5
              (entity_of comparator_scene 7) (this_of comparator_scene 7))
    as (_ & _ & _ & newPower & Hge & _ & _ & _ & _ & Hout).
  - split; reflexivity.
  - reflexivity.
  - reflexivity.
  - assert (Hs' : onScheduledTick fuel50 comparator_scene 7 5 5
                  = Done (state_of
                            (onScheduledTick fuel50 comparator_scene 7 5 5)))
      by (vm_compute; reflexivity).
    destruct (Hout _ Hs') as (c' & Hc' & Ho).
    exists (state_of (onScheduledTick fuel50 comparator_scene 7 5 5)), c'.
    split; [exact Hs'|]. split; [exact Hc'|]. rewrite Ho. apply Hge.
    + reflexivity.
    + vm_compute. discriminate.
Defined.

(** ** The torch *)

Lemma torch_scene_reached :
  perform torch_ops (newSimulator 64 48) = Done torch_scene.
Proof. vm_compute. reflexivity. Qed.

Lemma torch_block_scene_reached :
  perform (torch_ops ++ [place "minecraft:redstone_block" 5 6])
          (newSimulator 64 48) = Done torch_block_scene.
Proof. vm_compute. reflexivity. Qed.

Lemma torchAttachedDir_opposite r :
  0 <= r <= 3 -> torchAttachedDir r = opposite r.
Proof.
  intros Hr. assert (r = 0 \/ r = 1 \/ r = 2 \/ r = 3) as [->|[->|[->| ->]]]
    by lia; reflexivity.
Qed.

(** C4, as the code has it.  The block a torch with rotation [r] is attached
    to lies in the direction opposite to the one [r] indexes (0 to the
    south, 1 to the west, 2 to the north, 3 to the east).  On its scheduled
    check the torch ends off exactly when [getPower] from that direction is
    positive; its output is 0 toward that direction and its level toward
    every other one. *)
Theorem torch_attached_opposite : torch_contract opposite.
Proof.
  intros fuel s self x y e this Hd Hr Hcls Hrot attachedDir.
  pose proof (torchAttachedDir_opposite _ Hrot) as Hatt.
  fold attachedDir in Hatt.
  split; [apply getPower_total|]. split; [|split; [|split]].
  - assert (Hthis : getRedstone s self = Some this)
      by (apply getThis_Done; eapply dispatched_this; eassumption).
    unfold onScheduledTick.
    rewrite (dispatched_this _ _ _ _ _ _ Hd Hr). simpl. rewrite Hcls.
    rewrite (dispatched_rotation _ _ _ _ _ Hd). simpl.
    rewrite getPower_total, Hatt. simpl.
    destruct (powerInto s x y attachedDir >? 0) eqn:Ein;
      destruct (powerLevel this =? 0) eqn:Eoff; simpl.
    + exists s, this. split; [exact Hthis|]. split; [|left; reflexivity].
      apply Z.eqb_eq in Eoff. apply Z.gtb_lt in Ein. lia.
    + eexists. exists (set_powerLevel 0 this).
      split; [eapply commit_this; eassumption|].
      split; [|right; reflexivity].
      simpl. apply Z.gtb_lt in Ein. lia.
    + eexists. exists (set_powerLevel 15 this).
      split; [eapply commit_this; eassumption|].
      split; [|right; reflexivity].
      simpl. rewrite Z.gtb_ltb in Ein. apply Z.ltb_ge in Ein. lia.
    + exists s, this. split; [exact Hthis|]. split; [|left; reflexivity].
      apply Z.eqb_neq in Eoff.
      rewrite Z.gtb_ltb in Ein. apply Z.ltb_ge in Ein. lia.
  - intros s' Hs'. unfold onScheduledTick in Hs'.
    rewrite (dispatched_this _ _ _ _ _ _ Hd Hr) in Hs'. simpl in Hs'.
    rewrite Hcls in Hs'.
    rewrite (dispatched_rotation _ _ _ _ _ Hd) in Hs'. simpl in Hs'.
    rewrite getPower_total, Hatt in Hs'. simpl in Hs'.
    destruct (powerInto s x y attachedDir >? 0) eqn:Ein;
      destruct (powerLevel this =? 0) eqn:Eoff; simpl in Hs'.
    + injection Hs' as <-. exists this. split.
      * apply getThis_Done. eapply dispatched_this; eassumption.
      * apply Z.eqb_eq in Eoff. apply Z.gtb_lt in Ein. lia.
    + destruct (commit_notify_this _ _ _ _ _ _ _ _ _ _ Hd Hr Hs')
        as (c' & Hc' & Hfr).
      exists c'. split; [exact Hc'|].
      destruct Hfr as (Hk & _ & _ & _ & _ & _ & _ & _ & _ & Hp).
      simpl in Hk, Hp. rewrite Hp by congruence.
      apply Z.gtb_lt in Ein. lia.
    + destruct (commit_notify_this _ _ _ _ _ _ _ _ _ _ Hd Hr Hs')
        as (c' & Hc' & Hfr).
      exists c'. split; [exact Hc'|].
      destruct Hfr as (Hk & _ & _ & _ & _ & _ & _ & _ & _ & Hp).
      simpl in Hk, Hp. rewrite Hp by congruence.
      rewrite Z.gtb_ltb in Ein. apply Z.ltb_ge in Ein. lia.
    + injection Hs' as <-. exists this. split.
      * apply getThis_Done. eapply dispatched_this; eassumption.
      * apply Z.eqb_neq in Eoff.
        rewrite Z.gtb_ltb in Ein. apply Z.ltb_ge in Ein. lia.
  - destruct Hd as [Hf _].
    rewrite (getPowerOutput_found _ _ _ _ _ _ _ Hf).
    unfold powerOutputOf. rewrite Hcls, Hatt, Z.eqb_refl. reflexivity.
  - intros d Hne. destruct Hd as [Hf _].
    rewrite (getPowerOutput_found _ _ _ _ _ _ _ Hf).
    unfold powerOutputOf. rewrite Hcls, Hatt.
    destruct (d =? attachedDir) eqn:E; [|reflexivity].
    apply Z.eqb_eq in E. contradiction.
Qed.

Lemma torch_attached_opposite_witness :
  exists s' c',
    onScheduledTick fuel50 torch_block_scene 1 5 5 = Done s'
    /\ getRedstone s' 1 = Some c' /\ powerLevel c' = 0
    /\ getPowerOutput torch_block_scene (this_of torch_block_scene 1) 5 5 SOUTH
       = Done 0
    /\ getPowerOutput torch_block_scene (this_of torch_block_scene 1) 5 5 NORTH
       = Done 15.
Proof.
  destruct (torch_attached_opposite fuel50 torch_block_scene 1 5 5
              (entity_of torch_block_scene 1) (this_of torch_block_scene 1))
    as (_ & _ & Hoff & Hto & Hother).
  - split; reflexivity.
  - reflexivity.
  - reflexivity.
  - vm_compute. split; discriminate.
  - assert (Hs' : onScheduledTick fuel50 torch_block_scene 1 5 5
                  = Done (state_of
                            (onScheduledTick fuel50 torch_block_scene 1 5 5)))
      by (vm_compute; reflexivity).
    destruct (Hoff _ Hs') as (c' & Hc' & Hiff).
    exists (state_of (onScheduledTick fuel50 torch_block_scene 1 5 5)), c'.
    split; [exact Hs'|]. split; [exact Hc'|].
    split; [apply Hiff; vm_compute; reflexivity|].
    split; [exact Hto|].
    apply (Hother NORTH). vm_compute. discriminate.
Defined.

(** C4 as stated takes the attachment direction to be the direction the
    rotation indexes.  The lit torch of [torch_scene] has rotation 0; toward
    the north it emits 15. *)
Lemma torch_attached_is_rotation_fails : ~ torch_contract (fun r => r).
Proof.
  intros H.
  destruct (H fuel50 torch_scene 1 5 5
              (entity_of torch_scene 1) (this_of torch_scene 1))
    as (_ & _ & _ & Hto & _).
  - split; reflexivity.
  - reflexivity.
  - reflexivity.
  - vm_compute. split; discriminate.
  - vm_compute in Hto. discriminate Hto.
Qed.

(** ** The repeater *)

Lemma getRepeaterInput_total s x y d :
  getRepeaterInput s x y d = Done (lockInput s x y d).
Proof.
  unfold getRepeaterInput, lockInput.
  destruct (getBlockEntity s _ _) as [[id e]|] eqn:H; [|reflexivity].
  destruct (e_redstone e) as [c|]; [|reflexivity].
  destruct (cls c); try reflexivity;
    eapply getPowerOutput_found; eassumption.
Qed.

Lemma find_update_cases x y id f l :
  (forall e, e_position (f e) = e_position e) ->
  match find (at_cell x y) l with
  | None => find (at_cell x y) (update id f l) = None
  | Some (k, e) =>
      find (at_cell x y) (update id f l) = Some (k, e)
      \/ find (at_cell x y) (update id f l) = Some (k, f e)
  end.
Proof.
  intros Hpos. induction l as [|[k e] l IH]; simpl; [reflexivity|].
  assert (Hc : at_cell x y (k, f e) = at_cell x y (k, e))
    by (unfold at_cell; simpl; rewrite Hpos; reflexivity).
  destruct (k =? id) eqn:Ek; simpl.
  - rewrite Hc. destruct (at_cell x y (k, e)); auto.
    destruct (find (at_cell x y) l) as [[k' e']|]; auto.
  - destruct (at_cell x y (k, e)); auto.
Qed.

(** The [locked] flag of a repeater is not part of any power output. *)
Lemma powerInto_set_locked s self v x y d :
  powerInto (setThis s self (set_locked v)) x y d = powerInto s x y d.
Proof.
  unfold powerInto, getBlockEntity, setThis. simpl.
  pose proof (find_update_cases (x + vx (toVector d)) (y + vy (toVector d))
                self (with_redstone (set_locked v)) (entities s)
                (fun _ => eq_refl)) as H.
  destruct (find _ (entities s)) as [[k e]|]; [|rewrite H; reflexivity].
  destruct H as [-> | ->]; [reflexivity|]. simpl.
  destruct (e_redstone e); reflexivity.
Qed.

Lemma stale_menu_scene_reached :
  perform stale_menu_ops (newSimulator 64 48) = Done stale_menu_scene.
Proof. vm_compute. reflexivity. Qed.

Lemma repeater_scene_reached :
  perform repeater_ops (newSimulator 64 48) = Done repeater_scene.
Proof. vm_compute. reflexivity. Qed.

Lemma repeater_on_scene_reached :
  perform (removelast repeater_ops) (newSimulator 64 48)
  = Done repeater_on_scene.
Proof. vm_compute. reflexivity. Qed.

(** C6, as the code has it.  A neighbour update of a repeater that finds no
    lock compares the desired state (rear power positive) with [powered] and,
    when they differ, appends one entry due [delay * 2] game ticks later,
    none when they agree.  The scheduled callback of an unlocked repeater
    recomputes the desired state from the rear input and always commits it:
    it assigns [powered] and [powerLevel], patches the visual tag and
    notifies the neighbours, also when the desired state equals the current
    one; a locked repeater's callback does nothing. *)
Theorem repeater_update_and_tick (fuel : nat) (s : simulator)
    (self x y : Z) (e : entity) (this : component) :
  dispatched s self x y e ->
  e_redstone e = Some this ->
  cls this = RepeaterComponent ->
  let rotation := bs_rotation (e_blockState e) in
  let want := powerInto s x y (Z.rem (rotation + 2) 4) >? 0 in
  getPower s x y (Z.rem (rotation + 2) 4)
  = Done (powerInto s x y (Z.rem (rotation + 2) 4))
  /\ (forall nx ny,
        lockInput s x y (Z.rem (rotation + 3) 4) <= 0 ->
        lockInput s x y (Z.rem (rotation + 1) 4) <= 0 ->
        exists s',
          onNeighborUpdate (S fuel) s self x y nx ny = Done s'
          /\ tickCount s' = tickCount s
          /\ nextTickList s'
             = nextTickList s ++
               (if Bool.eqb want (powered this) then []
                else [{| tick_x := x; tick_y := y;
                         tick_time := tickCount s + delay this * 2;
                         tick_priority := 0 |}]))
  /\ (locked this = false ->
      onScheduledTick fuel s self x y
      = notifyNeighbors fuel
          (commit s self x y
             (fun c => set_powerLevel (if want then 15 else 0)
                         (set_powered want c))
             (fun b => set_bs_powered want
                         (set_bs_type (if want then "minecraft:repeater_on"
                                       else "minecraft:repeater") b)))
          x y
      /\ forall s', onScheduledTick fuel s self x y = Done s' ->
           exists c', getRedstone s' self = Some c'
                      /\ powered c' = want
                      /\ powerLevel c' = (if want then 15 else 0))
  /\ (locked this = true -> onScheduledTick fuel s self x y = Done s).
Proof.
  intros Hd Hr Hcls rotation want.
  split; [apply getPower_total|]. split; [|split].
  - intros nx ny Hl Hrt. simpl.
    rewrite (dispatched_this _ _ _ _ _ _ Hd Hr). simpl. rewrite Hcls.
    rewrite (dispatched_rotation _ _ _ _ _ Hd). simpl.
    rewrite !getRepeaterInput_total. simpl.
    fold rotation.
    replace (lockInput s x y (Z.rem (rotation + 3) 4) >? 0) with false
      by (symmetry; rewrite Z.gtb_ltb; apply Z.ltb_ge; lia).
    replace (lockInput s x y (Z.rem (rotation + 1) 4) >? 0) with false
      by (symmetry; rewrite Z.gtb_ltb; apply Z.ltb_ge; lia).
    simpl. rewrite getPower_total, powerInto_set_locked. simpl.
    fold want.
    destruct want, (powered this); simpl; eexists;
      (split; [reflexivity|]); simpl; rewrite ?app_nil_r; auto.
  - intros Hlk.
    assert (Hrun : onScheduledTick fuel s self x y
      = notifyNeighbors fuel
          (commit s self x y
             (fun c => set_powerLevel (if want then 15 else 0)
                         (set_powered want c))
             (fun b => set_bs_powered want
                         (set_bs_type (if want then "minecraft:repeater_on"
                                       else "minecraft:repeater") b)))
          x y).
    { unfold onScheduledTick.
      rewrite (dispatched_this _ _ _ _ _ _ Hd Hr). simpl.
      rewrite Hcls, Hlk.
      rewrite (dispatched_rotation _ _ _ _ _ Hd). simpl.
      rewrite getPower_total. reflexivity. }
    split; [exact Hrun|].
    intros s' Hs'. rewrite Hrun in Hs'.
    destruct (commit_notify_this _ _ _ _ _ _ _ _ _ _ Hd Hr Hs')
      as (c' & Hc' & Hfr).
    exists c'. split; [exact Hc'|].
    destruct Hfr as (Hk & _ & Hp & _ & _ & _ & _ & _ & _ & Hpl).
    simpl in Hk, Hp, Hpl. split; [exact Hp|]. apply Hpl. congruence.
  - intros Hlk. unfold onScheduledTick.
    rewrite (dispatched_this _ _ _ _ _ _ Hd Hr). simpl.
    rewrite Hcls, Hlk. reflexivity.
Qed.

Lemma repeater_update_and_tick_witness :
  (exists s'',
     onNeighborUpdate (S fuel50) repeater_on_scene 1 5 5 5 6 = Done s''
     /\ nextTickList s''
        = nextTickList repeater_on_scene ++
          [{| tick_x := 5; tick_y := 5;
              tick_time := tickCount repeater_on_scene + 2;
              tick_priority := 0 |}])
  /\ exists s' c',
       onScheduledTick fuel50 repeater_on_scene 1 5 5 = Done s'
       /\ getRedstone s' 1 = Some c'
       /\ powered c' = true /\ powerLevel c' = 15.
Proof.
  destruct (repeater_update_and_tick fuel50 repeater_on_scene 1 5 5
              (entity_of repeater_on_scene 1) (this_of repeater_on_scene 1))
    as (_ & Hupd & Htick & _).
  - split; reflexivity.
  - reflexivity.
  - reflexivity.
  - split.
    + destruct (Hupd 5 6) as (s'' & Hs'' & _ & Hq).
      * vm_compute. discriminate.
      * vm_compute. discriminate.
      * exists s''. split; [exact Hs''|]. exact Hq.
    + destruct (Htick eq_refl) as (_ & Hfin).
      assert (Hs' : onScheduledTick fuel50 repeater_on_scene 1 5 5
                    = Done (state_of
                              (onScheduledTick fuel50 repeater_on_scene 1 5 5)))
        by (vm_compute; reflexivity).
      destruct (Hfin _ Hs') as (c' & Hc' & Hp & Hpl).
      exists (state_of (onScheduledTick fuel50 repeater_on_scene 1 5 5)), c'.
      split; [exact Hs'|]. split; [exact Hc'|]. split; [exact Hp | exact Hpl].
Defined.

(** In [repeater_scene] the lever is off again and the repeater is still
    unpowered, so desired and current state agree; the callback nevertheless
    notifies the comparator in front, which schedules an update. *)
Lemma repeater_tick_guarded_fails : ~ repeater_tick_guarded.
Proof.
  intros H.
  specialize (H fuel50 repeater_scene 1 5 5
                (entity_of repeater_scene 1) (this_of repeater_scene 1)
                (state_of (onScheduledTick fuel50 repeater_scene 1 5 5))).
  assert (Heq : state_of (onScheduledTick fuel50 repeater_scene 1 5 5)
                = repeater_scene).
  { apply H.
    - split; reflexivity.
    - reflexivity.
    - reflexivity.
    - reflexivity.
    - reflexivity.
    - vm_compute. reflexivity. }
  apply (f_equal (fun s => List.length (nextTickList s))) in Heq.
  vm_compute in Heq. discriminate Heq.
Qed.

(** ** The wire *)

Lemma foldM_pure {A B : Type} (f : A -> B -> outcome A) (g : A -> B -> A)
    (l : list B) :
  (forall a b, f a b = Done (g a b)) ->
  forall a, foldM f l a = Done (fold_left g l a).
Proof.
  intros Hfg. induction l as [|b l IH]; simpl; intros a; [reflexivity|].
  rewrite Hfg. simpl. apply IH.
Qed.

Lemma dustStep_contribution s x y m dir :
  0 <= m -> dustStep s x y m dir = Z.max m (wireContribution s x y dir).
Proof.
  intros Hm. unfold dustStep, wireContribution. simpl.
  destruct (getBlockEntity s _ _) as [[id n]|]; [|lia].
  destruct (e_redstone n) as [c|]; [|lia].
  destruct (cls c); lia.
Qed.

Lemma dustMaxPower_wireLevel s x y :
  dustMaxPower s x y = Done (wireLevel s x y).
Proof.
  unfold dustMaxPower.
  rewrite (foldM_pure _ (dustStep s x y)).
  - f_equal. unfold wireLevel, cardinals. simpl.
    rewrite (dustStep_contribution s x y 0 NORTH) by lia.
    rewrite (dustStep_contribution s x y _ EAST) by lia.
    rewrite (dustStep_contribution s x y _ SOUTH) by lia.
    rewrite (dustStep_contribution s x y _ WEST) by lia.
    lia.
  - intros m dir. unfold dustStep. simpl.
    destruct (getBlockEntity s _ _) as [[id n]|] eqn:Hn; [|reflexivity].
    destruct (e_redstone n) as [c|]; [|reflexivity].
    rewrite (getPowerOutput_found _ _ _ _ _ _ _ Hn).
    destruct (cls c); reflexivity.
Qed.

Lemma wireLevel_nonneg s x y : 0 <= wireLevel s x y.
Proof. unfold wireLevel, cardinals. simpl. lia. Qed.

Lemma wire_cut_scene_reached :
  erase 0 5 comparator_scene = notifyNeighbors fuel50 wire_cut_scene 0 5.
Proof. reflexivity. Qed.

Lemma commit_keys s self x y f g :
  map fst (entities (commit s self x y f g)) = map fst (entities s)
  /\ tickCount (commit s self x y f g) = tickCount s
  /\ nextTickList (commit s self x y f g) = nextTickList s.
Proof.
  unfold commit, updateBlockState.
  destruct (getBlockEntity (setThis s self f) x y) as [[id e]|];
    unfold setThis; simpl; rewrite ?update_keys; auto.
Qed.

(** A torch or a comparator among the neighbours told schedules itself: a
    torch 2 game ticks ahead, a comparator at the current clock value. *)
Lemma notified_neighbor_schedules fuel x y dir id (nb : entity) c dl s0 :
  (cls c = RedstoneTorchComponent /\ dl = 2
   \/ cls c = ComparatorComponent /\ dl = 0) ->
  getBlockEntity s0 (x + vx (toVector dir)) (y + vy (toVector dir))
  = Some (id, nb) ->
  e_redstone nb = Some c ->
  NoDup (map fst (entities s0)) ->
  forall l sa s',
    In dir l ->
    notify_frame s0 sa ->
    foldM (fun s dir =>
             let vec := toVector dir in
             let nx := x + vx vec in
             let ny := y + vy vec in
             match getBlockEntity s nx ny with
             | None => Done s
             | Some (id, neighbor) =>
                 match e_redstone neighbor with
                 | None => Done s
                 | Some _ => onNeighborUpdate fuel s id nx ny x y
                 end
             end) l sa = Done s' ->
    exists a1 a2,
      nextTickList s'
      = nextTickList sa ++ a1
        ++ [{| tick_x := x + vx (toVector dir);
               tick_y := y + vy (toVector dir);
               tick_time := tickCount s0 + dl; tick_priority := 0 |}]
        ++ a2.
Proof.
  intros Hkind Hfound Hred Hnd.
  induction l as [|d0 l IH]; intros sa s' Hin Hfr H; [destruct Hin|].
  cbn [foldM] in H. bind_inv H. rename a into sb.
  assert (Hstepfr : notify_frame sa sb).
  { cbv zeta in Hstep.
    destruct (getBlockEntity sa _ _) as [[id0 n0]|];
      [|injection Hstep as <-; apply notify_frame_refl].
    destruct (e_redstone n0);
      [|injection Hstep as <-; apply notify_frame_refl].
    eapply onNeighborUpdate_frame. exact Hstep. }
  destruct (Z.eq_dec d0 dir) as [-> | Hne].
  - (* this is the neighbour's turn *)
    assert (Hrest : notify_frame sb s').
    { revert H. apply foldM_preserves;
        [apply notify_frame_refl | apply notify_frame_trans |].
      intros a d a' Ha. cbv zeta in Ha.
      destruct (getBlockEntity a _ _) as [[id0 n0]|];
        [|injection Ha as <-; apply notify_frame_refl].
      destruct (e_redstone n0);
        [|injection Ha as <-; apply notify_frame_refl].
      eapply onNeighborUpdate_frame. exact Ha. }
    destruct Hrest as (_ & _ & _ & _ & (a2 & Hq2) & _).
    destruct Hfr as (_ & _ & _ & Htc & _ & Htab).
    pose proof (table_frame_find (x + vx (toVector dir))
                  (y + vy (toVector dir)) _ _ Htab) as Hf.
    unfold getBlockEntity in Hfound, Hstep. rewrite Hfound in Hf.
    cbv zeta in Hstep.
    destruct (find _ (entities sa)) as [[id' nb']|] eqn:Hfa;
      [|contradiction].
    destruct Hf as (-> & _ & _ & Hc). unfold opt_frame in Hc.
    rewrite Hred in Hc.
    destruct (e_redstone nb') as [c'|] eqn:Hr'; [|contradiction].
    destruct Hc as (Hcls & _).
    assert (Hnda : NoDup (map fst (entities sa)))
      by (rewrite (table_frame_keys _ _ Htab); exact Hnd).
    pose proof (find_lookup_unique _ _ _ _ Hnda Hfa) as Hlk.
    destruct fuel as [|fuel]; [discriminate Hstep|].
    simpl in Hstep. unfold getThis, getRedstone in Hstep.
    rewrite Hlk, Hr' in Hstep. simpl in Hstep. rewrite Hcls in Hstep.
    exists [], a2. rewrite Hq2.
    destruct Hkind as [[Hk ->] | [Hk ->]]; rewrite Hk in Hstep;
      injection Hstep as <-; simpl; rewrite Htc, <- app_assoc; reflexivity.
  - destruct Hin as [Heq | Hin]; [contradiction|].
    destruct (IH sb s' Hin (notify_frame_trans _ _ _ Hfr Hstepfr) H)
      as (a1 & a2 & Hq).
    destruct Hstepfr as (_ & _ & _ & _ & (a0 & Hq0) & _).
    exists (a0 ++ a1), a2. rewrite Hq, Hq0, <- !app_assoc. reflexivity.
Qed.

(** C8.  On a neighbour update a wire computes the maximum over its four
    cardinal neighbours of: a wire neighbour's level less one (floored at
    0), another component's output toward the wire.  When that level is its
    current one the state is left as it is and nobody is notified.  When it
    differs the wire assigns it, writes it to the visual state and notifies
    its neighbours: the [onNeighborUpdate] of each neighbour that has a
    component is run, north, east, south, west, each in the state the
    previous one left and with the wire's cell as the source; a torch or a
    comparator among them has scheduled itself when the call returns.  A
    wire's power output is its level in every direction. *)
Theorem wire_neighbor_update (fuel : nat) (s : simulator)
    (self x y nx ny : Z) (e : entity) (this : component) :
  dispatched s self x y e ->
  e_redstone e = Some this ->
  cls this = RedstoneDustComponent ->
  let newLevel := wireLevel s x y in
  let s1 := commit s self x y (set_powerLevel newLevel)
              (set_bs_powerLevel newLevel) in
  let told := fun (sa : simulator) (dir : Z) =>
                let cx := x + vx (toVector dir) in
                let cy := y + vy (toVector dir) in
                match getBlockEntity sa cx cy with
                | None => Done sa
                | Some (id, neighbor) =>
                    match e_redstone neighbor with
                    | None => Done sa
                    | Some _ => onNeighborUpdate fuel sa id cx cy x y
                    end
                end in
  dustMaxPower s x y = Done newLevel
  /\ (newLevel = powerLevel this ->
      onNeighborUpdate (S fuel) s self x y nx ny = Done s)
  /\ (newLevel <> powerLevel this ->
      onNeighborUpdate (S fuel) s self x y nx ny
      = notifyNeighbors fuel s1 x y
      /\ notifyNeighbors fuel s1 x y
         = (sN <- told s1 NORTH ;;
            sE <- told sN EAST ;;
            sS <- told sE SOUTH ;;
            sW <- told sS WEST ;;
            Done sW)
      /\ (exists e1 c1,
            dispatched s1 self x y e1
            /\ e_redstone e1 = Some c1
            /\ powerLevel c1 = newLevel
            /\ bs_powerLevel (e_blockState e1) = newLevel)
      /\ forall s' dir id neighbor c dl,
           NoDup (map fst (entities s)) ->
           onNeighborUpdate (S fuel) s self x y nx ny = Done s' ->
           In dir cardinals ->
           getBlockEntity s1 (x + vx (toVector dir)) (y + vy (toVector dir))
           = Some (id, neighbor) ->
           e_redstone neighbor = Some c ->
           cls c = RedstoneTorchComponent /\ dl = 2
           \/ cls c = ComparatorComponent /\ dl = 0 ->
           exists a1 a2,
             nextTickList s'
             = nextTickList s ++ a1
               ++ [{| tick_x := x + vx (toVector dir);
                      tick_y := y + vy (toVector dir);
                      tick_time := tickCount s + dl; tick_priority := 0 |}]
               ++ a2)
  /\ (forall d, getPowerOutput s this x y d = Done (powerLevel this)).
Proof.
  intros Hd Hr Hcls newLevel s1 told.
  split; [apply dustMaxPower_wireLevel|].
  assert (Hrun : onNeighborUpdate (S fuel) s self x y nx ny
                 = if negb (powerLevel this =? newLevel)
                   then notifyNeighbors fuel s1 x y else Done s).
  { simpl. rewrite (dispatched_this _ _ _ _ _ _ Hd Hr). simpl.
    rewrite Hcls, dustMaxPower_wireLevel. reflexivity. }
  split; [|split].
  - intros Heq. rewrite Hrun, <- Heq, Z.eqb_refl. reflexivity.
  - intros Hne. rewrite Hrun.
    replace (powerLevel this =? newLevel) with false
      by (symmetry; apply Z.eqb_neq; congruence).
    split; [reflexivity|]. split; [reflexivity|]. split.
    + exists (with_blockState (set_bs_powerLevel newLevel)
                (with_redstone (set_powerLevel newLevel) e)),
             (set_powerLevel newLevel this).
      split; [apply commit_dispatched; exact Hd|].
      simpl. rewrite Hr. auto.
    + intros s' dir id neighbor c dl Hnd Hret Hin Hfound Hred Hkind.
      simpl in Hret.
      destruct (commit_keys s self x y (set_powerLevel newLevel)
                  (set_bs_powerLevel newLevel)) as (Hk & Htc & Hq).
      fold s1 in Hk, Htc, Hq.
      destruct (notified_neighbor_schedules fuel x y dir id neighbor c dl s1
                  Hkind Hfound Hred ltac:(rewrite Hk; exact Hnd)
                  cardinals s1 s' Hin (notify_frame_refl s1) Hret)
        as (a1 & a2 & Ha).
      exists a1, a2. rewrite Ha, Hq, Htc. reflexivity.
  - intros d. unfold getPowerOutput. rewrite Hcls. reflexivity.
Qed.

(** On [wire_cut_scene] the wire at (1,5), told that the power block west
    of it is gone, drops from 15 and tells the wire east of it, which
    changes in turn; a wire of [comparator_scene] whose level is right is
    left alone; and the last wire of the run, cut off, tells the comparator
    east of it, which schedules itself. *)
Lemma wire_neighbor_update_witness :
  wireLevel wire_cut_scene 1 5 = 13
  /\ (exists s',
        onNeighborUpdate (S fuel50) wire_cut_scene 3 1 5 0 5 = Done s'
        /\ option_map powerLevel (getRedstone wire_cut_scene 4) = Some 14
        /\ option_map powerLevel (getRedstone s' 4) = Some 0)
  /\ onNeighborUpdate (S fuel50) comparator_scene 4 2 5 1 5
     = Done comparator_scene
  /\ exists s' a1 a2,
       onNeighborUpdate (S fuel50) (removeEntity 5 comparator_scene) 6 4 5 3 5
       = Done s'
       /\ nextTickList s'
          = nextTickList (removeEntity 5 comparator_scene) ++ a1
            ++ [{| tick_x := 5; tick_y := 5; tick_time := 0;
                   tick_priority := 0 |}] ++ a2.
Proof.
  split; [reflexivity|].
  destruct (wire_neighbor_update fuel50 wire_cut_scene 3 1 5 0 5
              (entity_of wire_cut_scene 3) (this_of wire_cut_scene 3))
    as (_ & _ & Hne & _).
  - split; reflexivity.
  - reflexivity.
  - reflexivity.
  - destruct (wire_neighbor_update fuel50 comparator_scene 4 2 5 1 5
                (entity_of comparator_scene 4) (this_of comparator_scene 4))
      as (_ & Heq & _ & _).
    + split; reflexivity.
    + reflexivity.
    + reflexivity.
    + destruct (wire_neighbor_update fuel50 (removeEntity 5 comparator_scene)
                  6 4 5 3 5
                  (entity_of (removeEntity 5 comparator_scene) 6)
                  (this_of (removeEntity 5 comparator_scene) 6))
        as (_ & _ & Hend & _).
      * split; reflexivity.
      * reflexivity.
      * reflexivity.
      * split; [|split].
        -- destruct Hne as (Hrun & _); [vm_compute; discriminate|].
           exists (state_of
                     (onNeighborUpdate (S fuel50) wire_cut_scene 3 1 5 0 5)).
           split; [|split; reflexivity].
           rewrite Hrun. vm_compute. reflexivity.
        -- apply Heq. reflexivity.
        -- destruct Hend as (_ & _ & _ & Hsched); [vm_compute; discriminate|].
           assert (Hs' : onNeighborUpdate (S fuel50)
                           (removeEntity 5 comparator_scene) 6 4 5 3 5
                         = Done (state_of
                                   (onNeighborUpdate (S fuel50)
                                      (removeEntity 5 comparator_scene)
                                      6 4 5 3 5)))
             by (vm_compute; reflexivity).
           destruct (Hsched (state_of
                               (onNeighborUpdate (S fuel50)
                                  (removeEntity 5 comparator_scene)
                                  6 4 5 3 5)) EAST 7
                       (entity_of (removeEntity 5 comparator_scene) 7)
                       (this_of (removeEntity 5 comparator_scene) 7) 0)
             as (a1 & a2 & Ha).
           ++ vm_compute.
              repeat (apply NoDup_cons;
                      [simpl; intros Hc;
                       repeat (destruct Hc as [Hc | Hc]; [discriminate Hc|]);
                       exact Hc|]).
              apply NoDup_nil.
           ++ exact Hs'.
           ++ right. left. reflexivity.
           ++ vm_compute. reflexivity.
           ++ reflexivity.
           ++ right. split; reflexivity.
           ++ eexists. exists a1, a2. split; [exact Hs'|]. exact Ha.
Defined.

(** ** The scheduler *)

Lemma queue_grows_refl s : queue_grows s s.
Proof. split; [reflexivity|]. exists []. rewrite app_nil_r. reflexivity. Qed.

Lemma queue_grows_trans a b c :
  queue_grows a b -> queue_grows b c -> queue_grows a c.
Proof.
  intros (T1 & ad1 & Q1) (T2 & ad2 & Q2). split; [congruence|].
  exists (ad1 ++ ad2). rewrite Q2, Q1, app_assoc. reflexivity.
Qed.

Lemma frame_queue_grows s s' : notify_frame s s' -> queue_grows s s'.
Proof. intros (_ & _ & _ & T & Q & _). split; assumption. Qed.

Lemma qg_entities a s l :
  queue_grows a s -> queue_grows a (with_entities l s).
Proof. intros H. exact H. Qed.

Lemma qg_setThis a s self f :
  queue_grows a s -> queue_grows a (setThis s self f).
Proof. intros H. exact H. Qed.

Lemma qg_removeEntity a s id :
  queue_grows a s -> queue_grows a (removeEntity id s).
Proof. intros H. exact H. Qed.

Lemma qg_updateBlockState a s x y g :
  queue_grows a s -> queue_grows a (updateBlockState s x y g).
Proof.
  intros H. unfold updateBlockState.
  destruct (getBlockEntity s x y) as [[id e]|]; exact H.
Qed.

Lemma qg_commit a s self x y f g :
  queue_grows a s -> queue_grows a (commit s self x y f g).
Proof. intros H. unfold commit. apply qg_updateBlockState, qg_setThis, H. Qed.

Lemma qg_schedule a s x y d :
  queue_grows a s -> queue_grows a (scheduleBlockUpdate s x y d).
Proof.
  intros H. eapply queue_grows_trans; [exact H|].
  apply frame_queue_grows, schedule_frame.
Qed.

Lemma qg_notify a fuel s x y s' :
  notifyNeighbors fuel s x y = Done s' ->
  queue_grows a s -> queue_grows a s'.
Proof.
  intros Hn H. eapply queue_grows_trans; [exact H|].
  apply frame_queue_grows. eapply notifyNeighbors_frame; eassumption.
Qed.

Lemma qg_onNeighborUpdate a fuel s self x y nx ny s' :
  onNeighborUpdate fuel s self x y nx ny = Done s' ->
  queue_grows a s -> queue_grows a s'.
Proof.
  intros Hn H. eapply queue_grows_trans; [exact H|].
  apply frame_queue_grows. eapply onNeighborUpdate_frame; eassumption.
Qed.

(** Peel the operations a state was built with, back to the state it was
    built from. *)
Ltac qg :=
  repeat first
    [ assumption
    | apply queue_grows_refl
    | apply qg_schedule
    | apply qg_commit
    | apply qg_updateBlockState
    | apply qg_setThis
    | apply qg_removeEntity
    | apply qg_entities
    | (eapply qg_notify; [eassumption|])
    | (eapply qg_onNeighborUpdate; [eassumption|]) ].

Lemma qg_createEntity a fuel s type x y s' id :
  createEntity fuel s type x y = Done (s', id) ->
  queue_grows a s -> queue_grows a s'.
Proof.
  intros Hc H. unfold createEntity in Hc.
  set (s1 := {| width := width s; height := height s;
                entities := _; nextId := _; tickCount := tickCount s;
                nextTickList := nextTickList s |}) in Hc.
  assert (H1 : queue_grows a s1) by exact H.
  simpl in Hc. destruct (componentRegistry type) as [k|]; simpl in Hc.
  - bind_inv Hc. injection Hc as <- _.
    unfold onPlaced in Hstep. bind_inv Hstep.
    destruct (cls a1); flow Hstep; subst; qg.
  - injection Hc as <- _. exact H1.
Qed.

Lemma qg_doPush a fuel s x y d s' :
  doPush fuel s x y d = Done s' -> queue_grows a s -> queue_grows a s'.
Proof.
  intros Hp H. unfold doPush in Hp. bind_inv Hp.
  eapply queue_grows_trans; [exact H|].
  revert Hp. apply foldM_preserves;
    [apply queue_grows_refl | apply queue_grows_trans |].
  intros s0 [id [ix iy]] s0' Hs. flow Hs. subst. qg.
Qed.

Lemma qg_doPull a fuel s x y d s' :
  doPull fuel s x y d = Done s' -> queue_grows a s -> queue_grows a s'.
Proof.
  intros Hp H. unfold doPull in Hp.
  destruct (getBlockEntity s _ _) as [[id b]|]; flow Hp; subst; qg.
Qed.

Lemma qg_extend a fuel s self x y s' :
  extend fuel s self x y = Done s' -> queue_grows a s -> queue_grows a s'.
Proof.
  intros He H. unfold extend in He. bind_inv He.
  destruct (extended a0); [injection He as <-; exact H|].
  destruct (getBlockEntity s x y) as [[entityId ent]|]; [|discriminate].
  bind_inv He. destruct a1; [|injection He as <-; exact H].
  bind_inv He. bind_inv He. destruct a2 as [s5 newHead].
  eapply qg_notify; [eassumption|]. qg.
  eapply qg_createEntity; [eassumption|].
  destruct (getBlockEntity _ _ _) as [[existing ?]|]; qg;
    eapply qg_doPush; eassumption.
Qed.

Lemma qg_retract a fuel s self x y s' :
  retract fuel s self x y = Done s' -> queue_grows a s -> queue_grows a s'.
Proof.
  intros He H. unfold retract in He. bind_inv He.
  destruct (negb (extended a0)); [injection He as <-; exact H|].
  bind_inv He. bind_inv He.
  assert (H3 : queue_grows a a2).
  { destruct (negb (headId a0 =? -1)).
    - eapply qg_notify; [eassumption|]. qg.
    - injection Hstep1 as <-. qg. }
  destruct (isSticky a0).
  - eapply qg_doPull; eassumption.
  - injection He as <-. exact H3.
Qed.

Lemma qg_onScheduledTick a fuel s self x y s' :
  onScheduledTick fuel s self x y = Done s' ->
  queue_grows a s -> queue_grows a s'.
Proof.
  intros Ht H. unfold onScheduledTick in Ht. bind_inv Ht.
  destruct (cls a0); flow Ht; subst; qg;
    solve [ eapply qg_extend; eassumption
          | eapply qg_retract; eassumption ].
Qed.

Lemma qg_dispatchTick fuel s t s' :
  dispatchTick fuel s t = Done s' -> queue_grows s s'.
Proof.
  unfold dispatchTick. intros H.
  destruct (getBlockEntity s _ _) as [[id ent]|];
    [|injection H as <-; apply queue_grows_refl].
  destruct (e_redstone ent);
    [|injection H as <-; apply queue_grows_refl].
  eapply qg_onScheduledTick; [eassumption | apply queue_grows_refl].
Qed.

(** The editor never takes an entry out of the queue. *)
Lemma qg_placeOrInteract a fuel s kind x y s' :
  placeOrInteract fuel s kind x y = Done s' ->
  queue_grows a s -> queue_grows a s'.
Proof.
  intros H Hq. unfold placeOrInteract in H.
  destruct (_ || _); [injection H as <-; exact Hq|].
  destruct (getBlockEntity s x y) as [[id ex]|].
  - destruct (String.eqb kind "erase"); [qg|].
    destruct (e_redstone ex); [|injection H as <-; exact Hq].
    destruct (String.eqb _ "minecraft:lever").
    { unfold toggle in H. bind_inv H. destruct (cls a0); try discriminate.
      qg. }
    destruct (String.eqb _ "minecraft:button");
      [|injection H as <-; exact Hq].
    unfold press in H. bind_inv H. destruct (cls a0); try discriminate.
    flow H; subst; qg.
  - destruct (String.eqb kind "erase"); [injection H as <-; exact Hq|].
    bind_inv H. destruct a0 as [s1 id1]. injection H as <-.
    eapply qg_createEntity; eassumption.
Qed.

Lemma qg_rotateComponent a fuel s x y s' :
  rotateComponent fuel s x y = Done s' ->
  queue_grows a s -> queue_grows a s'.
Proof.
  intros H Hq. unfold rotateComponent in H.
  destruct (getBlockEntity s x y) as [[id ent]|];
    [|injection H as <-; exact Hq].
  destruct (_ && _); [injection H as <-; exact Hq|].
  bind_inv H. eapply qg_notify; [eassumption|].
  destruct (e_redstone ent); [|injection Hstep as <-]; qg.
Qed.

Lemma tick_queue fuel s s' :
  tick fuel s = Done s' ->
  tickCount s' = tickCount s + 1
  /\ exists added,
       nextTickList s'
       = laterTicks (tickCount s + 1) (nextTickList s) ++ added.
Proof.
  unfold tick, processScheduledTicks. simpl. intros H.
  apply (foldM_preserves queue_grows (dispatchTick fuel)
           queue_grows_refl queue_grows_trans (qg_dispatchTick fuel)) in H.
  exact H.
Qed.

Lemma foldM_app {A B : Type} (f : A -> B -> outcome A) (l1 l2 : list B) :
  forall a, foldM f (l1 ++ l2) a = (a1 <- foldM f l1 a ;; foldM f l2 a1).
Proof.
  induction l1 as [|b l1 IH]; simpl; intros a; [reflexivity|].
  destruct (f a b) as [a'|err]; simpl; [apply IH | reflexivity].
Qed.

Lemma orphan_scene_reached :
  perform (button_ops ++ repeat (tick fuel50) 19) (newSimulator 64 48)
  = Done orphan_scene.
Proof. vm_compute. reflexivity. Qed.

Lemma pressed_scene_reached :
  perform (removelast button_ops) (newSimulator 64 48) = Done pressed_scene.
Proof. vm_compute. reflexivity. Qed.

Lemma replaced_scene_reached :
  perform (button_ops ++ [place "minecraft:observer" 5 5]
             ++ repeat (tick fuel50) 19) (newSimulator 64 48)
  = Done replaced_scene.
Proof. vm_compute. reflexivity. Qed.

Lemma dueTicks_In now l t :
  In t (dueTicks now l) <-> In t l /\ tick_time t <= now.
Proof. unfold dueTicks. rewrite filter_In, Z.leb_le. reflexivity. Qed.

Lemma laterTicks_In now l t :
  In t (laterTicks now l) <-> In t l /\ now < tick_time t.
Proof. unfold laterTicks. rewrite filter_In, Z.gtb_lt. reflexivity. Qed.

(** An entry that is not yet due stays where it is in the queue. *)
Lemma laterTicks_keeps now l1 t l2 :
  now < tick_time t ->
  laterTicks now (l1 ++ t :: l2)
  = laterTicks now l1 ++ t :: laterTicks now l2
  /\ dueTicks now (l1 ++ t :: l2) = dueTicks now l1 ++ dueTicks now l2.
Proof.
  intros Hlt. unfold laterTicks, dueTicks. rewrite !filter_app. simpl.
  replace (tick_time t >? now) with true by (symmetry; apply Z.gtb_lt; lia).
  replace (tick_time t <=? now) with false
    by (symmetry; apply Z.leb_gt; lia).
  auto.
Qed.

(** An entry that is due leaves the queue and takes its place among the due
    ones. *)
Lemma dueTicks_takes now l1 t l2 :
  tick_time t <= now ->
  dueTicks now (l1 ++ t :: l2) = dueTicks now l1 ++ t :: dueTicks now l2
  /\ laterTicks now (l1 ++ t :: l2) = laterTicks now l1 ++ laterTicks now l2.
Proof.
  intros Hle. unfold laterTicks, dueTicks. rewrite !filter_app. simpl.
  replace (tick_time t >? now) with false
    by (symmetry; rewrite Z.gtb_ltb; apply Z.ltb_ge; lia).
  replace (tick_time t <=? now) with true by (symmetry; apply Z.leb_le; lia).
  auto.
Qed.

(** Through ticks that come before its due time an entry stays queued. *)
Lemma ticks_keep_entry fuel t :
  forall (n : nat) s sn,
    In t (nextTickList s) ->
    tickCount s + Z.of_nat n < tick_time t ->
    perform (repeat (tick fuel) n) s = Done sn ->
    tickCount sn = tickCount s + Z.of_nat n /\ In t (nextTickList sn).
Proof.
  induction n as [|n IH]; intros s sn Hin Hlt H.
  - simpl in H. injection H as <-. split; [simpl; lia | exact Hin].
  - cbn [repeat perform] in H. bind_inv H. rename a into s1.
    destruct (tick_queue _ _ _ Hstep) as (Hc & added & Hq).
    destruct (IH s1 sn) as [Hcn Hinn].
    + rewrite Hq. apply in_or_app. left. apply laterTicks_In.
      split; [exact Hin | lia].
    + lia.
    + exact H.
    + split; [lia | exact Hinn].
Qed.

(** C7.  An entry enqueued with delay [d >= 0] at clock [t] goes to the end
    of the queue with due time [t + d], and the clock is not touched.  Any
    later [tick()] runs at a clock [now] strictly greater than [t].  While
    [now < t + d] the entry stays in the queue, at its place, and is not
    among the entries dispatched; so it is still queued after any [n < d]
    ticks, and a placement, click, erasure or rotation in between only
    appends to the queue.  At the first tick with [t + d <= now] it is taken out of the
    queue and the scheduled callback of the block then found at its cell is
    run: after the due entries that were queued before it, each dispatched
    in turn, and before those queued after it.  The list of due entries is
    fixed from the queue as it is when the call starts, and what the
    callbacks enqueue is appended to the entries left, so nothing enqueued
    during a call fires within it; an entry of delay 0 is due at the next
    tick. *)
Theorem scheduled_entry_fires_later (fuel : nat) (s : simulator)
    (x y d : Z) :
  0 <= d ->
  let entry := {| tick_x := x; tick_y := y; tick_time := tickCount s + d;
                  tick_priority := 0 |} in
  nextTickList (scheduleBlockUpdate s x y d) = nextTickList s ++ [entry]
  /\ tickCount (scheduleBlockUpdate s x y d) = tickCount s
  /\ (forall s2 l1 l2,
        tickCount s <= tickCount s2 ->
        nextTickList s2 = l1 ++ entry :: l2 ->
        let now := tickCount s2 + 1 in
        let started :=
          {| width := width s2; height := height s2;
             entities := entities s2; nextId := nextId s2;
             tickCount := now;
             nextTickList := laterTicks now (nextTickList s2) |} in
        tickCount s < now
        /\ tick fuel s2
           = foldM (dispatchTick fuel) (dueTicks now (nextTickList s2))
               started
        /\ (now < tickCount s + d ->
            dueTicks now (nextTickList s2)
            = dueTicks now l1 ++ dueTicks now l2
            /\ ~ In entry (dueTicks now (nextTickList s2))
            /\ forall s3,
                 tick fuel s2 = Done s3 ->
                 tickCount s3 = now
                 /\ exists added,
                      nextTickList s3
                      = (laterTicks now l1 ++ entry :: laterTicks now l2)
                        ++ added)
        /\ (tickCount s + d <= now ->
            dueTicks now (nextTickList s2)
            = dueTicks now l1 ++ entry :: dueTicks now l2
            /\ ~ In entry (laterTicks now (nextTickList s2))
            /\ tick fuel s2
               = (sa <- foldM (dispatchTick fuel) (dueTicks now l1)
                          started ;;
                  sb <- match getBlockEntity sa x y with
                        | Some (id, ent) =>
                            match e_redstone ent with
                            | Some _ => onScheduledTick fuel sa id x y
                            | None => Done sa
                            end
                        | None => Done sa
                        end ;;
                  foldM (dispatchTick fuel) (dueTicks now l2) sb)
            /\ forall s3,
                 tick fuel s2 = Done s3 ->
                 tickCount s3 = now
                 /\ exists added,
                      nextTickList s3
                      = (laterTicks now l1 ++ laterTicks now l2) ++ added))
  /\ (forall now l t,
        (In t (dueTicks now l) <-> In t l /\ tick_time t <= now)
        /\ (In t (laterTicks now l) <-> In t l /\ now < tick_time t))
  /\ (forall fuel' s2 s3,
        (exists kind x' y', placeOrInteract fuel' s2 kind x' y' = Done s3)
        \/ (exists x' y', rotateComponent fuel' s2 x' y' = Done s3) ->
        tickCount s3 = tickCount s2
        /\ exists added, nextTickList s3 = nextTickList s2 ++ added)
  /\ (forall (n : nat) sn,
        Z.of_nat n < d ->
        perform (repeat (tick fuel) n) (scheduleBlockUpdate s x y d)
        = Done sn ->
        tickCount sn = tickCount s + Z.of_nat n
        /\ exists l1 l2, nextTickList sn = l1 ++ entry :: l2)
  /\ (d = 0 ->
      In entry (dueTicks (tickCount s + 1)
                  (nextTickList (scheduleBlockUpdate s x y d)))).
Proof.
  intros Hd entry.
  split; [reflexivity|]. split; [reflexivity|].
  split; [|split; [|split; [|split]]].
  - intros s2 l1 l2 Hle Hq now started.
    split; [unfold now; lia|]. split; [reflexivity|]. split.
    + intros Hnot.
      destruct (laterTicks_keeps now l1 entry l2) as [Hlater Hdue];
        [simpl; lia|].
      rewrite Hq. split; [exact Hdue|]. split.
      * rewrite <- Hq. intros Hin. apply dueTicks_In in Hin.
        simpl in Hin. lia.
      * intros s3 Ht. destruct (tick_queue _ _ _ Ht) as (Hc & added & Ha).
        split; [exact Hc|]. exists added. fold now in Ha.
        rewrite Ha, Hq, Hlater. reflexivity.
    + intros Hdue_now.
      destruct (dueTicks_takes now l1 entry l2) as [Hdue Hlater];
        [simpl; lia|].
      split; [rewrite Hq; exact Hdue|]. split; [|split].
      * intros Hin. apply laterTicks_In in Hin. simpl in Hin. lia.
      * unfold tick, processScheduledTicks. simpl. fold now.
        rewrite Hq, Hdue, foldM_app. rewrite <- Hq. fold started.
        reflexivity.
      * intros s3 Ht. destruct (tick_queue _ _ _ Ht) as (Hc & added & Ha).
        split; [exact Hc|]. exists added. fold now in Ha.
        rewrite Ha, Hq, Hlater. reflexivity.
  - intros now l t. split; [apply dueTicks_In | apply laterTicks_In].
  - intros fuel' s2 s3 [(kind & x' & y' & H) | (x' & y' & H)].
    + exact (qg_placeOrInteract _ _ _ _ _ _ _ H (queue_grows_refl s2)).
    + exact (qg_rotateComponent _ _ _ _ _ _ H (queue_grows_refl s2)).
  - intros n sn Hn H.
    destruct (ticks_keep_entry fuel entry n (scheduleBlockUpdate s x y d) sn)
      as [Hc Hin]; [| |exact H|].
    + simpl. apply in_or_app. right. left. reflexivity.
    + simpl. lia.
    + split; [exact Hc|]. apply in_split in Hin. exact Hin.
  - intros ->. apply dueTicks_In. split.
    + simpl. apply in_or_app. right. left. reflexivity.
    + simpl. lia.
Qed.

(** The release of the pressed button of [pressed_scene], enqueued with
    delay 20 at clock 0: after 19 ticks it is still queued and the button is
    still on, and the twentieth tick runs the button's callback. *)
Lemma scheduled_entry_fires_later_witness :
  exists s20,
    perform (repeat (tick fuel50) 19) pressed_scene = Done waiting_scene
    /\ tickCount waiting_scene = 19
    /\ In {| tick_x := 5; tick_y := 5; tick_time := 20; tick_priority := 0 |}
          (nextTickList waiting_scene)
    /\ option_map powerLevel (getRedstone waiting_scene 1) = Some 15
    /\ tick fuel50 waiting_scene = Done s20
    /\ tick fuel50 waiting_scene
       = (sb <- onScheduledTick fuel50
                  {| width := 64; height := 48;
                     entities := entities waiting_scene;
                     nextId := nextId waiting_scene;
                     tickCount := 20; nextTickList := [] |} 1 5 5 ;;
          Done sb)
    /\ nextTickList s20 = []
    /\ option_map powerLevel (getRedstone s20 1) = Some 0.
Proof.
  assert (Hs0 : scheduleBlockUpdate (with_nextTickList [] pressed_scene)
                  5 5 20 = pressed_scene)
    by (vm_compute; reflexivity).
  assert (H19 : perform (repeat (tick fuel50) 19) pressed_scene
                = Done waiting_scene)
    by (vm_compute; reflexivity).
  assert (H20 : tick fuel50 waiting_scene
                = Done (state_of (tick fuel50 waiting_scene)))
    by (vm_compute; reflexivity).
  destruct (scheduled_entry_fires_later fuel50
              (with_nextTickList [] pressed_scene) 5 5 20)
    as (_ & _ & Htick & _ & _ & Hkeep & _).
  - lia.
  - rewrite Hs0 in Hkeep.
    destruct (Hkeep 19%nat waiting_scene) as [Hc _];
      [vm_compute; reflexivity | exact H19 |].
    destruct (Htick waiting_scene [] []) as (_ & _ & _ & Hfire).
    + vm_compute. discriminate.
    + vm_compute. reflexivity.
    + destruct Hfire as (_ & _ & Hrun & _); [vm_compute; discriminate|].
      exists (state_of (tick fuel50 waiting_scene)).
      split; [exact H19|]. split; [vm_compute; reflexivity|].
      split; [vm_compute; left; reflexivity|].
      split; [vm_compute; reflexivity|].
      split; [exact H20|].
      split; [|split; vm_compute; reflexivity].
      rewrite Hrun. vm_compute. reflexivity.
Defined.

(** ** Entries whose block is gone *)

(** C2, as the code has it.  An entry carries a cell and a due time, not a
    block.  When it is due and its cell is empty, or holds a block without a
    logic component, it is discarded and the state is left as it is; when
    the cell holds a block with a logic component, [onScheduledTick] goes to
    that block, whichever block was there at enqueue time.  A tick whose due
    entries all name cells that are empty or hold a block without a logic
    component only advances the clock and takes those entries out. *)
Theorem due_entry_goes_to_occupant (fuel : nat) (s : simulator)
    (t : scheduledTick) :
  (getBlockEntity s (tick_x t) (tick_y t) = None ->
   dispatchTick fuel s t = Done s)
  /\ (forall id ent,
        getBlockEntity s (tick_x t) (tick_y t) = Some (id, ent) ->
        e_redstone ent = None ->
        dispatchTick fuel s t = Done s)
  /\ (forall id ent c,
        getBlockEntity s (tick_x t) (tick_y t) = Some (id, ent) ->
        e_redstone ent = Some c ->
        dispatchTick fuel s t = onScheduledTick fuel s id (tick_x t) (tick_y t))
  /\ ((forall t', In t' (dueTicks (tickCount s + 1) (nextTickList s)) ->
         match getBlockEntity s (tick_x t') (tick_y t') with
         | None => True
         | Some (_, ent) => e_redstone ent = None
         end) ->
      tick fuel s
      = Done {| width := width s; height := height s;
                entities := entities s; nextId := nextId s;
                tickCount := tickCount s + 1;
                nextTickList :=
                  laterTicks (tickCount s + 1) (nextTickList s) |}).
Proof.
  unfold dispatchTick. repeat split.
  - intros ->. reflexivity.
  - intros id ent -> ->. reflexivity.
  - intros id ent c -> ->. reflexivity.
  - intros Hempty. unfold tick, processScheduledTicks. simpl.
    apply foldM_id. intros t' Hin. unfold dispatchTick.
    specialize (Hempty t' Hin). unfold getBlockEntity in *. simpl.
    destruct (find _ (entities s)) as [[id ent]|]; [|reflexivity].
    rewrite Hempty. reflexivity.
Qed.

Lemma due_entry_goes_to_occupant_witness :
  tickCount orphan_scene = 19
  /\ nextTickList orphan_scene
     = [{| tick_x := 5; tick_y := 5; tick_time := 20; tick_priority := 0 |}]
  /\ tick fuel50 orphan_scene
     = Done {| width := 64; height := 48; entities := []; nextId := 2;
               tickCount := 20; nextTickList := [] |}
  /\ dispatchTick fuel50 replaced_scene
       {| tick_x := 5; tick_y := 5; tick_time := 20; tick_priority := 0 |}
     = onScheduledTick fuel50 replaced_scene 2 5 5.
Proof.
  destruct (due_entry_goes_to_occupant fuel50 orphan_scene
              {| tick_x := 5; tick_y := 5; tick_time := 20;
                 tick_priority := 0 |})
    as (_ & _ & _ & Htick).
  destruct (due_entry_goes_to_occupant fuel50 replaced_scene
              {| tick_x := 5; tick_y := 5; tick_time := 20;
                 tick_priority := 0 |})
    as (_ & _ & Hocc & _).
  split; [reflexivity|]. split; [reflexivity|]. split.
  - rewrite Htick; [reflexivity|].
    intros t' Hin. vm_compute in Hin.
    destruct Hin as [<- | []]. exact I.
  - apply (Hocc 2 (entity_of replaced_scene 2) (this_of replaced_scene 2));
      reflexivity.
Defined.

(** The button (entity 1) enqueued its turn-off at (5,5); when the entry is
    due the cell holds the observer (entity 2), and the callback goes to the
    observer, which starts a pulse. *)
Lemma stale_entry_dropped_fails : ~ stale_entry_dropped.
Proof.
  intros H.
  specialize (H fuel50 pressed_scene replaced_scene 5 5 20 1 2
                (entity_of pressed_scene 1) (entity_of replaced_scene 2)).
  assert (Heq : dispatchTick fuel50 replaced_scene
                  {| tick_x := 5; tick_y := 5;
                     tick_time := tickCount pressed_scene + 20;
                     tick_priority := 0 |}
                = Done replaced_scene).
  { apply H; [reflexivity | reflexivity | discriminate]. }
  apply (f_equal (fun o => option_map powerLevel
                             (getRedstone (state_of o) 2))) in Heq.
  vm_compute in Heq. discriminate Heq.
Qed.

(** ** Kinds without a registered component *)

Lemma find_app {A : Type} (p : A -> bool) (l1 l2 : list A) :
  find p (l1 ++ l2)
  = match find p l1 with Some a => Some a | None => find p l2 end.
Proof.
  induction l1 as [|a l1 IH]; simpl; [reflexivity|].
  destruct (p a); auto.
Qed.

(** C10.  For a kind string that is not in the component registry -
    obsidian and bedrock are two such strings - [createEntity] still adds a
    record at [(x, y)] with the default block state (rotation 0, not
    powered, power level 0) and no logic component, and it returns without
    calling [onPlaced].  Seen from any neighbouring cell such a block gives
    power 0, and [canPush] toward it fails when its type string is obsidian
    or bedrock. *)
Theorem unregistered_kind_is_inert (fuel : nat) (s : simulator)
    (type : string) (x y : Z) :
  componentRegistry type = None ->
  getBlockEntity s x y = None ->
  let ent := {| e_position := {| px := x; py := y; pz := 0 |};
                e_redstone := None;
                e_blockState :=
                  {| bs_type := type; bs_rotation := 0; bs_powered := false;
                     bs_powerLevel := 0; bs_waterlogged := false;
                     bs_extended := false; bs_isSticky := false |} |} in
  let s' := {| width := width s; height := height s;
               entities := entities s ++ [(nextId s, ent)];
               nextId := nextId s + 1;
               tickCount := tickCount s;
               nextTickList := nextTickList s |} in
  createEntity fuel s type x y = Done (s', nextId s)
  /\ getBlockEntity s' x y = Some (nextId s, ent)
  /\ (forall tx ty dir,
        tx + vx (toVector dir) = x -> ty + vy (toVector dir) = y ->
        getPower s' tx ty dir = Done 0)
  /\ (type = "minecraft:obsidian" \/ type = "minecraft:bedrock" ->
      forall px0 py0 dir,
        px0 + vx (toVector dir) = x -> py0 + vy (toVector dir) = y ->
        canPush s' px0 py0 dir = Done false)
  /\ componentRegistry "minecraft:obsidian" = None
  /\ componentRegistry "minecraft:bedrock" = None.
Proof.
  intros Hreg Hfree ent s'.
  assert (Hfound : getBlockEntity s' x y = Some (nextId s, ent)).
  { unfold getBlockEntity in *. simpl. rewrite find_app, Hfree. simpl.
    unfold at_cell. simpl. rewrite !Z.eqb_refl. reflexivity. }
  split; [|split; [exact Hfound|split; [|split; [|split; reflexivity]]]].
  - unfold createEntity. simpl. rewrite Hreg. reflexivity.
  - intros tx ty dir Hx Hy. unfold getPower. rewrite Hx, Hy, Hfound.
    reflexivity.
  - intros Htype px0 py0 dir Hx Hy. unfold canPush. simpl.
    rewrite Hx, Hy, Hfound. simpl.
    destruct Htype as [-> | ->]; reflexivity.
Qed.

Lemma unregistered_kind_is_inert_witness :
  (exists s',
     createEntity fuel50 torch_scene "minecraft:obsidian" 5 4
     = Done (s', 2)
     /\ getPower s' 5 5 NORTH = Done 0
     /\ canPush s' 5 5 NORTH = Done false)
  /\ exists s', createEntity fuel50 torch_scene "minecraft:glass" 5 4
                = Done (s', 2)
                /\ getPower s' 5 3 SOUTH = Done 0.
Proof.
  split.
  - destruct (unregistered_kind_is_inert fuel50 torch_scene
                "minecraft:obsidian" 5 4 eq_refl eq_refl)
      as (Hc & _ & Hp & Hpush & _).
    eexists. split; [exact Hc|]. split.
    + apply Hp; reflexivity.
    + apply Hpush; [left|..]; reflexivity.
  - destruct (unregistered_kind_is_inert fuel50 torch_scene
                "minecraft:glass" 5 4 eq_refl eq_refl)
      as (Hc & _ & Hp & _).
    eexists. split; [exact Hc|]. apply Hp; reflexivity.
Defined.

(** ** Placement *)

Lemma frame_layout s s' : notify_frame s s' -> layout s' = layout s.
Proof.
  intros (_ & _ & _ & _ & _ & Ht). unfold layout.
  induction Ht as [|[k e] [k' e'] l l' [Hk (Hp & _)] _ IH]; simpl;
    [reflexivity|].
  simpl in Hk, Hp. rewrite Hk, Hp, IH. reflexivity.
Qed.

Lemma update_layout id f l :
  (forall e, e_position (f e) = e_position e) ->
  map (fun ke : Z * entity => (fst ke, e_position (snd ke))) (update id f l)
  = map (fun ke => (fst ke, e_position (snd ke))) l.
Proof.
  intros Hf. induction l as [|[k e] l IH]; simpl; [reflexivity|].
  destruct (k =? id); simpl; [rewrite Hf | rewrite IH]; reflexivity.
Qed.

Lemma commit_layout s self x y f g :
  layout (commit s self x y f g) = layout s
  /\ nextId (commit s self x y f g) = nextId s.
Proof.
  unfold commit, updateBlockState.
  destruct (getBlockEntity (setThis s self f) x y) as [[id e]|];
    unfold layout, setThis; simpl; rewrite ?update_layout; auto.
Qed.

(** C3, as the code has it.  The guard is in the editor: [placeOrInteract]
    outside the grid leaves the state as it is, and on an occupied cell with
    a placing tool it inserts no record and moves none (it interacts with
    the block that is there).  [createEntity] checks nothing: whenever it
    returns it has added one record, under a fresh identifier, at the cell
    it was given. *)
Theorem placement_is_guarded_by_editor (fuel : nat) (s : simulator)
    (kind : string) (x y : Z) :
  (x < 0 \/ width s <= x \/ y < 0 \/ height s <= y ->
   placeOrInteract fuel s kind x y = Done s)
  /\ (forall id e s',
        getBlockEntity s x y = Some (id, e) ->
        kind <> "erase" ->
        placeOrInteract fuel s kind x y = Done s' ->
        layout s' = layout s /\ nextId s' = nextId s)
  /\ (forall s' id,
        createEntity fuel s kind x y = Done (s', id) ->
        id = nextId s
        /\ nextId s' = nextId s + 1
        /\ layout s'
           = layout s ++ [(nextId s, {| px := x; py := y; pz := 0 |})]).
Proof.
  split; [|split].
  - intros Hout. unfold placeOrInteract.
    replace ((x <? 0) || (x >=? width s) || (y <? 0) || (y >=? height s))
      with true; [reflexivity|].
    symmetry. rewrite !orb_true_iff, !Z.ltb_lt, !Z.geb_leb, !Z.leb_le. tauto.
  - intros id e s' Hocc Hkind Hrun. unfold placeOrInteract in Hrun.
    destruct ((x <? 0) || (x >=? width s) || (y <? 0) || (y >=? height s));
      [injection Hrun as <-; auto|].
    rewrite Hocc in Hrun.
    replace (String.eqb kind "erase") with false in Hrun
      by (symmetry; apply String.eqb_neq; exact Hkind).
    destruct (e_redstone e); [|injection Hrun as <-; auto].
    destruct (String.eqb _ "minecraft:lever").
    { unfold toggle in Hrun. bind_inv Hrun.
      destruct (cls a); try discriminate.
      apply notifyNeighbors_frame in Hrun.
      pose proof (frame_layout _ _ Hrun) as Hl.
      destruct Hrun as (_ & _ & Hn & _).
      fold (commit s id x y
              (set_powerLevel (if powerLevel a >? 0 then 0 else 15))
              (set_bs_powered ((if powerLevel a >? 0 then 0 else 15) >? 0)))
        in Hl, Hn.
      destruct (commit_layout s id x y
                  (set_powerLevel (if powerLevel a >? 0 then 0 else 15))
                  (set_bs_powered
                     ((if powerLevel a >? 0 then 0 else 15) >? 0)))
        as [Hl' Hn'].
      split; congruence. }
    destruct (String.eqb _ "minecraft:button");
      [|injection Hrun as <-; auto].
    unfold press in Hrun. bind_inv Hrun.
    destruct (cls a); try discriminate.
    destruct (powerLevel a =? 0); [|injection Hrun as <-; auto].
    bind_inv Hrun. injection Hrun as <-.
    apply notifyNeighbors_frame in Hstep0.
    pose proof (frame_layout _ _ Hstep0) as Hl.
    destruct Hstep0 as (_ & _ & Hn & _).
    fold (commit s id x y (set_powerLevel 15) (set_bs_powered true))
      in Hl, Hn.
    destruct (commit_layout s id x y (set_powerLevel 15)
                (set_bs_powered true)) as [Hl' Hn'].
    unfold layout in *. simpl. split; congruence.
  - intros s' id Hc. unfold createEntity in Hc. simpl in Hc.
    set (s1 := {| width := width s; height := height s;
                  entities := _; nextId := nextId s + 1;
                  tickCount := tickCount s;
                  nextTickList := nextTickList s |}) in Hc.
    assert (H1 : layout s1
                 = layout s ++ [(nextId s, {| px := x; py := y; pz := 0 |})]).
    { unfold layout, s1. simpl. rewrite map_app. reflexivity. }
    destruct (componentRegistry kind) as [k|]; simpl in Hc.
    + bind_inv Hc. injection Hc as <- <-.
      split; [reflexivity|].
      unfold onPlaced in Hstep. bind_inv Hstep.
      assert (Hfr : notify_frame s1 a).
      { destruct (cls a0);
          try (eapply onNeighborUpdate_frame; eassumption).
        injection Hstep as <-. apply schedule_frame. }
      rewrite (frame_layout _ _ Hfr).
      destruct Hfr as (_ & _ & Hn & _). rewrite Hn. auto.
    + injection Hc as <- <-. auto.
Qed.

Lemma placement_is_guarded_by_editor_witness :
  placeOrInteract fuel50 repeater_on_scene "minecraft:stone" 64 5
  = Done repeater_on_scene
  /\ (exists s',
        placeOrInteract fuel50 repeater_on_scene "minecraft:stone" 5 6
        = Done s'
        /\ layout s' = layout repeater_on_scene
        /\ nextId s' = nextId repeater_on_scene)
  /\ exists s', createEntity fuel50 repeater_on_scene "minecraft:stone" 5 6
                = Done (s', 4)
                /\ layout s'
                   = layout repeater_on_scene
                     ++ [(4, {| px := 5; py := 6; pz := 0 |})].
Proof.
  destruct (placement_is_guarded_by_editor fuel50 repeater_on_scene
              "minecraft:stone" 64 5) as (Hout & _ & _).
  destruct (placement_is_guarded_by_editor fuel50 repeater_on_scene
              "minecraft:stone" 5 6) as (_ & Hocc & Hnew).
  split; [|split].
  - apply Hout. right. left. vm_compute. discriminate.
  - assert (Hs' : placeOrInteract fuel50 repeater_on_scene "minecraft:stone"
                    5 6
                  = Done (state_of
                            (placeOrInteract fuel50 repeater_on_scene
                               "minecraft:stone" 5 6)))
      by (vm_compute; reflexivity).
    eexists. split; [exact Hs'|].
    apply (Hocc 2 (entity_of repeater_on_scene 2)).
    + reflexivity.
    + discriminate.
    + exact Hs'.
  - assert (Hs' : createEntity fuel50 repeater_on_scene "minecraft:stone" 5 6
                  = Done (state_of
                            (s' <- createEntity fuel50 repeater_on_scene
                                     "minecraft:stone" 5 6 ;;
                             Done (fst s')), 4))
      by (vm_compute; reflexivity).
    eexists. split; [exact Hs'|].
    destruct (Hnew _ _ Hs') as (_ & _ & Hl). exact Hl.
Defined.

(** [createEntity] called for the cell of the lever of [repeater_on_scene]
    adds a second record at that cell. *)
Lemma createEntity_guarded_fails : ~ createEntity_guarded.
Proof.
  intros H.
  assert (Hs' : createEntity fuel50 repeater_on_scene "minecraft:stone" 5 6
                = Done (state_of
                          (s' <- createEntity fuel50 repeater_on_scene
                                   "minecraft:stone" 5 6 ;;
                           Done (fst s')), 4))
    by (vm_compute; reflexivity).
  apply H in Hs'.
  - apply (f_equal (@List.length _)) in Hs'. vm_compute in Hs'.
    discriminate Hs'.
  - left. vm_compute. discriminate.
Qed.

(** [doPull] moves the block two cells ahead into the cell in front of the
    piston without looking at that cell: here two stones end up at (5,4). *)
Lemma pull_scene_has_shared_cell :
  perform pull_ops (newSimulator 64 48) = Done pull_scene
  /\ map fst (filter (at_cell 5 4) (entities pull_scene)) = [4; 5].
Proof. split; vm_compute; reflexivity. Qed.

(** ** Piston heads *)

Lemma extended_scene_reached :
  perform piston_ops (newSimulator 64 48) = Done extended_scene.
Proof. vm_compute. reflexivity. Qed.

(** C5 at the failing input.  In [extended_scene] the piston (entity 1) is
    extended and owns the head (entity 3) at (5,4), and heads and pistons
    match.  Erasing the piston leaves the head in place, still naming entity
    1, which no longer exists; three more ticks do not remove it. *)
Theorem erasing_extended_piston_orphans_head :
  heads_match_pistons extended_scene = true
  /\ option_map extended (getRedstone extended_scene 1) = Some true
  /\ option_map headId (getRedstone extended_scene 1) = Some 3
  /\ exists s' head hc,
       perform [erase 5 5; tick fuel50; tick fuel50; tick fuel50]
         extended_scene = Done s'
       /\ getBlockEntity s' 5 4 = Some (3, head)
       /\ bs_type (e_blockState head) = "minecraft:piston_head"
       /\ e_redstone head = Some hc
       /\ sourcePistonId hc = 1
       /\ lookup 1 (entities s') = None
       /\ heads_match_pistons s' = false.
Proof.
  split; [reflexivity|]. split; [reflexivity|]. split; [reflexivity|].
  eexists. eexists. eexists.
  split; [vm_compute; reflexivity|].
  split; [vm_compute; reflexivity|].
  repeat split.
Qed.

(** ** The push limit *)

(** [canPush] always returns: its loop leaves within twelve rounds. *)
Lemma canPushLoop_total s vec :
  forall (fuel : nat) cx cy count,
    count + Z.of_nat fuel = 11 ->
    exists b, canPushLoop (S fuel) s vec cx cy count = Done b.
Proof.
  induction fuel as [|fuel IH]; intros cx cy count Hc; simpl.
  - destruct (getBlockEntity s cx cy) as [[id b]|]; [|eauto].
    destruct (immovable (e_blockState b)); [eauto|].
    replace (count + 1 >=? 12) with true; [eauto|].
    symmetry. rewrite Z.geb_leb. apply Z.leb_le. lia.
  - destruct (getBlockEntity s cx cy) as [[id b]|]; [|eauto].
    destruct (immovable (e_blockState b)); [eauto|].
    destruct (count + 1 >=? 12); [eauto|].
    apply IH. lia.
Qed.

Lemma canPush_total s x y direction :
  exists b, canPush s x y direction = Done b.
Proof. unfold canPush. apply canPushLoop_total. reflexivity. Qed.

(** A run of occupied cells that reaches the twelfth cell is refused,
    whatever the blocks are. *)
Lemma canPushLoop_limit s vec :
  forall (fuel : nat) cx cy count,
    count + Z.of_nat fuel = 11 ->
    (forall k, 0 <= k <= Z.of_nat fuel ->
       getBlockEntity s (cx + k * vx vec) (cy + k * vy vec) <> None) ->
    canPushLoop (S fuel) s vec cx cy count = Done false.
Proof.
  induction fuel as [|fuel IH]; intros cx cy count Hc Hocc.
  - simpl. pose proof (Hocc 0 ltac:(lia)) as H0.
    replace (cx + 0 * vx vec) with cx in H0 by lia.
    replace (cy + 0 * vy vec) with cy in H0 by lia.
    destruct (getBlockEntity s cx cy) as [[id b]|]; [|congruence].
    destruct (immovable (e_blockState b)); [reflexivity|].
    replace (count + 1 >=? 12) with true; [reflexivity|].
    symmetry. rewrite Z.geb_leb. apply Z.leb_le. lia.
  - pose proof (Hocc 0 ltac:(lia)) as H0.
    replace (cx + 0 * vx vec) with cx in H0 by lia.
    replace (cy + 0 * vy vec) with cy in H0 by lia.
    cbn [canPushLoop].
    destruct (getBlockEntity s cx cy) as [[id b]|]; [|congruence].
    destruct (immovable (e_blockState b)); [reflexivity|].
    destruct (count + 1 >=? 12); [reflexivity|].
    apply IH; [lia|].
    intros k Hk. specialize (Hocc (k + 1) ltac:(lia)).
    replace (cx + vx vec + k * vx vec) with (cx + (k + 1) * vx vec) by lia.
    replace (cy + vy vec + k * vy vec) with (cy + (k + 1) * vy vec) by lia.
    exact Hocc.
Qed.

Lemma canPush_twelve_occupied s x y direction :
  (forall k, 1 <= k <= 12 ->
     getBlockEntity s (x + k * vx (toVector direction))
       (y + k * vy (toVector direction)) <> None) ->
  canPush s x y direction = Done false.
Proof.
  intros Hocc. unfold canPush. apply canPushLoop_limit; [reflexivity|].
  intros k Hk. specialize (Hocc (k + 1) ltac:(simpl in Hk; lia)).
  replace (x + vx (toVector direction) + k * vx (toVector direction))
    with (x + (k + 1) * vx (toVector direction)) by lia.
  replace (y + vy (toVector direction) + k * vy (toVector direction))
    with (y + (k + 1) * vy (toVector direction)) by lia.
  exact Hocc.
Qed.

(** When [canPush] accepts, the run in front of the piston has at most
    eleven blocks, all movable, and ends at an empty cell. *)
Lemma canPushLoop_true s vec :
  forall (fuel : nat) cx cy count,
    count + Z.of_nat fuel = 11 ->
    canPushLoop (S fuel) s vec cx cy count = Done true ->
    exists k,
      0 <= k <= Z.of_nat fuel
      /\ getBlockEntity s (cx + k * vx vec) (cy + k * vy vec) = None
      /\ forall j, 0 <= j < k ->
           exists id b,
             getBlockEntity s (cx + j * vx vec) (cy + j * vy vec)
             = Some (id, b)
             /\ immovable (e_blockState b) = false.
Proof.
  induction fuel as [|fuel IH]; intros cx cy count Hc H.
  - simpl in H. destruct (getBlockEntity s cx cy) as [[id b]|] eqn:Hb.
    + destruct (immovable (e_blockState b)); [discriminate|].
      replace (count + 1 >=? 12) with true in H; [discriminate|].
      symmetry. rewrite Z.geb_leb. apply Z.leb_le. lia.
    + exists 0. split; [simpl; lia|]. split.
      * replace (cx + 0 * vx vec) with cx by lia.
        replace (cy + 0 * vy vec) with cy by lia. exact Hb.
      * intros j Hj. lia.
  - cbn [canPushLoop] in H.
    destruct (getBlockEntity s cx cy) as [[id b]|] eqn:Hb.
    + destruct (immovable (e_blockState b)) eqn:Hi; [discriminate|].
      destruct (count + 1 >=? 12); [discriminate|].
      apply IH in H; [|lia].
      destruct H as (k & Hk & Hempty & Hrun).
      exists (k + 1). split; [lia|]. split.
      * replace (cx + (k + 1) * vx vec) with (cx + vx vec + k * vx vec)
          by lia.
        replace (cy + (k + 1) * vy vec) with (cy + vy vec + k * vy vec)
          by lia.
        exact Hempty.
      * intros j Hj. destruct (Z.eq_dec j 0) as [-> | Hj0].
        -- exists id, b.
           replace (cx + 0 * vx vec) with cx by lia.
           replace (cy + 0 * vy vec) with cy by lia. auto.
        -- destruct (Hrun (j - 1) ltac:(lia)) as (id' & b' & Hf & Hm).
           exists id', b'.
           replace (cx + j * vx vec) with (cx + vx vec + (j - 1) * vx vec)
             by lia.
           replace (cy + j * vy vec) with (cy + vy vec + (j - 1) * vy vec)
             by lia.
           auto.
    + exists 0. split; [lia|]. split.
      * replace (cx + 0 * vx vec) with cx by lia.
        replace (cy + 0 * vy vec) with cy by lia. exact Hb.
      * intros j Hj. lia.
Qed.


Lemma push12_scene_reached :
  perform (push_ops 12) (newSimulator 64 48) = Done push12_scene.
Proof. vm_compute. reflexivity. Qed.


(** The push limit at work.  Twelve stones, all movable, stand in front of
    the powered piston and the thirteenth cell is empty; [canPush] refuses,
    and after the two ticks of the piston's delay nothing has moved and the
    piston is not extended.  With eleven stones the same piston extends. *)
Theorem twelve_movable_blocks_are_refused :
  forallb (fun i => is_stone_at push12_scene 5 (19 - Z.of_nat i)) (seq 0 12)
  = true
  /\ getBlockEntity push12_scene 5 7 = None
  /\ powerInto push12_scene 5 20 EAST = 15
  /\ canPush push12_scene 5 20 NORTH = Done false
  /\ (exists s',
        perform [tick fuel50; tick fuel50] push12_scene = Done s'
        /\ layout s' = layout push12_scene
        /\ option_map extended (getRedstone s' 1) = Some false)
  /\ canPush push11_scene 5 20 NORTH = Done true
  /\ exists s',
       perform [tick fuel50; tick fuel50] push11_scene = Done s'
       /\ option_map extended (getRedstone s' 1) = Some true
       /\ forallb (fun i => is_stone_at s' 5 (18 - Z.of_nat i)) (seq 0 11)
          = true.
Proof.
  split; [reflexivity|]. split; [reflexivity|]. split; [reflexivity|].
  split.
  - apply canPush_twelve_occupied. intros k Hk.
    assert (k = 1 \/ k = 2 \/ k = 3 \/ k = 4 \/ k = 5 \/ k = 6 \/ k = 7
            \/ k = 8 \/ k = 9 \/ k = 10 \/ k = 11 \/ k = 12) as Hcases
      by lia.
    repeat (destruct Hcases as [-> | Hcases]; [vm_compute; discriminate|]).
    subst k. vm_compute. discriminate.
  - split; [|split; [reflexivity|]].
    + eexists. split; [vm_compute; reflexivity|]. split; reflexivity.
    + eexists. split; [vm_compute; reflexivity|]. split; reflexivity.
Qed.

(** ** What holds in every reachable state *)

Lemma wf_new w h : wf (newSimulator w h).
Proof.
  unfold wf, ids_ok, queue_ok, newSimulator; simpl.
  repeat split; try constructor; lia.
Qed.

Lemma update_Forall (P : entity -> Prop) id f l :
  (forall e, P e -> P (f e)) ->
  Forall (fun ke : Z * entity => P (snd ke)) l ->
  Forall (fun ke : Z * entity => P (snd ke)) (update id f l).
Proof.
  intros Hf. induction 1 as [|[k e] l He Hl IH]; simpl; [constructor|].
  destruct (k =? id); constructor; simpl in *; auto.
Qed.

Lemma wf_update s id f :
  (forall e, ent_ok e -> ent_ok (f e)) ->
  wf s -> wf (with_entities (update id f (entities s)) s).
Proof.
  intros Hf (Hids & Hent & Hq). unfold wf, ids_ok, queue_ok in *. simpl.
  rewrite update_keys. repeat split; try tauto.
  apply update_Forall; assumption.
Qed.

Lemma wf_setThis s self f :
  (forall c, comp_ok c -> comp_ok (f c)) ->
  wf s -> wf (setThis s self f).
Proof.
  intros Hf. apply wf_update. intros e [Hr Hc].
  unfold ent_ok, with_redstone; simpl. split; [exact Hr|].
  destruct (e_redstone e); simpl; auto.
Qed.

Lemma wf_updateBlockState s x y g :
  (forall b, bs_rotation (g b) = bs_rotation b) ->
  wf s -> wf (updateBlockState s x y g).
Proof.
  intros Hg Hwf. unfold updateBlockState.
  destruct (getBlockEntity s x y) as [[id e]|]; [|exact Hwf].
  apply wf_update; [|exact Hwf].
  intros e0 [Hr Hc]. unfold ent_ok, with_blockState; simpl.
  rewrite Hg. auto.
Qed.

Lemma wf_commit s self x y f g :
  (forall c, comp_ok c -> comp_ok (f c)) ->
  (forall b, bs_rotation (g b) = bs_rotation b) ->
  wf s -> wf (commit s self x y f g).
Proof.
  intros Hf Hg Hwf. unfold commit.
  apply wf_updateBlockState; [exact Hg|]. apply wf_setThis; assumption.
Qed.

Lemma wf_moveTo s id x y :
  wf s -> wf (with_entities (update id (moveTo x y) (entities s)) s).
Proof. apply wf_update. intros e He. exact He. Qed.

Lemma filter_keys_In id k (l : list (Z * entity)) :
  In k (map fst (filter (fun ke => negb (fst ke =? id)) l)) ->
  In k (map fst l).
Proof.
  induction l as [|[k' e'] l IH]; simpl; [auto|].
  destruct (negb (k' =? id)); simpl; tauto.
Qed.

Lemma wf_removeEntity s id : wf s -> wf (removeEntity id s).
Proof.
  intros ((Hnd & Hpos & Hlt) & Hent & Hq).
  unfold wf, ids_ok, queue_ok, removeEntity. simpl.
  split; [split; [|split]|split].
  - clear - Hnd. induction (entities s) as [|[k e] l IH]; simpl; [constructor|].
    inversion Hnd as [|? ? Hnin Hnd']; subst.
    destruct (negb (k =? id)); simpl; auto.
    constructor; auto. intros Hin. apply Hnin.
    eapply filter_keys_In; eassumption.
  - exact Hpos.
  - clear - Hlt. induction (entities s) as [|[k e] l IH]; simpl; [constructor|].
    inversion Hlt; subst. destruct (negb (k =? id)); simpl; auto.
  - clear - Hent. induction Hent as [|[k e] l He _ IH]; simpl; [constructor|].
    destruct (negb (k =? id)); simpl; auto.
  - exact Hq.
Qed.

Lemma wf_schedule s x y d :
  0 <= d -> wf s -> wf (scheduleBlockUpdate s x y d).
Proof.
  intros Hd (Hids & Hent & Hq). unfold wf, ids_ok, queue_ok in *. simpl.
  repeat split; try tauto.
  apply Forall_app. split; [exact Hq|]. constructor; [simpl; lia|constructor].
Qed.

Lemma wf_add s ent :
  ent_ok ent ->
  wf s ->
  wf {| width := width s; height := height s;
        entities := entities s ++ [(nextId s, ent)];
        nextId := nextId s + 1;
        tickCount := tickCount s; nextTickList := nextTickList s |}.
Proof.
  intros He ((Hnd & Hpos & Hlt) & Hent & Hq). unfold wf, ids_ok, queue_ok.
  simpl. rewrite map_app. simpl. split; [split; [|split]|split].
  - clear - Hnd Hlt. induction (entities s) as [|[k e] l IH]; simpl.
    + constructor; [intros []|constructor].
    + inversion Hnd as [|? ? Hnin Hnd']; subst.
      inversion Hlt as [|? ? Hk Hlt']; subst. simpl in *.
      constructor; [|auto].
      rewrite in_app_iff. intros [Hin | [Heq | []]]; [tauto|]. lia.
  - lia.
  - apply Forall_app. split.
    + eapply Forall_impl; [|exact Hlt]. simpl. intros k Hk. lia.
    + constructor; [lia|constructor].
  - apply Forall_app. split; [exact Hent|]. constructor; [exact He|constructor].
  - exact Hq.
Qed.

Lemma lookup_In id (l : list (Z * entity)) e :
  lookup id l = Some e -> In (id, e) l.
Proof.
  induction l as [|[k e0] l IH]; simpl; [discriminate|].
  destruct (k =? id) eqn:E; intros H.
  - injection H as ->. apply Z.eqb_eq in E. subst. auto.
  - auto.
Qed.

Lemma wf_found s x y id e :
  wf s -> getBlockEntity s x y = Some (id, e) -> ent_ok e.
Proof.
  intros (_ & Hent & _) Hf. apply find_some in Hf. destruct Hf as [Hin _].
  rewrite Forall_forall in Hent. exact (Hent _ Hin).
Qed.

Lemma wf_this s self c : wf s -> getRedstone s self = Some c -> comp_ok c.
Proof.
  intros (_ & Hent & _) Hc. unfold getRedstone in Hc.
  destruct (lookup self (entities s)) as [e|] eqn:Hl; [|discriminate].
  apply lookup_In in Hl. rewrite Forall_forall in Hent.
  destruct (Hent _ Hl) as [_ Hok]. simpl in Hok. rewrite Hc in Hok. exact Hok.
Qed.

Lemma powerOutputOf_bounds c r d :
  comp_ok c -> 0 <= powerOutputOf c r d <= 15.
Proof.
  intros (Hp & Ho & _). unfold powerOutputOf.
  destruct (cls c); try lia;
    match goal with |- context [if ?b then _ else _] => destruct b end; lia.
Qed.

Lemma powerInto_bounds s x y d : wf s -> 0 <= powerInto s x y d <= 15.
Proof.
  intros Hwf. unfold powerInto.
  destruct (getBlockEntity s _ _) as [[id e]|] eqn:Hf; [|lia].
  destruct (wf_found _ _ _ _ _ Hwf Hf) as [_ Hc].
  destruct (e_redstone e); [|lia]. apply powerOutputOf_bounds, Hc.
Qed.

Lemma wireContribution_bounds s x y d :
  wf s -> 0 <= wireContribution s x y d <= 15.
Proof.
  intros Hwf. unfold wireContribution. simpl.
  destruct (getBlockEntity s _ _) as [[id e]|] eqn:Hf; [|lia].
  destruct (wf_found _ _ _ _ _ Hwf Hf) as [_ Hc].
  destruct (e_redstone e) as [c|]; [|lia].
  pose proof (powerOutputOf_bounds c (bs_rotation (e_blockState e))
                (opposite d) Hc) as Hb.
  destruct Hc as (Hp & _).
  destruct (cls c); try exact Hb. lia.
Qed.

Lemma wireLevel_bounds s x y : wf s -> 0 <= wireLevel s x y <= 15.
Proof.
  intros Hwf. unfold wireLevel, cardinals. simpl.
  pose proof (wireContribution_bounds s x y NORTH Hwf).
  pose proof (wireContribution_bounds s x y EAST Hwf).
  pose proof (wireContribution_bounds s x y SOUTH Hwf).
  pose proof (wireContribution_bounds s x y WEST Hwf).
  lia.
Qed.

Lemma comp_ok_powerLevel v c :
  0 <= v <= 15 -> comp_ok c -> comp_ok (set_powerLevel v c).
Proof. unfold comp_ok; simpl; tauto. Qed.

Lemma comp_ok_locked v c : comp_ok c -> comp_ok (set_locked v c).
Proof. unfold comp_ok; simpl; tauto. Qed.

Lemma wf_notifyNeighborsWith upd s x y s' :
  (forall s id nx ny x y s',
     wf s -> upd s id nx ny x y = Done s' -> wf s') ->
  wf s -> notifyNeighborsWith upd s x y = Done s' -> wf s'.
Proof.
  intros Hupd Hwf H. revert Hwf. unfold notifyNeighborsWith in H. revert H.
  apply (foldM_preserves (fun a b => wf a -> wf b)); auto.
  intros a d a' H Hwf. flow H; subst; eauto.
Qed.

Lemma wf_onNeighborUpdate fuel :
  forall s self x y nx ny s',
    wf s -> onNeighborUpdate fuel s self x y nx ny = Done s' -> wf s'.
Proof.
  induction fuel as [|fuel IH]; simpl; intros s self x y nx ny s' Hwf H;
    [discriminate|].
  bind_inv H. apply getThis_Done in Hstep. rename a into this.
  pose proof (wf_this _ _ _ Hwf Hstep) as Hok.
  destruct (cls this) eqn:Hcls; flow H; subst;
    try assumption;
    try (apply wf_schedule; [lia | assumption]).
  - rewrite dustMaxPower_wireLevel in Hstep0. injection Hstep0 as <-.
    eapply wf_notifyNeighborsWith; [exact IH | | eassumption].
    apply wf_updateBlockState; [reflexivity|].
    apply wf_setThis; [|exact Hwf].
    intros c Hc. apply comp_ok_powerLevel; [|exact Hc].
    apply wireLevel_bounds, Hwf.
  - apply wf_setThis; auto using comp_ok_locked.
  - apply wf_schedule; [destruct Hok as (_ & _ & Hd); lia|].
    apply wf_setThis; auto using comp_ok_locked.
  - apply wf_schedule; [destruct Hok as (_ & _ & Hd); lia|].
    apply wf_setThis; auto using comp_ok_locked.
  - apply wf_setThis; auto using comp_ok_locked.
Qed.

Lemma wf_notifyNeighbors fuel s x y s' :
  wf s -> notifyNeighbors fuel s x y = Done s' -> wf s'.
Proof.
  apply wf_notifyNeighborsWith. intros. eapply wf_onNeighborUpdate; eassumption.
Qed.

Ltac comp_ok_tac :=
  let c := fresh "c" in
  let Hc := fresh "Hc" in
  intros c Hc; unfold comp_ok in *; simpl;
  repeat match goal with |- context [if ?b then _ else _] => destruct b end;
  first [tauto | lia].

(** Peel the operations a state was built with, for [wf]. *)
Ltac wf_peel :=
  repeat first
    [ assumption
    | apply wf_schedule; [lia|]
    | apply wf_updateBlockState; [reflexivity|]
    | apply wf_setThis; [solve [comp_ok_tac]|]
    | apply wf_removeEntity
    | apply wf_moveTo
    | (eapply wf_notifyNeighbors; [|eassumption])
    | (eapply wf_onNeighborUpdate; [|eassumption]) ].

Lemma wf_createEntity fuel s type x y s' id :
  wf s -> createEntity fuel s type x y = Done (s', id) -> wf s'.
Proof.
  intros Hwf Hc. unfold createEntity in Hc.
  set (ent := {| e_position := _; e_redstone := _; e_blockState := _ |})
    in Hc.
  assert (Hent : ent_ok ent).
  { unfold ent_ok, ent. simpl. split; [lia|].
    destruct (componentRegistry type) as [k|]; simpl; [|exact I].
    unfold comp_ok. simpl. destruct k; lia. }
  pose proof (wf_add s ent Hent Hwf) as H1.
  set (s1 := {| width := width s; height := height s;
                entities := _; nextId := _; tickCount := tickCount s;
                nextTickList := nextTickList s |}) in *.
  destruct (e_redstone ent); simpl in Hc.
  - bind_inv Hc. injection Hc as <- _.
    unfold onPlaced in Hstep. bind_inv Hstep.
    destruct (cls a0); flow Hstep; subst; wf_peel.
  - injection Hc as <- _. exact H1.
Qed.

Lemma wf_doPush fuel s x y d s' :
  wf s -> doPush fuel s x y d = Done s' -> wf s'.
Proof.
  intros Hwf Hp. unfold doPush in Hp. bind_inv Hp. revert Hwf. revert Hp.
  apply (foldM_preserves (fun a b => wf a -> wf b)); auto.
  intros s0 [id [ix iy]] s0' Hs Hwf. flow Hs. subst. wf_peel.
Qed.

Lemma wf_doPull fuel s x y d s' :
  wf s -> doPull fuel s x y d = Done s' -> wf s'.
Proof.
  intros Hwf Hp. unfold doPull in Hp.
  destruct (getBlockEntity s _ _) as [[id b]|]; flow Hp; subst; wf_peel.
Qed.

Lemma wf_extend fuel s self x y s' :
  wf s -> extend fuel s self x y = Done s' -> wf s'.
Proof.
  intros Hwf He. unfold extend in He. bind_inv He.
  destruct (extended a); [injection He as <-; exact Hwf|].
  destruct (getBlockEntity s x y) as [[entityId ent]|] eqn:Hfound;
    [|discriminate].
  destruct (wf_found _ _ _ _ _ Hwf Hfound) as [Hrot _].
  bind_inv He. destruct a0; [|injection He as <-; exact Hwf].
  bind_inv He. bind_inv He. destruct a1 as [s5 newHead].
  eapply wf_notifyNeighbors; [|eassumption].
  apply wf_setThis; [solve [comp_ok_tac]|].
  apply wf_update.
  { intros e [_ Hc]. unfold ent_ok, with_blockState. simpl. auto. }
  apply wf_setThis; [solve [comp_ok_tac]|].
  eapply wf_createEntity; [|eassumption].
  pose proof (wf_doPush _ _ _ _ _ _ Hwf Hstep1) as H1.
  match goal with
  | |- wf (match ?m with _ => _ end) => destruct m as [[existing ?]|]
  end; wf_peel.
Qed.

Lemma wf_retract fuel s self x y s' :
  wf s -> retract fuel s self x y = Done s' -> wf s'.
Proof.
  intros Hwf He. unfold retract in He. bind_inv He.
  destruct (negb (extended a)); [injection He as <-; exact Hwf|].
  bind_inv He. bind_inv He.
  assert (H3 : wf a1).
  { destruct (negb (headId a =? -1)).
    - wf_peel.
    - injection Hstep1 as <-. wf_peel. }
  destruct (isSticky a).
  - eapply wf_doPull; eassumption.
  - injection He as <-. exact H3.
Qed.

Lemma comparatorNewPower_bounds m rear side :
  0 <= rear <= 15 -> 0 <= side ->
  0 <= comparatorNewPower m rear side <= 15.
Proof.
  intros Hr Hs. unfold comparatorNewPower.
  destruct m; [destruct (rear >=? side)|]; lia.
Qed.

Lemma wf_onScheduledTick fuel s self x y s' :
  wf s -> onScheduledTick fuel s self x y = Done s' -> wf s'.
Proof.
  intros Hwf Ht. unfold onScheduledTick in Ht. bind_inv Ht.
  destruct (cls a) eqn:Hcls;
    try (flow Ht; subst; wf_peel;
         solve [ eapply wf_extend; eassumption
               | eapply wf_retract; eassumption ]).
  (* the comparator: the new output is a redstone level *)
  bind_inv Ht. bind_inv Ht. bind_inv Ht. bind_inv Ht.
  rewrite getPower_total in Hstep1, Hstep2, Hstep3.
  injection Hstep1 as <-. injection Hstep2 as <-. injection Hstep3 as <-.
  match type of Ht with
  | context [comparatorNewPower ?m ?r ?sd] =>
      assert (Hb : 0 <= comparatorNewPower m r sd <= 15)
  end.
  { apply comparatorNewPower_bounds.
    - apply powerInto_bounds, Hwf.
    - pose proof (powerInto_bounds s x y (Z.rem (a0 + 3) 4) Hwf). lia. }
  destruct (negb (outputPower a =? _)); [|injection Ht as <-; exact Hwf].
  eapply wf_notifyNeighbors; [|eassumption].
  apply wf_updateBlockState; [reflexivity|].
  apply wf_setThis; [|exact Hwf].
  intros c Hc. unfold comp_ok in *. simpl. lia.
Qed.

Lemma wf_dispatchTick fuel s t s' :
  wf s -> dispatchTick fuel s t = Done s' -> wf s'.
Proof.
  unfold dispatchTick. intros Hwf H.
  destruct (getBlockEntity s _ _) as [[id ent]|]; [|injection H as <-; auto].
  destruct (e_redstone ent); [|injection H as <-; auto].
  eapply wf_onScheduledTick; eassumption.
Qed.

Lemma wf_tick fuel s s' : wf s -> tick fuel s = Done s' -> wf s'.
Proof.
  intros (Hids & Hent & Hq) H. unfold tick, processScheduledTicks in H.
  simpl in H. revert H.
  match goal with
  | |- foldM _ _ ?s1 = _ -> _ => assert (H1 : wf s1)
  end.
  { unfold wf, ids_ok, queue_ok in *. simpl. repeat split; try tauto.
    apply Forall_forall. intros t Hin. unfold laterTicks in Hin.
    apply filter_In in Hin. destruct Hin as [_ Hin].
    apply Z.gtb_lt in Hin. lia. }
  intros H. revert H1. revert H.
  apply (foldM_preserves (fun a b => wf a -> wf b)); auto.
  intros a t a' Hd Hwf. eapply wf_dispatchTick; eassumption.
Qed.

Lemma wf_placeOrInteract fuel s kind x y s' :
  wf s -> placeOrInteract fuel s kind x y = Done s' -> wf s'.
Proof.
  intros Hwf H. unfold placeOrInteract in H.
  destruct (_ || _); [injection H as <-; exact Hwf|].
  destruct (getBlockEntity s x y) as [[id ex]|].
  - destruct (String.eqb kind "erase"); [wf_peel|].
    destruct (e_redstone ex); [|injection H as <-; exact Hwf].
    destruct (String.eqb _ "minecraft:lever").
    { unfold toggle in H. bind_inv H. destruct (cls a); try discriminate.
      wf_peel. }
    destruct (String.eqb _ "minecraft:button");
      [|injection H as <-; exact Hwf].
    unfold press in H. bind_inv H. destruct (cls a); try discriminate.
    flow H; subst; wf_peel.
  - destruct (String.eqb kind "erase"); [injection H as <-; exact Hwf|].
    bind_inv H. destruct a as [s1 id1]. injection H as <-.
    eapply wf_createEntity; eassumption.
Qed.

Lemma wf_rotateComponent fuel s x y s' :
  wf s -> rotateComponent fuel s x y = Done s' -> wf s'.
Proof.
  intros Hwf H. unfold rotateComponent in H.
  destruct (getBlockEntity s x y) as [[id ent]|]; [|injection H as <-; auto].
  destruct (_ && _); [injection H as <-; exact Hwf|].
  bind_inv H. eapply wf_notifyNeighbors; [|eassumption].
  assert (H1 : wf (with_entities
                     (update id
                        (with_blockState
                           (fun b => set_bs_rotation
                                       (Z.rem (bs_rotation b + 1) 4) b))
                        (entities s)) s)).
  { apply wf_update; [|exact Hwf].
    intros e [Hr Hc]. unfold ent_ok, with_blockState. simpl.
    split; [|exact Hc].
    assert (Hcases : bs_rotation (e_blockState e) = 0
                     \/ bs_rotation (e_blockState e) = 1
                     \/ bs_rotation (e_blockState e) = 2
                     \/ bs_rotation (e_blockState e) = 3) by lia.
    destruct Hcases as [-> | [-> | [-> | ->]]]; vm_compute;
      split; discriminate. }
  destruct (e_redstone ent); [wf_peel | injection Hstep as <-; exact H1].
Qed.

Lemma rem4_cycle d : 1 <= d <= 4 -> 1 <= Z.rem d 4 + 1 <= 4.
Proof.
  intros H. assert (d = 1 \/ d = 2 \/ d = 3 \/ d = 4) as [->|[->|[->| ->]]]
    by lia; vm_compute; split; discriminate.
Qed.

(** *** The menu items, also on a component whose entity is gone *)

Lemma wf_extendDetached fuel s this x y s' :
  wf s -> extendDetached fuel s this x y = Done s' -> wf s'.
Proof.
  intros Hwf He. unfold extendDetached in He.
  destruct (extended this); [injection He as <-; exact Hwf|].
  destruct (getBlockEntity s x y) as [[entityId ent]|] eqn:Hfound;
    [|discriminate].
  destruct (wf_found _ _ _ _ _ Hwf Hfound) as [Hrot _].
  bind_inv He. destruct a; [|injection He as <-; exact Hwf].
  bind_inv He. bind_inv He.
  match goal with p : (simulator * Z)%type |- _ => destruct p as [s5 newHead]
  end.
  eapply wf_notifyNeighbors; [|eassumption].
  apply wf_update.
  { intros e [_ Hc]. unfold ent_ok, with_blockState. simpl. auto. }
  apply wf_setThis; [solve [comp_ok_tac]|].
  eapply wf_createEntity; [|eassumption].
  match goal with
  | Hp : doPush _ _ _ _ _ = Done _ |- _ =>
      pose proof (wf_doPush _ _ _ _ _ _ Hwf Hp) as H1
  end.
  match goal with
  | |- wf (match ?m with _ => _ end) => destruct m as [[existing ?]|]
  end; wf_peel.
Qed.

Lemma wf_retractDetached fuel s this x y s' :
  wf s -> retractDetached fuel s this x y = Done s' -> wf s'.
Proof.
  intros Hwf He. unfold retractDetached in He.
  destruct (negb (extended this)); [injection He as <-; exact Hwf|].
  bind_inv He. bind_inv He.
  assert (H3 : wf a0).
  { destruct (negb (headId this =? -1)).
    - wf_peel.
    - injection Hstep0 as <-. wf_peel. }
  destruct (isSticky this).
  - eapply wf_doPull; eassumption.
  - injection He as <-. exact H3.
Qed.

Lemma wf_onScheduledTickDetached fuel s this x y s' :
  wf s -> onScheduledTickDetached fuel s this x y = Done s' -> wf s'.
Proof.
  intros Hwf Ht. unfold onScheduledTickDetached in Ht.
  destruct (cls this);
    flow Ht; subst; wf_peel;
    solve [ eapply wf_extendDetached; eassumption
          | eapply wf_retractDetached; eassumption ].
Qed.

Lemma comp_ok_cycleDelay c : comp_ok c -> comp_ok (cycleDelay c).
Proof.
  intros (Hp & Ho & Hd). unfold comp_ok, cycleDelay. simpl.
  pose proof (rem4_cycle _ Hd). tauto.
Qed.

Lemma comp_ok_swapMode c : comp_ok c -> comp_ok (swapMode c).
Proof. intros H. exact H. Qed.

Lemma wf_menuItem assign fuel s id detached x y s' :
  (forall c, comp_ok c -> comp_ok (assign c)) ->
  wf s -> menuItem assign fuel s id detached x y = Done s' -> wf s'.
Proof.
  intros Hok Hwf H. unfold menuItem in H.
  destruct (lookup id (entities s)).
  - eapply wf_onScheduledTick; [|eassumption].
    apply wf_setThis; [exact Hok | exact Hwf].
  - eapply wf_onScheduledTickDetached; eassumption.
Qed.

Lemma wf_menuDelete fuel s id x y s' :
  wf s -> menuDelete fuel s id x y = Done s' -> wf s'.
Proof. intros Hwf H. unfold menuDelete in H. wf_peel. Qed.

(** The scenarios are runs of placements, clicks and ticks. *)
Lemma perform_wf ops :
  Forall (fun f => (exists kind x y, f = place kind x y) \/ f = tick fuel50)
         ops ->
  forall s s', wf s -> perform ops s = Done s' -> wf s'.
Proof.
  induction 1 as [|f ops Hf _ IH]; simpl; intros s s' Hwf H.
  - injection H as <-. exact Hwf.
  - bind_inv H. apply (IH a); [|exact H].
    destruct Hf as [(kind & x & y & ->) | ->].
    + eapply wf_placeOrInteract; eassumption.
    + eapply wf_tick; eassumption.
Qed.

Ltac scenario_ops :=
  repeat (apply Forall_cons;
          [first [left; do 3 eexists; reflexivity | right; reflexivity]|]);
  apply Forall_nil.


Lemma stale_menu_scene_wf : wf stale_menu_scene.
Proof.
  apply (perform_wf stale_menu_ops ltac:(scenario_ops) _ _
           (wf_new 64 48) stale_menu_scene_reached).
Qed.

Lemma repeater_scene_wf : wf repeater_scene.
Proof.
  apply (perform_wf repeater_ops ltac:(scenario_ops) _ _
           (wf_new 64 48) repeater_scene_reached).
Qed.

Lemma reachable_wf s : reachable s -> wf s.
Proof.
  induction 1.
  - apply wf_new.
  - eapply wf_placeOrInteract; eassumption.
  - eapply wf_rotateComponent; eassumption.
  - eapply (wf_menuItem cycleDelay); [apply comp_ok_cycleDelay | |];
      eassumption.
  - apply wf_setThis; [apply comp_ok_cycleDelay | assumption].
  - eapply (wf_menuItem swapMode); [apply comp_ok_swapMode | |];
      eassumption.
  - apply wf_setThis; [apply comp_ok_swapMode | assumption].
  - eapply wf_menuDelete; eassumption.
  - eapply wf_tick; eassumption.
Qed.

(** ** Directions *)

(** X1.  [Direction.opposite] is an involution on every number, the vector
    of the opposite direction is the negated vector, and for a cardinal
    direction the components' [(rotation + 2) % 4] is its opposite. *)
Theorem opposite_involution (d : Z) :
  opposite (opposite d) = d
  /\ vx (toVector (opposite d)) = - vx (toVector d)
  /\ vy (toVector (opposite d)) = - vy (toVector d)
  /\ vz (toVector (opposite d)) = - vz (toVector d)
  /\ (0 <= d <= 3 -> Z.rem (d + 2) 4 = opposite d).
Proof.
  assert (Hcases : d = 0 \/ d = 1 \/ d = 2 \/ d = 3 \/ d = 4 \/ d = 5
                   \/ (d < 0 \/ 5 < d)) by lia.
  destruct Hcases as [-> | [-> | [-> | [-> | [-> | [-> | Hout]]]]]];
    try (repeat split; try reflexivity; intros; lia).
  assert (Hopp : opposite d = d).
  { unfold opposite.
    repeat match goal with
           | |- context [d =? ?n] =>
               replace (d =? n) with false
                 by (symmetry; apply Z.eqb_neq; lia)
           end.
    reflexivity. }
  assert (Hvec : toVector d = {| vx := 0; vy := 0; vz := 0 |}).
  { unfold toVector.
    repeat match goal with
           | |- context [d =? ?n] =>
               replace (d =? n) with false
                 by (symmetry; apply Z.eqb_neq; lia)
           end.
    reflexivity. }
  rewrite !Hopp, Hvec. simpl. repeat split; try reflexivity. intros; lia.
Qed.

(** ** The push test, exactly *)

Lemma canPushLoop_accepts s vec :
  forall (fuel : nat) cx cy count k,
    count + Z.of_nat fuel = 11 ->
    0 <= k <= Z.of_nat fuel ->
    getBlockEntity s (cx + k * vx vec) (cy + k * vy vec) = None ->
    (forall j, 0 <= j < k ->
       exists id b,
         getBlockEntity s (cx + j * vx vec) (cy + j * vy vec) = Some (id, b)
         /\ immovable (e_blockState b) = false) ->
    canPushLoop (S fuel) s vec cx cy count = Done true.
Proof.
  induction fuel as [|fuel IH]; intros cx cy count k Hc Hk Hempty Hrun.
  - assert (k = 0) by (simpl in Hk; lia). subst k.
    replace (cx + 0 * vx vec) with cx in Hempty by lia.
    replace (cy + 0 * vy vec) with cy in Hempty by lia.
    simpl. rewrite Hempty. reflexivity.
  - cbn [canPushLoop]. destruct (Z.eq_dec k 0) as [-> | Hk0].
    + replace (cx + 0 * vx vec) with cx in Hempty by lia.
      replace (cy + 0 * vy vec) with cy in Hempty by lia.
      rewrite Hempty. reflexivity.
    + destruct (Hrun 0 ltac:(lia)) as (id & b & Hb & Hm).
      replace (cx + 0 * vx vec) with cx in Hb by lia.
      replace (cy + 0 * vy vec) with cy in Hb by lia.
      rewrite Hb, Hm.
      replace (count + 1 >=? 12) with false
        by (symmetry; rewrite Z.geb_leb; apply Z.leb_gt; lia).
      apply (IH _ _ _ (k - 1)); [lia | lia | |].
      * replace (cx + vx vec + (k - 1) * vx vec) with (cx + k * vx vec)
          by lia.
        replace (cy + vy vec + (k - 1) * vy vec) with (cy + k * vy vec)
          by lia.
        exact Hempty.
      * intros j Hj. destruct (Hrun (j + 1) ltac:(lia)) as (id' & b' & Hf & Hm').
        exists id', b'.
        replace (cx + vx vec + j * vx vec) with (cx + (j + 1) * vx vec)
          by lia.
        replace (cy + vy vec + j * vy vec) with (cy + (j + 1) * vy vec)
          by lia.
        auto.
Qed.

(** X2.  [canPush] always returns, and it returns [true] exactly when the
    cells in front of the piston hold a run of [k <= 11] blocks, none of them
    immovable, followed by an empty cell. *)
Theorem canPush_accepts_exactly (s : simulator) (x y direction : Z) :
  let vec := toVector direction in
  (exists b, canPush s x y direction = Done b)
  /\ (canPush s x y direction = Done true
      <-> exists k,
            0 <= k <= 11
            /\ getBlockEntity s (x + (k + 1) * vx vec) (y + (k + 1) * vy vec)
               = None
            /\ forall j, 1 <= j <= k ->
                 exists id b,
                   getBlockEntity s (x + j * vx vec) (y + j * vy vec)
                   = Some (id, b)
                   /\ immovable (e_blockState b) = false).
Proof.
  intros vec. split; [apply canPush_total|]. unfold canPush. fold vec. split.
  - intros H. apply canPushLoop_true in H; [|reflexivity].
    destruct H as (k & Hk & Hempty & Hrun). exists k.
    split; [simpl in Hk; lia|]. split.
    + replace (x + (k + 1) * vx vec) with (x + vx vec + k * vx vec) by lia.
      replace (y + (k + 1) * vy vec) with (y + vy vec + k * vy vec) by lia.
      exact Hempty.
    + intros j Hj. destruct (Hrun (j - 1) ltac:(lia)) as (id & b & Hf & Hm).
      exists id, b.
      replace (x + j * vx vec) with (x + vx vec + (j - 1) * vx vec) by lia.
      replace (y + j * vy vec) with (y + vy vec + (j - 1) * vy vec) by lia.
      auto.
  - intros (k & Hk & Hempty & Hrun).
    apply (canPushLoop_accepts s vec 11 _ _ 0 k); [reflexivity | simpl; lia | |].
    + replace (x + vx vec + k * vx vec) with (x + (k + 1) * vx vec) by lia.
      replace (y + vy vec + k * vy vec) with (y + (k + 1) * vy vec) by lia.
      exact Hempty.
    + intros j Hj. destruct (Hrun (j + 1) ltac:(lia)) as (id & b & Hf & Hm).
      exists id, b.
      replace (x + vx vec + j * vx vec) with (x + (j + 1) * vx vec) by lia.
      replace (y + vy vec + j * vy vec) with (y + (j + 1) * vy vec) by lia.
      auto.
Qed.

(** ** What a notification never does *)

(** X3.  When [notifyNeighbors] returns, no entity has been created, removed
    or moved, the grid, the clock and the identifier counter are as before,
    and the tick list has only grown at its end.  Every entity has kept its
    position and, in its block state, its type, rotation and the four flags
    [powered], [waterlogged], [extended] and [isSticky]: of the block state
    only the level shown, [powerLevel], can have changed.  A component has
    kept its class and every field except the [locked] flag, and except the
    level when it is a wire. *)
Theorem notification_leaves_rest_alone (fuel : nat) (s : simulator)
    (x y : Z) (s' : simulator) :
  notifyNeighbors fuel s x y = Done s' ->
  layout s' = layout s
  /\ width s' = width s /\ height s' = height s
  /\ nextId s' = nextId s
  /\ tickCount s' = tickCount s
  /\ (exists added, nextTickList s' = nextTickList s ++ added)
  /\ forall id e,
       lookup id (entities s) = Some e ->
       exists e',
         lookup id (entities s') = Some e'
         /\ e_position e' = e_position e
         /\ bs_type (e_blockState e') = bs_type (e_blockState e)
         /\ bs_rotation (e_blockState e') = bs_rotation (e_blockState e)
         /\ bs_powered (e_blockState e') = bs_powered (e_blockState e)
         /\ bs_waterlogged (e_blockState e')
            = bs_waterlogged (e_blockState e)
         /\ bs_extended (e_blockState e') = bs_extended (e_blockState e)
         /\ bs_isSticky (e_blockState e') = bs_isSticky (e_blockState e)
         /\ match e_redstone e with
            | None => e_redstone e' = None
            | Some c =>
                exists c',
                  e_redstone e' = Some c'
                  /\ cls c' = cls c
                  /\ delay c' = delay c
                  /\ powered c' = powered c
                  /\ mode c' = mode c
                  /\ outputPower c' = outputPower c
                  /\ extended c' = extended c
                  /\ isSticky c' = isSticky c
                  /\ headId c' = headId c
                  /\ sourcePistonId c' = sourcePistonId c
                  /\ (cls c <> RedstoneDustComponent ->
                      powerLevel c' = powerLevel c)
            end.
Proof.
  intros H. apply notifyNeighbors_frame in H.
  pose proof (frame_layout _ _ H) as Hl.
  destruct H as (Hw & Hh & Hn & Ht & Hq & Htab).
  repeat (split; [assumption|]).
  intros id e He.
  pose proof (table_frame_lookup id _ _ Htab) as Hlk. rewrite He in Hlk.
  destruct (lookup id (entities s')) as [e'|]; [|contradiction].
  exists e'. split; [reflexivity|].
  destruct Hlk as (Hp & (B1 & B2 & B3 & B4 & B5 & B6) & Hr).
  repeat (split; [assumption|]).
  unfold opt_frame in Hr.
  destruct (e_redstone e) as [c|], (e_redstone e') as [c'|];
    try contradiction; [|reflexivity].
  exists c'. split; [reflexivity|].
  destruct Hr as (C1 & C2 & C3 & C4 & C5 & C6 & C7 & C8 & C9 & C10).
  repeat split; assumption.
Qed.

Lemma notification_leaves_rest_alone_witness :
  exists s',
    notifyNeighbors fuel50 wire_cut_scene 0 5 = Done s'
    /\ layout s' = layout wire_cut_scene
    /\ option_map powerLevel (getRedstone wire_cut_scene 3) = Some 15
    /\ option_map powerLevel (getRedstone s' 3) = Some 0
    /\ option_map powerLevel (getRedstone s' 1) = Some 15.
Proof.
  assert (Hs' : notifyNeighbors fuel50 wire_cut_scene 0 5
                = Done (state_of (notifyNeighbors fuel50 wire_cut_scene 0 5)))
    by (vm_compute; reflexivity).
  destruct (notification_leaves_rest_alone _ _ _ _ _ Hs') as (Hl & _).
  eexists. split; [exact Hs'|]. split; [exact Hl|].
  repeat split.
Defined.

(** ** Reachable states *)

Lemma perform_reachable ops :
  Forall (fun f => (exists kind x y, f = place kind x y) \/ f = tick fuel50)
         ops ->
  forall s s', reachable s -> perform ops s = Done s' -> reachable s'.
Proof.
  induction 1 as [|f ops Hf _ IH]; simpl; intros s s' Hr H.
  - injection H as <-. exact Hr.
  - bind_inv H. apply (IH a); [|exact H].
    destruct Hf as [(kind & x & y & ->) | ->].
    + eapply reach_place; eassumption.
    + eapply reach_tick; eassumption.
Qed.

Lemma repeater_scene_reachable : reachable repeater_scene.
Proof.
  eapply (perform_reachable repeater_ops);
    [|apply (reach_new 64 48) | apply repeater_scene_reached].
  repeat (apply Forall_cons;
          [first [left; do 3 eexists; reflexivity | right; reflexivity]|]).
  apply Forall_nil.
Qed.

Lemma comparator_scene_reachable : reachable comparator_scene.
Proof.
  eapply (perform_reachable comparator_ops);
    [|apply (reach_new 64 48) | apply comparator_scene_reached].
  repeat (apply Forall_cons; [left; do 3 eexists; reflexivity|]).
  apply Forall_nil.
Qed.

Lemma stale_clicked_scene_reachable : reachable stale_clicked_scene.
Proof.
  apply (reach_delay fuel50 stale_menu_scene 1 (this_of menu_open_scene 1)
           5 4).
  - eapply (perform_reachable stale_menu_ops);
      [|apply (reach_new 64 48) | apply stale_menu_scene_reached].
    scenario_ops.
  - vm_compute. reflexivity.
Qed.

(** X4.  In every reachable state - reached from a fresh simulator by
    placements, clicks, erasures, rotations, ticks and menu items, the menu
    items acting on what they captured however long before - the
    identifiers in the entity table are pairwise different, positive and
    below [nextId], the value the next entity will get; and the entity
    [getBlockEntity] finds at a cell is the one its identifier names. *)
Theorem reachable_ids_unique (s : simulator) :
  reachable s ->
  NoDup (map fst (entities s))
  /\ (forall id e, lookup id (entities s) = Some e -> 0 < id < nextId s)
  /\ (forall x y id e,
        getBlockEntity s x y = Some (id, e) -> dispatched s id x y e).
Proof.
  intros Hr. destruct (reachable_wf _ Hr) as ((Hnd & _ & Hlt) & _ & _).
  split; [exact Hnd|]. split.
  - intros id e He. apply lookup_In in He. apply (in_map fst) in He.
    rewrite Forall_forall in Hlt. exact (Hlt _ He).
  - intros x y id e Hf. split; [exact Hf|].
    eapply find_lookup_unique; eassumption.
Qed.

Lemma reachable_ids_unique_witness :
  NoDup (map fst (entities stale_clicked_scene))
  /\ dispatched stale_clicked_scene 4 5 4 (entity_of stale_clicked_scene 4).
Proof.
  destruct (reachable_ids_unique _ stale_clicked_scene_reachable)
    as (Hnd & _ & Hd).
  split; [exact Hnd|]. apply Hd. reflexivity.
Defined.

(** X5.  In every reachable state every component's power level and
    comparator output lie in 0..15, and every power query returns, with a
    value in 0..15. *)
Theorem reachable_power_in_range (s : simulator) :
  reachable s ->
  (forall id c,
     getRedstone s id = Some c ->
     0 <= powerLevel c <= 15 /\ 0 <= outputPower c <= 15)
  /\ (forall x y d,
        exists p, getPower s x y d = Done p /\ 0 <= p <= 15)
  /\ (forall x y,
        exists p, getMaxNeighborPower s x y = Done p /\ 0 <= p <= 15)
  /\ (forall x y,
        exists p, dustMaxPower s x y = Done p /\ 0 <= p <= 15).
Proof.
  intros Hr. pose proof (reachable_wf _ Hr) as Hwf.
  split; [|split; [|split]].
  - intros id c Hc. destruct (wf_this _ _ _ Hwf Hc) as (Hp & Ho & _). auto.
  - intros x y d. eexists. split; [apply getPower_total|].
    apply powerInto_bounds, Hwf.
  - intros x y. eexists. split; [apply getMaxNeighborPower_total|].
    pose proof (powerInto_bounds s x y NORTH Hwf).
    pose proof (powerInto_bounds s x y EAST Hwf).
    pose proof (powerInto_bounds s x y SOUTH Hwf).
    pose proof (powerInto_bounds s x y WEST Hwf). lia.
  - intros x y. eexists. split; [apply dustMaxPower_wireLevel|].
    apply wireLevel_bounds, Hwf.
Qed.

Lemma reachable_power_in_range_witness :
  (exists p, getPower comparator_scene 5 5 WEST = Done p /\ 0 <= p <= 15)
  /\ getPower comparator_scene 5 5 WEST = Done 12.
Proof.
  destruct (reachable_power_in_range _ comparator_scene_reachable)
    as (_ & Hp & _).
  split; [apply Hp | reflexivity].
Defined.

Lemma rear_is_opposite r : 0 <= r <= 3 -> Z.rem (r + 2) 4 = opposite r.
Proof.
  intros Hr. assert (r = 0 \/ r = 1 \/ r = 2 \/ r = 3) as [->|[->|[->| ->]]]
    by lia; reflexivity.
Qed.

(** X6.  In every reachable state every block's rotation is one of the four
    cardinal directions and every repeater's delay is one of 1..4; so the
    rear side [(rotation + 2) % 4] of a block is the opposite of its facing,
    as is a torch's attachment side, and a repeater schedules 2, 4, 6 or 8
    game ticks ahead. *)
Theorem reachable_rotations_and_delays (s : simulator) :
  reachable s ->
  forall id e,
    lookup id (entities s) = Some e ->
    0 <= bs_rotation (e_blockState e) <= 3
    /\ Z.rem (bs_rotation (e_blockState e) + 2) 4
       = opposite (bs_rotation (e_blockState e))
    /\ torchAttachedDir (bs_rotation (e_blockState e))
       = opposite (bs_rotation (e_blockState e))
    /\ forall c, e_redstone e = Some c -> cls c = RepeaterComponent ->
         1 <= delay c <= 4 /\ 2 <= delay c * 2 <= 8.
Proof.
  intros Hr id e He. destruct (reachable_wf _ Hr) as (_ & Hent & _).
  apply lookup_In in He. rewrite Forall_forall in Hent.
  destruct (Hent _ He) as [Hrot Hc]. simpl in Hrot, Hc.
  split; [exact Hrot|]. split; [|split].
  - apply rear_is_opposite. exact Hrot.
  - apply torchAttachedDir_opposite. exact Hrot.
  - intros c Hcc _. rewrite Hcc in Hc. destruct Hc as (_ & _ & Hd). lia.
Qed.

Lemma reachable_rotations_and_delays_witness :
  bs_rotation (e_blockState (entity_of stale_clicked_scene 1)) = 0
  /\ Z.rem (bs_rotation (e_blockState (entity_of stale_clicked_scene 1)) + 2)
           4 = SOUTH
  /\ delay (this_of stale_clicked_scene 1) = 2
  /\ 1 <= delay (this_of stale_clicked_scene 1) <= 4.
Proof.
  destruct (reachable_rotations_and_delays _ stale_clicked_scene_reachable 1
              (entity_of stale_clicked_scene 1) eq_refl)
    as (_ & Hrear & _ & Hdelay).
  split; [reflexivity|]. split; [exact Hrear|]. split; [reflexivity|].
  destruct (Hdelay (this_of stale_clicked_scene 1) eq_refl eq_refl)
    as [Hd _].
  exact Hd.
Defined.

(** X7.  In every reachable state no queued entry is due before the current
    clock value; so the entries the next [tick()] dispatches are due exactly
    at its clock, or were enqueued with delay 0 at the current one: no entry
    ever fires late. *)
Theorem reachable_queue_never_overdue (s : simulator) :
  reachable s ->
  Forall (fun t => tickCount s <= tick_time t) (nextTickList s)
  /\ forall t,
       In t (dueTicks (tickCount s + 1) (nextTickList s)) ->
       tick_time t = tickCount s + 1 \/ tick_time t = tickCount s.
Proof.
  intros Hr. destruct (reachable_wf _ Hr) as (_ & _ & Hq).
  split; [exact Hq|].
  intros t Hin. unfold dueTicks in Hin. apply filter_In in Hin.
  destruct Hin as [Hin Hdue]. apply Z.leb_le in Hdue.
  unfold queue_ok in Hq. rewrite Forall_forall in Hq.
  specialize (Hq _ Hin). lia.
Qed.

Lemma reachable_queue_never_overdue_witness :
  tickCount repeater_scene = 1
  /\ Forall (fun t => 1 <= tick_time t) (nextTickList repeater_scene)
  /\ dueTicks 2 (nextTickList repeater_scene) = [].
Proof.
  destruct (reachable_queue_never_overdue _ repeater_scene_reachable)
    as (Hq & _).
  split; [reflexivity|]. split; [exact Hq | reflexivity].
Defined.

(** ** Motion *)

Lemma carried_refl e : carried e e.
Proof.
  unfold carried. split; [apply bs_frame_refl|]. split; [|reflexivity].
  unfold opt_frame. destruct (e_redstone e); auto using comp_frame_refl.
Qed.

Lemma opt_frame_trans a b c : opt_frame a b -> opt_frame b c -> opt_frame a c.
Proof.
  unfold opt_frame. destruct a, b, c; try tauto. apply comp_frame_trans.
Qed.

Lemma carried_trans a b c : carried a b -> carried b c -> carried a c.
Proof.
  intros (B1 & C1 & Z1) (B2 & C2 & Z2). unfold carried.
  split; [eauto using bs_frame_trans|].
  split; [eauto using opt_frame_trans | congruence].
Qed.

Lemma moved_by_refl s : moved_by (fun _ p => p) s s.
Proof.
  unfold moved_by. repeat split. intros k e He. exists e.
  auto using carried_refl.
Qed.

Lemma moved_by_trans t1 t2 a b c :
  moved_by t1 a b -> moved_by t2 b c ->
  moved_by (fun k p => t2 k (t1 k p)) a c.
Proof.
  intros (N1 & K1 & L1) (N2 & K2 & L2). unfold moved_by.
  split; [congruence|]. split; [congruence|].
  intros k e He. destruct (L1 _ _ He) as (e1 & He1 & Hc1 & Hp1).
  destruct (L2 _ _ He1) as (e2 & He2 & Hc2 & Hp2).
  exists e2. split; [exact He2|]. split; [eauto using carried_trans|].
  rewrite Hp2, Hp1. reflexivity.
Qed.

Lemma moved_by_ext t1 t2 s s' :
  (forall k p, t1 k p = t2 k p) -> moved_by t1 s s' -> moved_by t2 s s'.
Proof.
  intros Ht (N & K & L). unfold moved_by. repeat split; auto.
  intros k e He. destruct (L _ _ He) as (e' & He' & Hc & Hp).
  exists e'. rewrite <- Ht. auto.
Qed.

Lemma frame_moved_by s s' : notify_frame s s' -> moved_by (fun _ p => p) s s'.
Proof.
  intros (_ & _ & Hn & _ & _ & Ht). unfold moved_by.
  split; [exact Hn|]. split; [apply table_frame_keys, Ht|].
  intros k e He. pose proof (table_frame_lookup k _ _ Ht) as Hl.
  rewrite He in Hl. destruct (lookup k (entities s')) as [e'|];
    [|contradiction].
  exists e'. destruct Hl as (Hp & Hb & Hc).
  unfold carried. rewrite Hp. auto.
Qed.

Lemma moveTo_moved_by vec s item :
  moved_by (pushTarget vec item)
    s (with_entities
         (update (fst item)
            (moveTo (fst (snd item) + vx vec) (snd (snd item) + vy vec))
            (entities s)) s).
Proof.
  unfold moved_by. simpl. split; [reflexivity|].
  split; [apply update_keys|].
  intros k e He. unfold pushTarget. destruct (k =? fst item) eqn:E.
  - apply Z.eqb_eq in E. subst k. rewrite lookup_update_same, He. simpl.
    eexists. split; [reflexivity|]. split; [|reflexivity].
    unfold carried, moveTo, with_position. simpl.
    split; [apply bs_frame_refl|]. split; [|reflexivity].
    unfold opt_frame. destruct (e_redstone e); auto using comp_frame_refl.
  - rewrite lookup_update_other by (apply Z.eqb_neq in E; congruence).
    exists e. auto using carried_refl.
Qed.

Lemma doPush_moved_by fuel s x y direction s' :
  doPush fuel s x y direction = Done s' ->
  exists stack,
    collectStack (S (List.length (entities s))) s (toVector direction)
      (x + vx (toVector direction)) (y + vy (toVector direction))
    = Done stack
    /\ moved_by (pushTargets (toVector direction) (rev stack)) s s'.
Proof.
  intros H. unfold doPush in H. bind_inv H. rename a into stack.
  exists stack. split; [exact Hstep|]. clear Hstep.
  revert s s' H. induction (rev stack) as [|item items IH]; intros s s' H.
  - simpl in H. injection H as <-. apply moved_by_refl.
  - simpl in H. bind_inv H. destruct item as [id [ix iy]].
    bind_inv Hstep. apply notifyNeighbors_frame in Hstep0, Hstep.
    apply IH in H.
    eapply moved_by_ext;
      [|eapply moved_by_trans; [|exact H]].
    2:{ eapply moved_by_trans;
          [apply (moveTo_moved_by (toVector direction) s (id, (ix, iy)))|].
        eapply moved_by_trans; apply frame_moved_by; eassumption. }
    intros k p. reflexivity.
Qed.

Lemma pushTargets_cons vec item items k p :
  pushTargets vec (item :: items) k p
  = pushTargets vec items k (pushTarget vec item k p).
Proof. reflexivity. Qed.

Lemma pushTargets_notin vec items k p :
  ~ In k (map fst items) -> pushTargets vec items k p = p.
Proof.
  revert p. induction items as [|item items IH]; intros p Hnin;
    [reflexivity|].
  rewrite pushTargets_cons. simpl in Hnin. rewrite IH by tauto.
  unfold pushTarget. destruct (k =? fst item) eqn:E; [|reflexivity].
  apply Z.eqb_eq in E. subst. tauto.
Qed.


Lemma collectStack_spec s vec :
  forall fuel cx cy stack,
    collectStack fuel s vec cx cy = Done stack ->
    getBlockEntity s (cx + Z.of_nat (List.length stack) * vx vec)
      (cy + Z.of_nat (List.length stack) * vy vec) = None
    /\ forall i id ix iy,
         nth_error stack i = Some (id, (ix, iy)) ->
         ix = cx + Z.of_nat i * vx vec
         /\ iy = cy + Z.of_nat i * vy vec
         /\ exists e, getBlockEntity s ix iy = Some (id, e).
Proof.
  induction fuel as [|fuel IH]; simpl; intros cx cy stack H; [discriminate|].
  destruct (getBlockEntity s cx cy) as [[id0 e0]|] eqn:H0.
  - bind_inv H. injection H as <-. destruct (IH _ _ _ Hstep) as [Hend Hnth].
    split.
    + cbn [List.length]. rewrite Nat2Z.inj_succ.
      replace (cx + Z.succ (Z.of_nat (List.length a)) * vx vec)
        with (cx + vx vec + Z.of_nat (List.length a) * vx vec) by lia.
      replace (cy + Z.succ (Z.of_nat (List.length a)) * vy vec)
        with (cy + vy vec + Z.of_nat (List.length a) * vy vec) by lia.
      exact Hend.
    + intros [|i] id ix iy Hi; simpl in Hi.
      * injection Hi as <- <- <-. simpl.
        split; [lia|]. split; [lia|]. eauto.
      * destruct (Hnth _ _ _ _ Hi) as (Hx & Hy & He).
        rewrite Nat2Z.inj_succ. split; [lia|]. split; [lia|]. exact He.
  - injection H as <-. cbn [List.length Z.of_nat].
    replace (cx + 0 * vx vec) with cx by lia.
    replace (cy + 0 * vy vec) with cy by lia.
    split; [exact H0|]. intros [|i]; discriminate.
Qed.

Lemma found_position s x y id e :
  getBlockEntity s x y = Some (id, e) ->
  px (e_position e) = x /\ py (e_position e) = y.
Proof.
  intros H. apply find_some in H. destruct H as [_ H].
  unfold at_cell in H. simpl in H. apply andb_true_iff in H.
  rewrite !Z.eqb_eq in H. exact H.
Qed.


Lemma cardinal_vector_nonzero d :
  0 <= d <= 3 -> vx (toVector d) <> 0 \/ vy (toVector d) <> 0.
Proof.
  intros Hd. assert (d = 0 \/ d = 1 \/ d = 2 \/ d = 3) as [->|[->|[->| ->]]]
    by lia; simpl; lia.
Qed.



(** ** Extension and retraction *)

Lemma lookup_app_last id (l : list (Z * entity)) n ent :
  lookup id (l ++ [(n, ent)])
  = match lookup id l with
    | Some e => Some e
    | None => if n =? id then Some ent else None
    end.
Proof.
  induction l as [|[k e] l IH]; simpl; [reflexivity|].
  destruct (k =? id); auto.
Qed.

Lemma lookup_remove_other id k (l : list (Z * entity)) :
  k <> id ->
  lookup k (filter (fun ke => negb (fst ke =? id)) l) = lookup k l.
Proof.
  intros Hk. induction l as [|[k0 e] l IH]; simpl; [reflexivity|].
  destruct (k0 =? id) eqn:E; simpl.
  - apply Z.eqb_eq in E. subst k0.
    destruct (id =? k) eqn:E2; [apply Z.eqb_eq in E2; congruence | exact IH].
  - rewrite IH. reflexivity.
Qed.

Lemma lookup_remove_same id (l : list (Z * entity)) :
  lookup id (filter (fun ke => negb (fst ke =? id)) l) = None.
Proof.
  induction l as [|[k0 e] l IH]; simpl; [reflexivity|].
  destruct (k0 =? id) eqn:E; simpl; [exact IH|]. rewrite E. exact IH.
Qed.

Lemma lookup_None_keys id (l : list (Z * entity)) :
  lookup id l = None <-> ~ In id (map fst l).
Proof.
  induction l as [|[k e] l IH]; simpl; [tauto|].
  destruct (k =? id) eqn:E.
  - apply Z.eqb_eq in E. split; [intros H; discriminate H | tauto].
  - apply Z.eqb_neq in E. tauto.
Qed.

(** What [updateBlockState] can do to the entity of a given identifier. *)
Lemma lookup_updateBlockState s x y g k e :
  lookup k (entities s) = Some e ->
  exists e',
    lookup k (entities (updateBlockState s x y g)) = Some e'
    /\ e_position e' = e_position e
    /\ e_redstone e' = e_redstone e
    /\ (e_blockState e' = e_blockState e
        \/ e_blockState e' = g (e_blockState e)).
Proof.
  intros He. unfold updateBlockState.
  destruct (getBlockEntity s x y) as [[id e0]|];
    [|exists e; repeat split; auto].
  simpl. destruct (Z.eq_dec k id) as [-> | Hne].
  - rewrite lookup_update_same, He. simpl.
    eexists. split; [reflexivity|]. simpl. repeat split; auto.
  - rewrite lookup_update_other by exact Hne.
    exists e. repeat split; auto.
Qed.

Lemma lookup_None_updateBlockState s x y g k :
  lookup k (entities s) = None ->
  lookup k (entities (updateBlockState s x y g)) = None.
Proof.
  intros He. unfold updateBlockState.
  destruct (getBlockEntity s x y) as [[id e0]|]; [|exact He].
  simpl. apply lookup_None_keys. rewrite update_keys.
  apply lookup_None_keys. exact He.
Qed.

Lemma frame_lookup s s' k e :
  notify_frame s s' -> lookup k (entities s) = Some e ->
  exists e', lookup k (entities s') = Some e' /\ ent_frame e e'.
Proof.
  intros (_ & _ & _ & _ & _ & Ht) He.
  pose proof (table_frame_lookup k _ _ Ht) as Hl. rewrite He in Hl.
  destruct (lookup k (entities s')) as [e'|]; [eauto | contradiction].
Qed.

Lemma frame_lookup_None s s' k :
  notify_frame s s' -> lookup k (entities s) = None ->
  lookup k (entities s') = None.
Proof.
  intros (_ & _ & _ & _ & _ & Ht) He.
  pose proof (table_frame_lookup k _ _ Ht) as Hl. rewrite He in Hl.
  destruct (lookup k (entities s')); [contradiction | reflexivity].
Qed.

Lemma doPull_moved_by fuel s x y direction s' :
  doPull fuel s x y direction = Done s' -> exists t, moved_by t s s'.
Proof.
  intros H. unfold doPull in H.
  destruct (getBlockEntity s _ _) as [[id b]|];
    [|injection H as <-; eexists; apply moved_by_refl].
  destruct (immovable (e_blockState b));
    [injection H as <-; eexists; apply moved_by_refl|].
  bind_inv H. apply notifyNeighbors_frame in Hstep, H.
  eexists. eapply moved_by_trans;
    [apply (moveTo_moved_by (toVector direction) s (id, (x, y)))|].
  eapply moved_by_trans; apply frame_moved_by; eassumption.
Qed.

Lemma moved_by_lookup_None t s s' k :
  moved_by t s s' -> lookup k (entities s) = None ->
  lookup k (entities s') = None.
Proof.
  intros (_ & Hk & _) H. apply lookup_None_keys. rewrite Hk.
  apply lookup_None_keys. exact H.
Qed.

Lemma moved_by_this t s s' self c :
  moved_by t s s' -> getRedstone s self = Some c ->
  exists c', getRedstone s' self = Some c' /\ comp_frame c c'.
Proof.
  intros (_ & _ & Hl) Hc. unfold getRedstone in *.
  destruct (lookup self (entities s)) as [e|] eqn:He; [|discriminate].
  destruct (Hl _ _ He) as (e' & He' & (_ & Hr & _) & _).
  rewrite He'. unfold opt_frame in Hr. rewrite Hc in Hr.
  destruct (e_redstone e') as [c'|]; [eauto | contradiction].
Qed.

Lemma getRedstone_updateBlockState s x y g self :
  getRedstone (updateBlockState s x y g) self = getRedstone s self.
Proof.
  unfold getRedstone.
  destruct (lookup self (entities s)) as [e|] eqn:He.
  - destruct (lookup_updateBlockState s x y g _ _ He) as (e' & -> & _ & Hr & _).
    exact Hr.
  - rewrite (lookup_None_updateBlockState _ _ _ _ _ He). reflexivity.
Qed.

Lemma getRedstone_setThis_same s self f :
  getRedstone (setThis s self f) self = option_map f (getRedstone s self).
Proof.
  unfold getRedstone, setThis. simpl. rewrite lookup_update_same.
  destruct (lookup self (entities s)); reflexivity.
Qed.

Lemma getRedstone_setThis_other s self k f :
  k <> self -> getRedstone (setThis s self f) k = getRedstone s k.
Proof.
  intros Hk. unfold getRedstone, setThis. simpl.
  rewrite lookup_update_other by exact Hk. reflexivity.
Qed.

Lemma getRedstone_remove_other s id k :
  k <> id -> getRedstone (removeEntity id s) k = getRedstone s k.
Proof.
  intros Hk. unfold getRedstone, removeEntity. simpl.
  rewrite lookup_remove_other by exact Hk. reflexivity.
Qed.

Lemma nextId_updateBlockState s x y g :
  nextId (updateBlockState s x y g) = nextId s.
Proof.
  unfold updateBlockState.
  destruct (getBlockEntity s x y) as [[id e]|]; reflexivity.
Qed.

(** X9.  [retract] on an extended piston whose head is another entity: when
    it returns, the piston is not extended and names no head, the head it
    named is no longer in the table, and no other entity has been removed or
    created. *)
Theorem retract_removes_head (fuel : nat) (s : simulator) (self x y : Z)
    (e : entity) (this : component) (s' : simulator) :
  dispatched s self x y e ->
  e_redstone e = Some this ->
  extended this = true ->
  headId this <> self ->
  retract fuel s self x y = Done s' ->
  (exists pc, getRedstone s' self = Some pc
              /\ extended pc = false /\ headId pc = -1
              /\ cls pc = cls this)
  /\ (headId this <> -1 -> lookup (headId this) (entities s') = None)
  /\ nextId s' = nextId s
  /\ map fst (entities s')
     = filter (fun k => negb (k =? headId this) || (headId this =? -1))
         (map fst (entities s)).
Proof.
  intros Hd Hr Hext Hne H. unfold retract in H.
  rewrite (dispatched_this _ _ _ _ _ _ Hd Hr) in H. simpl in H.
  rewrite Hext in H. simpl in H.
  rewrite (dispatched_rotation _ _ _ _ _ Hd) in H. simpl in H.
  bind_inv H. rename a into s3.
  set (s2 := updateBlockState (setThis s self (set_extended false)) x y
               (set_bs_extended false)) in *.
  assert (H2 : getRedstone s2 self = Some (set_extended false this)).
  { unfold s2. rewrite getRedstone_updateBlockState, getRedstone_setThis_same.
    rewrite (getThis_Done _ _ _ (dispatched_this _ _ _ _ _ _ Hd Hr)).
    reflexivity. }
  assert (K2 : map fst (entities s2) = map fst (entities s)).
  { unfold s2, updateBlockState.
    destruct (getBlockEntity _ x y) as [[id0 e0]|]; unfold setThis; simpl;
      rewrite ?update_keys; reflexivity. }
  assert (N2 : nextId s2 = nextId s).
  { unfold s2, updateBlockState.
    destruct (getBlockEntity _ x y) as [[id0 e0]|]; reflexivity. }
  assert (H3 : (exists c3, getRedstone s3 self = Some c3
                           /\ extended c3 = false /\ headId c3 = -1
                           /\ cls c3 = cls this)
               /\ (headId this <> -1 ->
                   lookup (headId this) (entities s3) = None)
               /\ nextId s3 = nextId s
               /\ map fst (entities s3)
                  = filter (fun k => negb (k =? headId this)
                                     || (headId this =? -1))
                      (map fst (entities s))).
  { destruct (headId this =? -1) eqn:Ehead; simpl in Hstep.
    - injection Hstep as <-. apply Z.eqb_eq in Ehead.
      split; [|split; [|split]].
      + exists (set_extended false this). simpl. auto.
      + intros Hcontra. contradiction.
      + exact N2.
      + rewrite K2. clear.
        induction (map fst (entities s)) as [|k l IH]; simpl; [reflexivity|].
        rewrite orb_true_r. congruence.
    - apply notifyNeighbors_frame in Hstep.
      set (s2' := setThis (removeEntity (headId this) s2) self
                    (set_headId (-1))) in *.
      assert (H2' : getRedstone s2' self
                    = Some (set_headId (-1) (set_extended false this))).
      { unfold s2'. rewrite getRedstone_setThis_same.
        rewrite getRedstone_remove_other by congruence.
        rewrite H2. reflexivity. }
      destruct (frame_getRedstone _ _ _ _ Hstep H2') as (c3 & Hc3 & Hfr).
      split; [|split; [|split]].
      + exists c3. split; [exact Hc3|].
        destruct Hfr as (F1 & _ & _ & _ & _ & F6 & _ & F8 & _).
        simpl in F1, F6, F8. auto.
      + intros _. eapply frame_lookup_None; [exact Hstep|].
        unfold s2', setThis, removeEntity. simpl.
        rewrite lookup_update_other by congruence.
        apply lookup_remove_same.
      + destruct Hstep as (_ & _ & Hn & _). rewrite Hn. exact N2.
      + destruct Hstep as (_ & _ & _ & _ & _ & Ht).
        rewrite (table_frame_keys _ _ Ht).
        unfold s2', setThis, removeEntity. simpl. rewrite update_keys.
        rewrite <- K2. clear.
        induction (entities s2) as [|[k e0] l IH]; simpl; [reflexivity|].
        rewrite orb_false_r.
        destruct (negb (k =? headId this)); simpl; congruence. }
  destruct H3 as ((c3 & Hc3 & He3 & Hh3 & Hk3) & Hgone & N3 & K3).
  assert (Hfin : exists t, moved_by t s3 s').
  { destruct (isSticky this).
    - eapply doPull_moved_by; eassumption.
    - injection H as <-. eexists. apply moved_by_refl. }
  destruct Hfin as (t & Hm).
  destruct (moved_by_this _ _ _ _ _ Hm Hc3) as (pc & Hpc & Hfr).
  assert (Hgone' : headId this <> -1 ->
                   lookup (headId this) (entities s') = None).
  { intros Hh. eapply moved_by_lookup_None; [exact Hm | auto]. }
  split; [|split; [|split]].
  - exists pc. split; [exact Hpc|].
    destruct Hfr as (F1 & _ & _ & _ & _ & F6 & _ & F8 & _).
    repeat split; congruence.
  - exact Hgone'.
  - destruct Hm as (Hn & _). congruence.
  - destruct Hm as (_ & Hk & _). congruence.
Qed.

Lemma retracting_scene_reached :
  perform (piston_ops ++ [click 6 5]) (newSimulator 64 48)
  = Done retracting_scene.
Proof. vm_compute. reflexivity. Qed.

Lemma retract_removes_head_witness :
  exists s' pc,
    retract fuel50 retracting_scene 1 5 5 = Done s'
    /\ getRedstone s' 1 = Some pc
    /\ extended pc = false /\ headId pc = -1
    /\ headId (this_of retracting_scene 1) = 3
    /\ lookup 3 (entities s') = None
    /\ map fst (entities s') = [1; 2].
Proof.
  assert (Hs' : retract fuel50 retracting_scene 1 5 5
                = Done (state_of (retract fuel50 retracting_scene 1 5 5)))
    by (vm_compute; reflexivity).
  destruct (retract_removes_head fuel50 retracting_scene 1 5 5
              (entity_of retracting_scene 1) (this_of retracting_scene 1)
              (state_of (retract fuel50 retracting_scene 1 5 5)))
    as ((pc & Hpc & He & Hh & _) & Hgone & _ & Hkeys).
  - split; reflexivity.
  - reflexivity.
  - reflexivity.
  - vm_compute. discriminate.
  - exact Hs'.
  - eexists. exists pc. split; [exact Hs'|]. split; [exact Hpc|].
    split; [exact He|]. split; [exact Hh|]. split; [reflexivity|].
    split; [apply Hgone; vm_compute; discriminate|].
    rewrite Hkeys. reflexivity.
Defined.

Lemma extending_scene_reached :
  perform (firstn 3 piston_ops) (newSimulator 64 48) = Done extending_scene.
Proof. vm_compute. reflexivity. Qed.

(** What a successful [extend] leaves. *)
Lemma extend_result (fuel : nat) (s : simulator) (self x y : Z)
    (e : entity) (this : component) (s' : simulator) :
  wf s ->
  dispatched s self x y e ->
  e_redstone e = Some this ->
  extended this = false ->
  canPush s x y (bs_rotation (e_blockState e)) = Done true ->
  extend fuel s self x y = Done s' ->
  let rotation := bs_rotation (e_blockState e) in
  let vec := toVector rotation in
  nextId s' = nextId s + 1
  /\ (exists pc,
        getRedstone s' self = Some pc
        /\ extended pc = true /\ headId pc = nextId s
        /\ cls pc = cls this /\ isSticky pc = isSticky this)
  /\ exists h hc,
       lookup (nextId s) (entities s') = Some h
       /\ e_position h = {| px := x + vx vec; py := y + vy vec; pz := 0 |}
       /\ bs_type (e_blockState h) = "minecraft:piston_head"
       /\ bs_rotation (e_blockState h) = rotation
       /\ e_redstone h = Some hc
       /\ cls hc = PistonHeadComponent
       /\ sourcePistonId hc = self
       /\ isSticky hc = isSticky this.
Proof.
  intros Hwf Hd Hr Hext Hcan H rotation vec.
  pose proof Hd as [Hfound Hlook].
  destruct (wf_found _ _ _ _ _ Hwf Hfound) as [Hrot _].
  pose proof (cardinal_vector_nonzero _ Hrot) as Hvec. fold rotation vec in Hvec.
  destruct Hwf as ((Hnd & Hpos & Hlt) & Hent & Hq).
  assert (Hwf : wf s) by (repeat split; assumption).
  assert (Hself : 0 < self < nextId s).
  { apply lookup_In in Hlook. apply (in_map fst) in Hlook.
    rewrite Forall_forall in Hlt. exact (Hlt _ Hlook). }
  destruct (found_position _ _ _ _ _ Hfound) as [Hpx Hpy].
  unfold extend in H.
  rewrite (dispatched_this _ _ _ _ _ _ Hd Hr) in H. simpl in H.
  rewrite Hext, Hfound in H. rewrite Hcan in H.
  simpl in H. fold rotation in H. bind_inv H. rename a into s1. rename Hstep into Hpush.
  bind_inv H. destruct a as [s5 newHead]. rename Hstep into Hcreate.
  fold vec in H, Hcreate.
  (* the push leaves the piston where it is *)
  pose proof (wf_doPush _ _ _ _ _ _ Hwf Hpush) as Hwf1.
  destruct (doPush_moved_by _ _ _ _ _ _ Hpush) as (stack & Hstack & Hmoved).
  fold vec in Hstack, Hmoved.
  destruct (collectStack_spec _ _ _ _ _ _ Hstack) as [_ Hnth].
  assert (Hnotin : ~ In self (map fst (rev stack))).
  { rewrite map_rev, <- in_rev. intros Hin.
    apply in_map_iff in Hin. destruct Hin as ([id' [ix iy]] & Hid & Hin).
    simpl in Hid. subst id'. apply In_nth_error in Hin.
    destruct Hin as [i Hi].
    destruct (Hnth _ _ _ _ Hi) as (Hix & Hiy & e0 & Hf).
    pose proof (find_lookup_unique _ _ _ _ Hnd Hf) as Hl0.
    assert (e0 = e) by congruence. subst e0.
    destruct (found_position _ _ _ _ _ Hf) as [Qx Qy].
    assert (Zx : (Z.of_nat i + 1) * vx vec = 0) by lia.
    assert (Zy : (Z.of_nat i + 1) * vy vec = 0) by lia.
    apply Z.mul_eq_0 in Zx, Zy. lia. }
  destruct Hmoved as (N1 & K1 & L1).
  destruct (L1 _ _ Hlook) as (e1 & Hl1 & (_ & Hc1 & _) & Hp1).
  rewrite pushTargets_notin in Hp1 by exact Hnotin.
  unfold opt_frame in Hc1. rewrite Hr in Hc1.
  destruct (e_redstone e1) as [this1|] eqn:Hr1; [|contradiction].
  (* the piston is marked extended *)
  set (s3 := updateBlockState (setThis s1 self (set_extended true)) x y
               (set_bs_extended true)) in *.
  assert (Hwf3 : wf s3).
  { unfold s3. apply wf_updateBlockState; [reflexivity|].
    apply wf_setThis; [solve [comp_ok_tac] | exact Hwf1]. }
  assert (Hl2 : lookup self (entities (setThis s1 self (set_extended true)))
                = Some (with_redstone (set_extended true) e1)).
  { unfold setThis. simpl. rewrite lookup_update_same, Hl1. reflexivity. }
  destruct (lookup_updateBlockState _ x y (set_bs_extended true) _ _ Hl2)
    as (e3 & Hl3 & Hp3 & Hr3 & _).
  fold s3 in Hl3. simpl in Hp3, Hr3. rewrite Hr1 in Hr3. simpl in Hr3.
  assert (N3 : nextId s3 = nextId s).
  { unfold s3. rewrite nextId_updateBlockState. exact N1. }
  (* whatever is in the head cell is not the piston *)
  set (s4 := match getBlockEntity s3 (x + vx vec) (y + vy vec) with
             | Some (existing, _) => removeEntity existing s3
             | None => s3
             end) in *.
  assert (Hl4 : lookup self (entities s4) = Some e3).
  { unfold s4.
    destruct (getBlockEntity s3 (x + vx vec) (y + vy vec))
      as [[existing ee]|] eqn:Hex; [|exact Hl3].
    unfold removeEntity. simpl. rewrite lookup_remove_other; [exact Hl3|].
    intros ->. destruct Hwf3 as ((Hnd3 & _) & _).
    pose proof (find_lookup_unique _ _ _ _ Hnd3 Hex) as Hle.
    assert (ee = e3) by congruence. subst ee.
    destruct (found_position _ _ _ _ _ Hex) as [Qx Qy].
    rewrite Hp3, Hp1 in Qx, Qy. lia. }
  assert (Hwf4 : wf s4).
  { unfold s4. destruct (getBlockEntity s3 _ _) as [[existing ee]|];
      [apply wf_removeEntity|]; exact Hwf3. }
  assert (N4 : nextId s4 = nextId s).
  { unfold s4. destruct (getBlockEntity s3 _ _) as [[existing ee]|];
      exact N3. }
  (* the head is created *)
  unfold createEntity in Hcreate. simpl in Hcreate.
  bind_inv Hcreate. injection Hcreate as <- <-. rewrite N4 in *.
  set (head0 := {| e_position := {| px := x + vx vec; py := y + vy vec;
                                    pz := 0 |};
                   e_redstone := Some (newComponent PistonHeadComponent);
                   e_blockState := newBlockState "minecraft:piston_head" |})
    in *.
  set (s4' := {| width := width s4; height := height s4;
                 entities := entities s4 ++ [(nextId s, head0)];
                 nextId := nextId s + 1;
                 tickCount := tickCount s4;
                 nextTickList := nextTickList s4 |}) in *.
  assert (Hfr5 : notify_frame s4' a).
  { unfold onPlaced in Hstep. bind_inv Hstep.
    destruct (cls a0);
      try (eapply onNeighborUpdate_frame; eassumption).
    injection Hstep as <-. apply schedule_frame. }
  assert (Hhead4 : lookup (nextId s) (entities s4) = None).
  { apply lookup_None_keys. intros Hin.
    destruct Hwf4 as ((_ & _ & Hlt4) & _). rewrite Forall_forall in Hlt4.
    specialize (Hlt4 _ Hin). lia. }
  assert (Hls : lookup self (entities s4') = Some e3).
  { unfold s4'. simpl. rewrite lookup_app_last, Hl4. reflexivity. }
  assert (Hlh : lookup (nextId s) (entities s4') = Some head0).
  { unfold s4'. simpl. rewrite lookup_app_last, Hhead4, Z.eqb_refl.
    reflexivity. }
  destruct (frame_lookup _ _ _ _ Hfr5 Hls) as (e5 & Hl5 & (_ & _ & Hc5)).
  destruct (frame_lookup _ _ _ _ Hfr5 Hlh) as (h5 & Hh5 & (Hhp5 & Hhb5 & Hhc5)).
  unfold opt_frame in Hc5, Hhc5. rewrite Hr3 in Hc5. simpl in Hhc5.
  destruct (e_redstone e5) as [this5|] eqn:Hr5; [|contradiction].
  destruct (e_redstone h5) as [hc5|] eqn:Hhr5; [|contradiction].
  (* the links are written and the neighbours are told *)
  apply notifyNeighbors_frame in H.
  assert (Hne : self <> nextId s) by lia.
  match type of H with
  | notify_frame ?s8 _ =>
      assert (Hls8 : lookup self (entities s8)
                     = Some (with_redstone (set_headId (nextId s)) e5));
      [|assert (Hlh8 : lookup (nextId s) (entities s8)
                       = Some (with_blockState
                                 (fun b => set_bs_isSticky (isSticky this)
                                             (set_bs_rotation rotation b))
                                 (with_redstone
                                    (fun c => set_isSticky (isSticky this)
                                                (set_sourcePistonId self c))
                                    h5)))]
  end.
  { unfold setThis. simpl. rewrite lookup_update_same.
    rewrite !lookup_update_other by congruence. rewrite Hl5. reflexivity. }
  { unfold setThis. simpl.
    rewrite lookup_update_other by congruence.
    rewrite !lookup_update_same, Hh5. reflexivity. }
  destruct (frame_lookup _ _ _ _ H Hls8) as (e8 & Hl8 & (_ & _ & Hc8)).
  destruct (frame_lookup _ _ _ _ H Hlh8) as (h8 & Hh8 & (Hhp8 & Hhb8 & Hhc8)).
  unfold opt_frame in Hc8, Hhc8. simpl in Hc8, Hhc8, Hhp8, Hhb8.
  rewrite Hr5 in Hc8. rewrite Hhr5 in Hhc8. simpl in Hc8, Hhc8.
  destruct (e_redstone e8) as [pc|] eqn:Hr8; [|contradiction].
  destruct (e_redstone h8) as [hc|] eqn:Hhr8; [|contradiction].
  split; [|split].
  - destruct H as (_ & _ & Hn & _). rewrite Hn. simpl.
    destruct Hfr5 as (_ & _ & Hn5 & _). rewrite Hn5. reflexivity.
  - exists pc. unfold getRedstone. rewrite Hl8. split; [exact Hr8|].
    destruct Hc8 as (A1 & _ & _ & _ & _ & A6 & A7 & A8 & _).
    destruct Hc5 as (B1 & _ & _ & _ & _ & B6 & B7 & _).
    destruct Hc1 as (C1 & _ & _ & _ & _ & _ & C7 & _).
    simpl in *. repeat split; congruence.
  - exists h8, hc. split; [exact Hh8|].
    destruct Hhb8 as (T8 & R8 & _). destruct Hhb5 as (T5 & R5 & _).
    destruct Hhc8 as (A1 & _ & _ & _ & _ & _ & A7 & _ & A9 & _).
    destruct Hhc5 as (B1 & _).
    simpl in *. repeat split; congruence.
Qed.

(** X10.  [extend] on a retracted piston of a well-formed state whose push
    test succeeds: when it returns, exactly one identifier has been issued,
    the piston is extended and names the new entity as its head, and the new
    entity is a piston head in the cell in front of the piston, with the
    piston's rotation and sticky flag and naming the piston as its source. *)
Theorem extend_links_head (fuel : nat) (s : simulator) (self x y : Z)
    (e : entity) (this : component) (s' : simulator) :
  wf s ->
  dispatched s self x y e ->
  e_redstone e = Some this ->
  extended this = false ->
  canPush s x y (bs_rotation (e_blockState e)) = Done true ->
  extend fuel s self x y = Done s' ->
  let rotation := bs_rotation (e_blockState e) in
  let vec := toVector rotation in
  nextId s' = nextId s + 1
  /\ (exists pc,
        getRedstone s' self = Some pc
        /\ extended pc = true /\ headId pc = nextId s
        /\ cls pc = cls this /\ isSticky pc = isSticky this)
  /\ exists h hc,
       lookup (nextId s) (entities s') = Some h
       /\ e_position h = {| px := x + vx vec; py := y + vy vec; pz := 0 |}
       /\ bs_type (e_blockState h) = "minecraft:piston_head"
       /\ bs_rotation (e_blockState h) = rotation
       /\ e_redstone h = Some hc
       /\ cls hc = PistonHeadComponent
       /\ sourcePistonId hc = self
       /\ isSticky hc = isSticky this.
Proof.
  intros Hwf Hd Hr Hext Hcan H.
  exact (extend_result fuel s self x y e this s' Hwf Hd Hr Hext Hcan H).
Qed.

Lemma extend_links_head_witness :
  exists s' pc h,
    extend fuel50 extending_scene 1 5 5 = Done s'
    /\ getRedstone s' 1 = Some pc
    /\ extended pc = true /\ headId pc = 3
    /\ lookup 3 (entities s') = Some h
    /\ e_position h = {| px := 5; py := 4; pz := 0 |}
    /\ bs_type (e_blockState h) = "minecraft:piston_head".
Proof.
  assert (Hs' : extend fuel50 extending_scene 1 5 5
                = Done (state_of (extend fuel50 extending_scene 1 5 5)))
    by (vm_compute; reflexivity).
  destruct (extend_links_head fuel50 extending_scene 1 5 5
              (entity_of extending_scene 1) (this_of extending_scene 1)
              (state_of (extend fuel50 extending_scene 1 5 5)))
    as (_ & (pc & Hpc & He & Hh & _) & (h & hc & Hl & Hp & Ht & _)).
  - apply (perform_wf (firstn 3 piston_ops) ltac:(scenario_ops) _ _
             (wf_new 64 48) extending_scene_reached).
  - split; reflexivity.
  - reflexivity.
  - reflexivity.
  - reflexivity.
  - exact Hs'.
  - eexists. exists pc, h. split; [exact Hs'|]. split; [exact Hpc|].
    split; [exact He|]. split; [exact Hh|]. split; [exact Hl|].
    split; [exact Hp | exact Ht].
Defined.

(** ** The push limit *)







(** ** The lever *)






(** ** Placing and erasing *)

Lemma createEntity_layout fuel s kind x y s' id :
  createEntity fuel s kind x y = Done (s', id) ->
  id = nextId s
  /\ nextId s' = nextId s + 1
  /\ width s' = width s /\ height s' = height s
  /\ layout s' = layout s ++ [(nextId s, {| px := x; py := y; pz := 0 |})].
Proof.
  intros Hc. unfold createEntity in Hc. simpl in Hc.
  set (s1 := {| width := width s; height := height s;
                entities := _; nextId := nextId s + 1;
                tickCount := tickCount s;
                nextTickList := nextTickList s |}) in Hc.
  assert (H1 : layout s1
               = layout s ++ [(nextId s, {| px := x; py := y; pz := 0 |})]).
  { unfold layout, s1. simpl. rewrite map_app. reflexivity. }
  destruct (componentRegistry kind) as [k|]; simpl in Hc.
  - bind_inv Hc. injection Hc as <- <-.
    split; [reflexivity|].
    unfold onPlaced in Hstep. bind_inv Hstep.
    assert (Hfr : notify_frame s1 a).
    { destruct (cls a0);
        try (eapply onNeighborUpdate_frame; eassumption).
      injection Hstep as <-. apply schedule_frame. }
    rewrite (frame_layout _ _ Hfr).
    destruct Hfr as (Hw & Hh & Hn & _). rewrite Hn, Hw, Hh. auto.
  - injection Hc as <- <-. auto.
Qed.

Lemma getBlockEntity_layout s x y :
  option_map fst (getBlockEntity s x y)
  = option_map fst (find (cell_of x y) (layout s)).
Proof.
  unfold getBlockEntity, layout.
  induction (entities s) as [|[k e] l IH]; simpl; [reflexivity|].
  unfold at_cell, cell_of at 1. simpl.
  destruct ((px (e_position e) =? x) && (py (e_position e) =? y));
    [reflexivity | exact IH].
Qed.

Lemma layout_removeEntity id s :
  layout (removeEntity id s)
  = filter (fun kp => negb (fst kp =? id)) (layout s).
Proof.
  unfold layout, removeEntity. simpl.
  induction (entities s) as [|[k e] l IH]; simpl; [reflexivity|].
  destruct (negb (k =? id)); simpl; rewrite IH; reflexivity.
Qed.

Lemma filter_fresh (n : Z) (l : list (Z * position)) :
  Forall (fun k => 0 < k < n) (map fst l) ->
  filter (fun kp => negb (fst kp =? n)) l = l.
Proof.
  induction l as [|[k p] l IH]; simpl; [reflexivity|].
  intros H. inversion H as [|? ? Hk Hl]; subst.
  replace (k =? n) with false by (symmetry; apply Z.eqb_neq; lia).
  simpl. rewrite IH; auto.
Qed.

Lemma layout_keys s : map fst (layout s) = map fst (entities s).
Proof. unfold layout. rewrite map_map. reflexivity. Qed.

Lemma in_grid s x y :
  0 <= x < width s -> 0 <= y < height s ->
  (x <? 0) || (x >=? width s) || (y <? 0) || (y >=? height s) = false.
Proof.
  intros Hx Hy. rewrite !orb_false_iff, !Z.geb_leb, !Z.ltb_ge, !Z.leb_gt. lia.
Qed.

(** X12.  Placing a block on an empty cell of the grid and erasing it again
    puts every other block back where it was, under the identifier it had:
    the table of identifiers and positions is the one before the placement
    and the cell is empty again.  The identifier is spent: [nextId] stays
    one higher. *)
Theorem place_then_erase_restores_layout (fuel : nat) (s : simulator)
    (kind : string) (x y : Z) (s1 s2 : simulator) :
  wf s ->
  0 <= x < width s -> 0 <= y < height s ->
  getBlockEntity s x y = None ->
  kind <> "erase" ->
  placeOrInteract fuel s kind x y = Done s1 ->
  placeOrInteract fuel s1 "erase" x y = Done s2 ->
  (exists e1, getBlockEntity s1 x y = Some (nextId s, e1))
  /\ layout s2 = layout s
  /\ getBlockEntity s2 x y = None
  /\ nextId s2 = nextId s + 1.
Proof.
  intros Hwf Hx Hy Hnone Hkind H1 H2.
  unfold placeOrInteract in H1. rewrite (in_grid s x y Hx Hy), Hnone in H1.
  replace (String.eqb kind "erase") with false in H1
    by (symmetry; apply String.eqb_neq; exact Hkind).
  bind_inv H1. destruct a as [s1' id]. injection H1 as ->.
  destruct (createEntity_layout _ _ _ _ _ _ _ Hstep)
    as (-> & Hn1 & Hw1 & Hh1 & Hl1).
  assert (Hfind : find (cell_of x y) (layout s) = None).
  { pose proof (getBlockEntity_layout s x y) as H. rewrite Hnone in H.
    destruct (find (cell_of x y) (layout s)); [discriminate H | reflexivity]. }
  assert (Hat : option_map fst (getBlockEntity s1 x y) = Some (nextId s)).
  { rewrite getBlockEntity_layout, Hl1, find_app, Hfind. simpl.
    unfold cell_of. simpl. rewrite !Z.eqb_refl. reflexivity. }
  unfold placeOrInteract in H2.
  rewrite in_grid in H2 by (rewrite ?Hw1, ?Hh1; assumption).
  destruct (getBlockEntity s1 x y) as [[id e1]|]; [|discriminate Hat].
  simpl in Hat. injection Hat as ->. simpl in H2.
  apply notifyNeighbors_frame in H2.
  assert (Hl2 : layout s2 = layout s).
  { rewrite (frame_layout _ _ H2), layout_removeEntity, Hl1, filter_app.
    simpl. rewrite Z.eqb_refl. simpl. rewrite app_nil_r.
    apply filter_fresh. rewrite layout_keys.
    destruct Hwf as ((_ & _ & Hlt) & _). exact Hlt. }
  split; [eauto|]. split; [exact Hl2|]. split.
  - pose proof (getBlockEntity_layout s2 x y) as H.
    rewrite Hl2, Hfind in H.
    destruct (getBlockEntity s2 x y); [discriminate H | reflexivity].
  - destruct H2 as (_ & _ & Hn & _). rewrite Hn. exact Hn1.
Qed.

Lemma place_then_erase_restores_layout_witness :
  exists s1 s2,
    placeOrInteract fuel50 repeater_scene "minecraft:redstone_torch" 20 21
    = Done s1
    /\ placeOrInteract fuel50 s1 "erase" 20 21 = Done s2
    /\ layout s2 = layout repeater_scene
    /\ nextId s2 = nextId repeater_scene + 1.
Proof.
  assert (H1 : placeOrInteract fuel50 repeater_scene
                 "minecraft:redstone_torch" 20 21
               = Done (state_of
                         (placeOrInteract fuel50 repeater_scene
                            "minecraft:redstone_torch" 20 21)))
    by (vm_compute; reflexivity).
  set (s1 := state_of (placeOrInteract fuel50 repeater_scene
                         "minecraft:redstone_torch" 20 21)) in *.
  assert (H2 : placeOrInteract fuel50 s1 "erase" 20 21
               = Done (state_of (placeOrInteract fuel50 s1 "erase" 20 21)))
    by (vm_compute; reflexivity).
  destruct (place_then_erase_restores_layout fuel50 repeater_scene
              "minecraft:redstone_torch" 20 21 s1
              (state_of (placeOrInteract fuel50 s1 "erase" 20 21)))
    as (_ & Hl & _ & Hn).
  - exact repeater_scene_wf.
  - change (0 <= 20 < 64). lia.
  - change (0 <= 21 < 48). lia.
  - reflexivity.
  - discriminate.
  - exact H1.
  - exact H2.
  - exists s1, (state_of (placeOrInteract fuel50 s1 "erase" 20 21)).
    split; [exact H1|]. split; [exact H2|]. split; [exact Hl | exact Hn].
Defined.

(** ** The context menu *)

Lemma powerInto_setThis s self f x y d :
  (forall c r t, powerOutputOf (f c) r t = powerOutputOf c r t) ->
  powerInto (setThis s self f) x y d = powerInto s x y d.
Proof.
  intros Hout. unfold powerInto, getBlockEntity, setThis. simpl.
  pose proof (find_update_cases (x + vx (toVector d)) (y + vy (toVector d))
                self (with_redstone f) (entities s)
                (fun _ => eq_refl)) as H.
  destruct (find _ (entities s)) as [[k e]|]; [|rewrite H; reflexivity].
  destruct H as [-> | ->]; [reflexivity|]. simpl.
  destruct (e_redstone e); simpl; [apply Hout | reflexivity].
Qed.

(** An assignment to a component leaves every cell with the occupant it
    had, block state included. *)
Lemma setThis_found s id f x y :
  match getBlockEntity s x y with
  | None => getBlockEntity (setThis s id f) x y = None
  | Some (id', e') =>
      exists eA,
        getBlockEntity (setThis s id f) x y = Some (id', eA)
        /\ e_blockState eA = e_blockState e'
  end.
Proof.
  unfold getBlockEntity, setThis. simpl.
  pose proof (find_update_cases x y id (with_redstone f) (entities s)
                (fun _ => eq_refl)) as H.
  destruct (find _ (entities s)) as [[k e]|]; [|exact H].
  destruct H as [H | H]; rewrite H; eauto.
Qed.

(** A commit made by a component for the cell [(x, y)], wherever the
    component's own entity is: the component is assigned, its entity stays
    where it is. *)
Lemma commit_lookup_this s id x y g h e this :
  lookup id (entities s) = Some e ->
  e_redstone e = Some this ->
  exists e2,
    lookup id (entities (commit s id x y g h)) = Some e2
    /\ e_position e2 = e_position e
    /\ e_redstone e2 = Some (g this).
Proof.
  intros Hl Hr. unfold commit.
  assert (H1 : lookup id (entities (setThis s id g))
               = Some (with_redstone g e)).
  { unfold setThis. simpl. rewrite lookup_update_same, Hl. reflexivity. }
  destruct (lookup_updateBlockState _ x y h _ _ H1) as (e2 & H2 & Hp & Hc & _).
  exists e2. split; [exact H2|]. split; [exact Hp|].
  rewrite Hc. simpl. rewrite Hr. reflexivity.
Qed.

(** The block state such a commit patches is that of the block found at
    [(x, y)], whichever it is. *)
Lemma commit_patches_occupant s id x y g h id' e' :
  NoDup (map fst (entities s)) ->
  getBlockEntity s x y = Some (id', e') ->
  exists eC,
    getBlockEntity (commit s id x y g h) x y = Some (id', eC)
    /\ e_blockState eC = h (e_blockState e').
Proof.
  intros Hnd Hf. unfold commit.
  pose proof (setThis_found s id g x y) as H2. rewrite Hf in H2.
  destruct H2 as (eB & HfB & HbB).
  assert (Hnd2 : NoDup (map fst (entities (setThis s id g)))).
  { unfold setThis. simpl. rewrite update_keys. exact Hnd. }
  pose proof (find_lookup_unique _ _ _ _ Hnd2 HfB) as HlB.
  unfold updateBlockState. rewrite HfB.
  unfold getBlockEntity in *. simpl.
  destruct (find_update_owner x y id' eB (with_blockState h) _ HfB HlB
              eq_refl) as [Hfind _].
  eexists. split; [exact Hfind|]. simpl. rewrite HbB. reflexivity.
Qed.

Lemma frame_found s s' x y id e :
  notify_frame s s' -> getBlockEntity s x y = Some (id, e) ->
  exists e', getBlockEntity s' x y = Some (id, e') /\ ent_frame e e'.
Proof.
  intros (_ & _ & _ & _ & _ & Ht) Hf.
  pose proof (table_frame_find x y _ _ Ht) as H.
  unfold getBlockEntity in *. rewrite Hf in H.
  destruct (find _ (entities s')) as [[k e']|]; [|contradiction].
  destruct H as [-> Hfr]. eauto.
Qed.

Lemma setThis_layout s id f : layout (setThis s id f) = layout s.
Proof. unfold layout, setThis. simpl. apply update_layout. reflexivity. Qed.

Lemma delay_item_once fuel s id detached x y e this s1 :
  lookup id (entities s) = Some e ->
  e_redstone e = Some this ->
  cls this = RepeaterComponent ->
  menuDelay fuel s id detached x y = Done s1 ->
  exists e1 c1,
    lookup id (entities s1) = Some e1
    /\ e_redstone e1 = Some c1
    /\ cls c1 = RepeaterComponent
    /\ delay c1 = Z.rem (delay this) 4 + 1
    /\ e_position e1 = e_position e
    /\ layout s1 = layout s
    /\ (locked this = true -> s1 = setThis s id cycleDelay)
    /\ (locked this = false ->
        exists id' e',
          getBlockEntity s x y = Some (id', e')
          /\ let on := powerInto s x y
                         (Z.rem (bs_rotation (e_blockState e') + 2) 4) >? 0 in
             powered c1 = on
             /\ powerLevel c1 = (if on then 15 else 0)
             /\ (NoDup (map fst (entities s)) ->
                 exists e1',
                   getBlockEntity s1 x y = Some (id', e1')
                   /\ bs_type (e_blockState e1')
                      = (if on then "minecraft:repeater_on"
                         else "minecraft:repeater")
                   /\ bs_powered (e_blockState e1') = on)).
Proof.
  intros Hl Hr Hcls H. unfold menuDelay, menuItem in H. rewrite Hl in H.
  set (sA := setThis s id cycleDelay) in *.
  assert (HlA : lookup id (entities sA) = Some (with_redstone cycleDelay e)).
  { unfold sA, setThis. simpl. rewrite lookup_update_same, Hl. reflexivity. }
  assert (HrA : e_redstone (with_redstone cycleDelay e)
                = Some (cycleDelay this))
    by (simpl; rewrite Hr; reflexivity).
  unfold onScheduledTick, getThis, getRedstone in H.
  rewrite HlA, HrA in H. simpl in H. rewrite Hcls in H.
  destruct (locked this) eqn:Hlock.
  - injection H as <-.
    exists (with_redstone cycleDelay e), (cycleDelay this).
    split; [exact HlA|]. split; [exact HrA|]. split; [exact Hcls|].
    split; [reflexivity|]. split; [reflexivity|].
    split; [apply setThis_layout|].
    split; [reflexivity | intros Hf; discriminate Hf].
  - pose proof (setThis_found s id cycleDelay x y) as Hocc. fold sA in Hocc.
    unfold rotationAt in H.
    destruct (getBlockEntity s x y) as [[id' e']|] eqn:Hf;
      [|rewrite Hocc in H; discriminate H].
    destruct Hocc as (eA & HfA & HbA). rewrite HfA in H. simpl in H.
    rewrite getPower_total in H. simpl in H.
    assert (Hpow : forall d, powerInto sA x y d = powerInto s x y d)
      by (intros d; unfold sA; apply powerInto_setThis; reflexivity).
    rewrite !Hpow, HbA in H.
    set (on := powerInto s x y
                 (Z.rem (bs_rotation (e_blockState e') + 2) 4) >? 0) in *.
    match type of H with
    | notifyNeighbors _ (updateBlockState (setThis _ _ ?g) _ _ ?h) _ _ = _ =>
        fold (commit sA id x y g h) in H;
        destruct (commit_lookup_this sA id x y g h _ _ HlA HrA)
          as (e2 & Hl2 & Hp2 & Hr2);
        pose proof (commit_layout sA id x y g h) as [Hlay2 _];
        pose proof (commit_patches_occupant sA id x y g h id' eA) as Hpatch
    end.
    apply notifyNeighbors_frame in H.
    destruct (frame_lookup _ _ _ _ H Hl2) as (e1 & Hl1 & (Hp1 & _ & Hc1)).
    unfold opt_frame in Hc1. rewrite Hr2 in Hc1.
    destruct (e_redstone e1) as [c1|] eqn:Hr1; [|contradiction].
    destruct Hc1 as (C1 & C2 & C3 & _ & _ & _ & _ & _ & _ & C10).
    simpl in C1, C2, C3, C10.
    exists e1, c1. split; [exact Hl1|]. split; [exact Hr1|].
    split; [congruence|]. split; [exact C2|].
    split; [rewrite Hp1, Hp2; reflexivity|].
    split; [rewrite (frame_layout _ _ H), Hlay2; apply setThis_layout|].
    split; [intros Hf'; discriminate Hf'|]. intros _.
    exists id', e'. split; [reflexivity|]. cbv zeta.
    split; [exact C3|]. split; [apply C10; congruence|].
    intros Hnd.
    destruct Hpatch as (eC & HfC & HbC);
      [unfold sA, setThis; simpl; rewrite update_keys; exact Hnd
      | exact HfA |].
    destruct (frame_found _ _ _ _ _ _ H HfC) as (e1' & Hf1 & (_ & Hb1 & _)).
    exists e1'. split; [exact Hf1|].
    destruct Hb1 as (T1 & _ & T3 & _). rewrite T1, T3, HbC. simpl.
    split; reflexivity.
Qed.

(** X13.  The Delay item of the context menu acts on the repeater captured
    when the menu opened and on the cell captured with it, whatever has
    happened since.  While the repeater is in the table, and whenever the
    handler returns: its delay goes from a setting in 1..4 to the next and
    from 4 back to 1, so four clicks bring it back, and no block moves.  The
    click runs the repeater's scheduled callback at the captured cell: a
    locked repeater changes nothing more; an unlocked one takes the state
    that the rear input of the block now found at that cell asks for, and
    that block - the repeater itself if it has not moved, another block if
    it has - gets the repeater's type and powered flag.  When the cell is
    empty by now the callback of an unlocked repeater throws. *)
Theorem delay_item_cycles (fuel : nat) (s : simulator) (id x y : Z)
    (detached : component) (e : entity) (this : component) :
  lookup id (entities s) = Some e ->
  e_redstone e = Some this ->
  cls this = RepeaterComponent ->
  1 <= delay this <= 4 ->
  (locked this = false -> getBlockEntity s x y = None ->
   menuDelay fuel s id detached x y = Fail TypeError)
  /\ forall s1,
       menuDelay fuel s id detached x y = Done s1 ->
       (exists e1 c1,
          lookup id (entities s1) = Some e1
          /\ e_redstone e1 = Some c1
          /\ delay c1 = (if delay this =? 4 then 1 else delay this + 1)
          /\ e_position e1 = e_position e
          /\ layout s1 = layout s
          /\ (locked this = true -> s1 = setThis s id cycleDelay)
          /\ (locked this = false ->
              exists id' e',
                getBlockEntity s x y = Some (id', e')
                /\ let on := powerInto s x y
                               (Z.rem (bs_rotation (e_blockState e') + 2) 4)
                             >? 0 in
                   powered c1 = on
                   /\ powerLevel c1 = (if on then 15 else 0)
                   /\ (NoDup (map fst (entities s)) ->
                       exists e1',
                         getBlockEntity s1 x y = Some (id', e1')
                         /\ bs_type (e_blockState e1')
                            = (if on then "minecraft:repeater_on"
                               else "minecraft:repeater")
                         /\ bs_powered (e_blockState e1') = on)))
       /\ forall d2 x2 y2 s2 d3 x3 y3 s3 d4 x4 y4 s4,
            menuDelay fuel s1 id d2 x2 y2 = Done s2 ->
            menuDelay fuel s2 id d3 x3 y3 = Done s3 ->
            menuDelay fuel s3 id d4 x4 y4 = Done s4 ->
            exists e4 c4,
              lookup id (entities s4) = Some e4
              /\ e_redstone e4 = Some c4
              /\ delay c4 = delay this.
Proof.
  intros Hl Hr Hcls Hrange. split.
  - intros Hlock Hnone. unfold menuDelay, menuItem. rewrite Hl.
    unfold onScheduledTick, getThis, getRedstone, setThis. simpl.
    rewrite lookup_update_same, Hl. simpl. rewrite Hr. simpl.
    rewrite Hcls, Hlock. unfold rotationAt.
    pose proof (setThis_found s id cycleDelay x y) as Hocc.
    rewrite Hnone in Hocc. unfold setThis in Hocc. rewrite Hocc.
    reflexivity.
  - intros s1 H1.
    destruct (delay_item_once _ _ _ _ _ _ _ _ _ Hl Hr Hcls H1)
      as (e1 & c1 & Hl1 & Hr1 & Hcls1 & Hdel1 & Hp1 & Hlay1 & Hlocked & Hfree).
    assert (Hcases : delay this = 1 \/ delay this = 2 \/ delay this = 3
                     \/ delay this = 4) by lia.
    split.
    + exists e1, c1. split; [exact Hl1|]. split; [exact Hr1|]. split.
      { rewrite Hdel1.
        destruct Hcases as [-> | [-> | [-> | ->]]]; reflexivity. }
      auto.
    + intros d2 x2 y2 s2 d3 x3 y3 s3 d4 x4 y4 s4 H2 H3 H4.
      destruct (delay_item_once _ _ _ _ _ _ _ _ _ Hl1 Hr1 Hcls1 H2)
        as (e2 & c2 & Hl2 & Hr2 & Hcls2 & Hdel2 & _).
      destruct (delay_item_once _ _ _ _ _ _ _ _ _ Hl2 Hr2 Hcls2 H3)
        as (e3 & c3 & Hl3 & Hr3 & Hcls3 & Hdel3 & _).
      destruct (delay_item_once _ _ _ _ _ _ _ _ _ Hl3 Hr3 Hcls3 H4)
        as (e4 & c4 & Hl4 & Hr4 & _ & Hdel4 & _).
      exists e4, c4. split; [exact Hl4|]. split; [exact Hr4|].
      rewrite Hdel4, Hdel3, Hdel2, Hdel1.
      destruct Hcases as [-> | [-> | [-> | ->]]]; reflexivity.
Qed.

(** The menu is opened on the repeater at (5,4); then the lever is switched
    on and the piston behind the repeater pushes it to (5,3), its head
    taking the cell (5,4).  The Delay item clicked now raises the repeater's
    delay and writes the repeater's type onto the piston head. *)
Lemma delay_item_cycles_witness :
  showContextMenu menu_open_scene 5 4
  = Done (Some (1, entity_of menu_open_scene 1))
  /\ exists s1 e1 c1 h,
       menuDelay fuel50 stale_menu_scene 1 (this_of menu_open_scene 1) 5 4
       = Done s1
       /\ lookup 1 (entities s1) = Some e1
       /\ e_position e1 = {| px := 5; py := 3; pz := 0 |}
       /\ e_redstone e1 = Some c1 /\ delay c1 = 2
       /\ bs_type (e_blockState (entity_of stale_menu_scene 4))
          = "minecraft:piston_head"
       /\ getBlockEntity s1 5 4 = Some (4, h)
       /\ bs_type (e_blockState h) = "minecraft:repeater".
Proof.
  split; [reflexivity|].
  assert (H1 : menuDelay fuel50 stale_menu_scene 1
                 (this_of menu_open_scene 1) 5 4
               = Done (state_of
                         (menuDelay fuel50 stale_menu_scene 1
                            (this_of menu_open_scene 1) 5 4)))
    by (vm_compute; reflexivity).
  destruct (delay_item_cycles fuel50 stale_menu_scene 1 5 4
              (this_of menu_open_scene 1)
              (entity_of stale_menu_scene 1) (this_of stale_menu_scene 1))
    as (_ & Hclick).
  - reflexivity.
  - reflexivity.
  - reflexivity.
  - change (1 <= 1 <= 4). lia.
  - destruct (Hclick _ H1)
      as ((e1 & c1 & Hl1 & Hr1 & Hd1 & Hp1 & _ & _ & Hfree) & _).
    destruct (Hfree eq_refl) as (id' & e' & Hocc & _ & _ & Hpatch).
    assert (Hocc' : getBlockEntity stale_menu_scene 5 4
                    = Some (4, entity_of stale_menu_scene 4))
      by reflexivity.
    rewrite Hocc' in Hocc. injection Hocc as <- <-.
    destruct Hpatch as (h & Hfh & Hth & _).
    { destruct stale_menu_scene_wf as ((Hnd & _) & _). exact Hnd. }
    eexists. exists e1, c1, h. split; [exact H1|]. split; [exact Hl1|].
    split; [rewrite Hp1; reflexivity|]. split; [exact Hr1|].
    split; [exact Hd1|]. split; [reflexivity|]. split; [exact Hfh|].
    rewrite Hth. reflexivity.
Defined.

Lemma mode_item_once fuel s id detached x y e this s1 :
  lookup id (entities s) = Some e ->
  e_redstone e = Some this ->
  cls this = ComparatorComponent ->
  menuMode fuel s id detached x y = Done s1 ->
  exists id' e' e1 c1,
    getBlockEntity s x y = Some (id', e')
    /\ lookup id (entities s1) = Some e1
    /\ e_redstone e1 = Some c1
    /\ cls c1 = ComparatorComponent
    /\ mode c1 = otherMode (mode this)
    /\ e_position e1 = e_position e
    /\ layout s1 = layout s
    /\ let r := bs_rotation (e_blockState e') in
       let newPower :=
         comparatorNewPower (otherMode (mode this))
           (powerInto s x y (Z.rem (r + 2) 4))
           (Z.max (powerInto s x y (Z.rem (r + 3) 4))
                  (powerInto s x y (Z.rem (r + 1) 4))) in
       outputPower c1 = newPower
       /\ (outputPower this = newPower -> s1 = setThis s id swapMode)
       /\ (outputPower this <> newPower ->
           NoDup (map fst (entities s)) ->
           exists e1',
             getBlockEntity s1 x y = Some (id', e1')
             /\ bs_type (e_blockState e1')
                = (if newPower >? 0 then "minecraft:comparator_on"
                   else "minecraft:comparator")).
Proof.
  intros Hl Hr Hcls H. unfold menuMode, menuItem in H. rewrite Hl in H.
  set (sA := setThis s id swapMode) in *.
  assert (HlA : lookup id (entities sA) = Some (with_redstone swapMode e)).
  { unfold sA, setThis. simpl. rewrite lookup_update_same, Hl. reflexivity. }
  assert (HrA : e_redstone (with_redstone swapMode e) = Some (swapMode this))
    by (simpl; rewrite Hr; reflexivity).
  unfold onScheduledTick, getThis, getRedstone in H.
  rewrite HlA, HrA in H. simpl in H. rewrite Hcls in H.
  pose proof (setThis_found s id swapMode x y) as Hocc. fold sA in Hocc.
  unfold rotationAt in H.
  destruct (getBlockEntity s x y) as [[id' e']|] eqn:Hf;
    [|rewrite Hocc in H; discriminate H].
  destruct Hocc as (eA & HfA & HbA). rewrite HfA in H. simpl in H.
  rewrite !getPower_total in H. simpl in H.
  assert (Hpow : forall d, powerInto sA x y d = powerInto s x y d)
    by (intros d; unfold sA; apply powerInto_setThis; reflexivity).
  rewrite !Hpow, HbA in H.
  set (newPower := comparatorNewPower _ _ _) in *.
  exists id', e'.
  destruct (negb (outputPower this =? newPower)) eqn:Hneq.
  - match type of H with
    | notifyNeighbors _ (updateBlockState (setThis _ _ ?g) _ _ ?h) _ _ = _ =>
        fold (commit sA id x y g h) in H;
        destruct (commit_lookup_this sA id x y g h _ _ HlA HrA)
          as (e2 & Hl2 & Hp2 & Hr2);
        pose proof (commit_layout sA id x y g h) as [Hlay2 _];
        pose proof (commit_patches_occupant sA id x y g h id' eA) as Hpatch
    end.
    apply notifyNeighbors_frame in H.
    destruct (frame_lookup _ _ _ _ H Hl2) as (e1 & Hl1 & (Hp1 & _ & Hc1)).
    unfold opt_frame in Hc1. rewrite Hr2 in Hc1.
    destruct (e_redstone e1) as [c1|] eqn:Hr1; [|contradiction].
    destruct Hc1 as (C1 & _ & _ & C4 & C5 & _). simpl in C1, C4, C5.
    exists e1, c1. split; [reflexivity|]. split; [exact Hl1|].
    split; [exact Hr1|]. split; [congruence|]. split; [exact C4|].
    split; [rewrite Hp1, Hp2; reflexivity|].
    split; [rewrite (frame_layout _ _ H), Hlay2; apply setThis_layout|].
    cbv zeta. fold newPower. split; [exact C5|].
    apply negb_true_iff, Z.eqb_neq in Hneq.
    split; [intros Heq; contradiction|]. intros _ Hnd.
    destruct Hpatch as (eC & HfC & HbC);
      [unfold sA, setThis; simpl; rewrite update_keys; exact Hnd
      | exact HfA |].
    destruct (frame_found _ _ _ _ _ _ H HfC) as (e1' & Hf1 & (_ & Hb1 & _)).
    exists e1'. split; [exact Hf1|].
    destruct Hb1 as (T1 & _). rewrite T1, HbC. reflexivity.
  - injection H as <-. apply negb_false_iff, Z.eqb_eq in Hneq.
    exists (with_redstone swapMode e), (swapMode this).
    split; [reflexivity|]. split; [exact HlA|]. split; [exact HrA|].
    split; [exact Hcls|]. split; [reflexivity|]. split; [reflexivity|].
    split; [apply setThis_layout|].
    cbv zeta. fold newPower. split; [exact Hneq|].
    split; [reflexivity | intros Hne; contradiction].
Qed.

(** X14.  The Mode item of the context menu acts on the comparator captured
    when the menu opened and on the cell captured with it.  While the
    comparator is in the table, and whenever the handler returns: the mode
    is swapped between compare and subtract, a second click bringing it
    back, and no block moves.  The click runs the comparator's scheduled
    callback at the captured cell, so the output is recomputed at once, in
    the new mode, from the rear and side inputs of that cell as seen with
    the rotation of the block now found there; when the output changes,
    that block - the comparator itself if it has not moved - gets the
    comparator's type.  When the cell is empty by now the callback
    throws. *)
Theorem mode_item_switches (fuel : nat) (s : simulator) (id x y : Z)
    (detached : component) (e : entity) (this : component) :
  lookup id (entities s) = Some e ->
  e_redstone e = Some this ->
  cls this = ComparatorComponent ->
  (getBlockEntity s x y = None ->
   menuMode fuel s id detached x y = Fail TypeError)
  /\ forall s1,
       menuMode fuel s id detached x y = Done s1 ->
       (exists id' e' e1 c1,
          getBlockEntity s x y = Some (id', e')
          /\ lookup id (entities s1) = Some e1
          /\ e_redstone e1 = Some c1
          /\ mode c1 = otherMode (mode this)
          /\ e_position e1 = e_position e
          /\ layout s1 = layout s
          /\ let r := bs_rotation (e_blockState e') in
             let newPower :=
               comparatorNewPower (otherMode (mode this))
                 (powerInto s x y (Z.rem (r + 2) 4))
                 (Z.max (powerInto s x y (Z.rem (r + 3) 4))
                        (powerInto s x y (Z.rem (r + 1) 4))) in
             outputPower c1 = newPower
             /\ (outputPower this = newPower -> s1 = setThis s id swapMode)
             /\ (outputPower this <> newPower ->
                 NoDup (map fst (entities s)) ->
                 exists e1',
                   getBlockEntity s1 x y = Some (id', e1')
                   /\ bs_type (e_blockState e1')
                      = (if newPower >? 0 then "minecraft:comparator_on"
                         else "minecraft:comparator")))
       /\ forall d2 x2 y2 s2,
            menuMode fuel s1 id d2 x2 y2 = Done s2 ->
            exists e2 c2,
              lookup id (entities s2) = Some e2
              /\ e_redstone e2 = Some c2
              /\ mode c2 = mode this.
Proof.
  intros Hl Hr Hcls. split.
  - intros Hnone. unfold menuMode, menuItem. rewrite Hl.
    unfold onScheduledTick, getThis, getRedstone, setThis. simpl.
    rewrite lookup_update_same, Hl. simpl. rewrite Hr. simpl.
    rewrite Hcls. unfold rotationAt.
    pose proof (setThis_found s id swapMode x y) as Hocc.
    rewrite Hnone in Hocc. unfold setThis in Hocc. rewrite Hocc.
    reflexivity.
  - intros s1 H1.
    destruct (mode_item_once _ _ _ _ _ _ _ _ _ Hl Hr Hcls H1)
      as (id' & e' & e1 & c1 & Hocc & Hl1 & Hr1 & Hcls1 & Hm1 & Hp1 & Hlay1
          & Hout).
    split.
    + exists id', e', e1, c1. auto 10.
    + intros d2 x2 y2 s2 H2.
      destruct (mode_item_once _ _ _ _ _ _ _ _ _ Hl1 Hr1 Hcls1 H2)
        as (_ & _ & e2 & c2 & _ & Hl2 & Hr2 & _ & Hm2 & _).
      exists e2, c2. split; [exact Hl2|]. split; [exact Hr2|].
      rewrite Hm2, Hm1. destruct (mode this); reflexivity.
Qed.

Lemma mode_item_switches_witness :
  showContextMenu comparator_scene 5 5
  = Done (Some (7, entity_of comparator_scene 7))
  /\ exists s1 e1 c1,
       menuMode fuel50 comparator_scene 7 (this_of comparator_scene 7) 5 5
       = Done s1
       /\ lookup 7 (entities s1) = Some e1
       /\ e_redstone e1 = Some c1
       /\ mode (this_of comparator_scene 7) = compare
       /\ mode c1 = subtract.
Proof.
  split; [reflexivity|].
  assert (H1 : menuMode fuel50 comparator_scene 7
                 (this_of comparator_scene 7) 5 5
               = Done (state_of
                         (menuMode fuel50 comparator_scene 7
                            (this_of comparator_scene 7) 5 5)))
    by (vm_compute; reflexivity).
  destruct (mode_item_switches fuel50 comparator_scene 7 5 5
              (this_of comparator_scene 7)
              (entity_of comparator_scene 7) (this_of comparator_scene 7))
    as (_ & Hclick).
  - reflexivity.
  - reflexivity.
  - reflexivity.
  - destruct (Hclick _ H1)
      as ((id' & e' & e1 & c1 & _ & Hl1 & Hr1 & Hm1 & _) & _).
    eexists. exists e1, c1. split; [exact H1|]. split; [exact Hl1|].
    split; [exact Hr1|]. split; [reflexivity | exact Hm1].
Defined.

(** ** Identifiers are never issued twice *)

Lemma ids_step_refl s : ids_step s s.
Proof. split; [lia | auto]. Qed.

Lemma ids_step_trans a b c : ids_step a b -> ids_step b c -> ids_step a c.
Proof.
  intros [H1 K1] [H2 K2]. split; [lia|].
  intros k Hk. destruct (K2 k Hk) as [Hb | Hb]; [auto | right; lia].
Qed.

Lemma ids_same a s s' :
  nextId s' = nextId s ->
  map fst (entities s') = map fst (entities s) ->
  ids_step a s -> ids_step a s'.
Proof. intros Hn Hk [H K]. split; [lia | rewrite Hk; exact K]. Qed.

Lemma ids_setThis a s self f : ids_step a s -> ids_step a (setThis s self f).
Proof.
  apply ids_same; [reflexivity|]. unfold setThis. simpl. apply update_keys.
Qed.

Lemma ids_update a s id f :
  ids_step a s -> ids_step a (with_entities (update id f (entities s)) s).
Proof. apply ids_same; [reflexivity|]. simpl. apply update_keys. Qed.

Lemma ids_updateBlockState a s x y g :
  ids_step a s -> ids_step a (updateBlockState s x y g).
Proof.
  unfold updateBlockState. destruct (getBlockEntity s x y) as [[id e]|]; auto.
  apply ids_update.
Qed.

Lemma ids_schedule a s x y d :
  ids_step a s -> ids_step a (scheduleBlockUpdate s x y d).
Proof. apply ids_same; reflexivity. Qed.

Lemma ids_removeEntity a s id : ids_step a s -> ids_step a (removeEntity id s).
Proof.
  intros [H K]. split; [exact H|]. intros k Hk. apply K.
  eapply filter_keys_In. exact Hk.
Qed.

Lemma ids_frame a s s' : ids_step a s -> notify_frame s s' -> ids_step a s'.
Proof.
  intros Ha (_ & _ & Hn & _ & _ & Ht).
  eapply ids_same; [exact Hn | apply table_frame_keys, Ht | exact Ha].
Qed.

Lemma ids_notifyNeighbors a fuel s x y s' :
  ids_step a s -> notifyNeighbors fuel s x y = Done s' -> ids_step a s'.
Proof.
  intros Ha H. eapply ids_frame; [exact Ha|].
  eapply notifyNeighbors_frame, H.
Qed.

Lemma ids_onNeighborUpdate a fuel s self x y nx ny s' :
  ids_step a s -> onNeighborUpdate fuel s self x y nx ny = Done s' ->
  ids_step a s'.
Proof.
  intros Ha H. eapply ids_frame; [exact Ha|].
  eapply onNeighborUpdate_frame, H.
Qed.

Ltac ids_peel :=
  repeat first
    [ assumption
    | apply ids_schedule
    | apply ids_updateBlockState
    | apply ids_setThis
    | apply ids_removeEntity
    | apply ids_update
    | (eapply ids_notifyNeighbors; [|eassumption])
    | (eapply ids_onNeighborUpdate; [|eassumption]) ].

Lemma ids_createEntity a fuel s type x y s' id :
  ids_step a s -> createEntity fuel s type x y = Done (s', id) ->
  ids_step a s'.
Proof.
  intros Ha Hc. apply (ids_step_trans a s s' Ha).
  destruct (createEntity_layout _ _ _ _ _ _ _ Hc) as (_ & Hn & _ & _ & Hl).
  split; [lia|]. intros k Hk.
  rewrite <- layout_keys, Hl, map_app, in_app_iff, layout_keys in Hk.
  simpl in Hk. destruct Hk as [Hk | [Hk | []]]; [auto | right; lia].
Qed.

Lemma ids_doPush a fuel s x y d s' :
  ids_step a s -> doPush fuel s x y d = Done s' -> ids_step a s'.
Proof.
  intros Ha Hp. unfold doPush in Hp. bind_inv Hp. revert Ha. revert Hp.
  apply (foldM_preserves (fun s0 s1 => ids_step a s0 -> ids_step a s1)); auto.
  intros s0 [id [ix iy]] s0' Hs H0. flow Hs. subst. ids_peel.
Qed.

Lemma ids_doPull a fuel s x y d s' :
  ids_step a s -> doPull fuel s x y d = Done s' -> ids_step a s'.
Proof.
  intros Ha Hp. unfold doPull in Hp.
  destruct (getBlockEntity s _ _) as [[id b]|]; flow Hp; subst; ids_peel.
Qed.

Lemma ids_extend a fuel s self x y s' :
  ids_step a s -> extend fuel s self x y = Done s' -> ids_step a s'.
Proof.
  intros Ha He. unfold extend in He. bind_inv He.
  destruct (extended a0); [injection He as <-; exact Ha|].
  destruct (getBlockEntity s x y) as [[entityId ent]|]; [|discriminate].
  bind_inv He. destruct a1; [|injection He as <-; exact Ha].
  bind_inv He. bind_inv He. destruct a2 as [s5 newHead].
  eapply ids_notifyNeighbors; [|eassumption].
  apply ids_setThis, ids_update, ids_setThis.
  eapply ids_createEntity; [|eassumption].
  pose proof (ids_doPush _ _ _ _ _ _ _ Ha Hstep1) as H1.
  match goal with
  | |- ids_step _ (match ?m with _ => _ end) => destruct m as [[existing ?]|]
  end; ids_peel.
Qed.

Lemma ids_retract a fuel s self x y s' :
  ids_step a s -> retract fuel s self x y = Done s' -> ids_step a s'.
Proof.
  intros Ha He. unfold retract in He. bind_inv He.
  destruct (negb (extended a0)); [injection He as <-; exact Ha|].
  bind_inv He. bind_inv He.
  assert (H3 : ids_step a a2).
  { destruct (negb (headId a0 =? -1)).
    - ids_peel.
    - injection Hstep1 as <-. ids_peel. }
  destruct (isSticky a0).
  - eapply ids_doPull; eassumption.
  - injection He as <-. exact H3.
Qed.

Lemma ids_onScheduledTick a fuel s self x y s' :
  ids_step a s -> onScheduledTick fuel s self x y = Done s' -> ids_step a s'.
Proof.
  intros Ha Ht. unfold onScheduledTick in Ht. bind_inv Ht.
  destruct (cls a0);
    flow Ht; subst; ids_peel;
    solve [ eapply ids_extend; eassumption
          | eapply ids_retract; eassumption ].
Qed.

Lemma ids_dispatchTick a fuel s t s' :
  ids_step a s -> dispatchTick fuel s t = Done s' -> ids_step a s'.
Proof.
  unfold dispatchTick. intros Ha H.
  destruct (getBlockEntity s _ _) as [[id ent]|]; [|injection H as <-; auto].
  destruct (e_redstone ent); [|injection H as <-; auto].
  eapply ids_onScheduledTick; eassumption.
Qed.

Lemma ids_tick a fuel s s' :
  ids_step a s -> tick fuel s = Done s' -> ids_step a s'.
Proof.
  intros Ha H. unfold tick, processScheduledTicks in H. simpl in H.
  revert H.
  match goal with
  | |- foldM _ _ ?s1 = _ -> _ => assert (H1 : ids_step a s1) by exact Ha
  end.
  intros H. revert H1. revert H.
  apply (foldM_preserves (fun s0 s1 => ids_step a s0 -> ids_step a s1)); auto.
  intros s0 t s0' Hd H0. eapply ids_dispatchTick; eassumption.
Qed.

Lemma ids_placeOrInteract a fuel s kind x y s' :
  ids_step a s -> placeOrInteract fuel s kind x y = Done s' -> ids_step a s'.
Proof.
  intros Ha H. unfold placeOrInteract in H.
  destruct (_ || _); [injection H as <-; exact Ha|].
  destruct (getBlockEntity s x y) as [[id ex]|].
  - destruct (String.eqb kind "erase"); [ids_peel|].
    destruct (e_redstone ex); [|injection H as <-; exact Ha].
    destruct (String.eqb _ "minecraft:lever").
    { unfold toggle in H. bind_inv H. destruct (cls a0); try discriminate.
      ids_peel. }
    destruct (String.eqb _ "minecraft:button");
      [|injection H as <-; exact Ha].
    unfold press in H. bind_inv H. destruct (cls a0); try discriminate.
    flow H; subst; ids_peel.
  - destruct (String.eqb kind "erase"); [injection H as <-; exact Ha|].
    bind_inv H. destruct a0 as [s1 id1]. injection H as <-.
    eapply ids_createEntity; eassumption.
Qed.

Lemma ids_rotateComponent a fuel s x y s' :
  ids_step a s -> rotateComponent fuel s x y = Done s' -> ids_step a s'.
Proof.
  intros Ha H. unfold rotateComponent in H.
  destruct (getBlockEntity s x y) as [[id ent]|]; [|injection H as <-; auto].
  destruct (_ && _); [injection H as <-; exact Ha|].
  bind_inv H. eapply ids_notifyNeighbors; [|eassumption].
  destruct (e_redstone ent); [|injection Hstep as <-]; ids_peel.
Qed.

Lemma ids_extendDetached a fuel s this x y s' :
  ids_step a s -> extendDetached fuel s this x y = Done s' -> ids_step a s'.
Proof.
  intros Ha He. unfold extendDetached in He.
  destruct (extended this); [injection He as <-; exact Ha|].
  destruct (getBlockEntity s x y) as [[entityId ent]|]; [|discriminate].
  bind_inv He. destruct a0; [|injection He as <-; exact Ha].
  bind_inv He. bind_inv He.
  match goal with p : (simulator * Z)%type |- _ => destruct p as [s5 newHead]
  end.
  eapply ids_notifyNeighbors; [|eassumption].
  apply ids_update, ids_setThis.
  eapply ids_createEntity; [|eassumption].
  match goal with
  | Hp : doPush _ _ _ _ _ = Done _ |- _ =>
      pose proof (ids_doPush _ _ _ _ _ _ _ Ha Hp) as H1
  end.
  match goal with
  | |- ids_step _ (match ?m with _ => _ end) => destruct m as [[existing ?]|]
  end; ids_peel.
Qed.

Lemma ids_retractDetached a fuel s this x y s' :
  ids_step a s -> retractDetached fuel s this x y = Done s' -> ids_step a s'.
Proof.
  intros Ha He. unfold retractDetached in He.
  destruct (negb (extended this)); [injection He as <-; exact Ha|].
  bind_inv He. bind_inv He.
  assert (H3 : ids_step a a1).
  { destruct (negb (headId this =? -1)).
    - ids_peel.
    - injection Hstep0 as <-. ids_peel. }
  destruct (isSticky this).
  - eapply ids_doPull; eassumption.
  - injection He as <-. exact H3.
Qed.

Lemma ids_onScheduledTickDetached a fuel s this x y s' :
  ids_step a s -> onScheduledTickDetached fuel s this x y = Done s' ->
  ids_step a s'.
Proof.
  intros Ha Ht. unfold onScheduledTickDetached in Ht.
  destruct (cls this);
    flow Ht; subst; ids_peel;
    solve [ eapply ids_extendDetached; eassumption
          | eapply ids_retractDetached; eassumption ].
Qed.

Lemma ids_menuItem assign a fuel s id detached x y s' :
  ids_step a s -> menuItem assign fuel s id detached x y = Done s' ->
  ids_step a s'.
Proof.
  intros Ha H. unfold menuItem in H. destruct (lookup id (entities s)).
  - eapply ids_onScheduledTick; [|eassumption]. ids_peel.
  - eapply ids_onScheduledTickDetached; eassumption.
Qed.

Lemma ids_menuDelete a fuel s id x y s' :
  ids_step a s -> menuDelete fuel s id x y = Done s' -> ids_step a s'.
Proof. intros Ha H. unfold menuDelete in H. ids_peel. Qed.

Lemma evolves_ids_step s s' : evolves s s' -> ids_step s s'.
Proof.
  induction 1.
  - apply ids_step_refl.
  - eapply ids_placeOrInteract; eassumption.
  - eapply ids_rotateComponent; eassumption.
  - eapply (ids_menuItem cycleDelay); eassumption.
  - apply ids_setThis. assumption.
  - eapply (ids_menuItem swapMode); eassumption.
  - apply ids_setThis. assumption.
  - eapply ids_menuDelete; eassumption.
  - eapply ids_tick; eassumption.
Qed.

(** X15.  An identifier is never issued twice: through any sequence of
    editor actions, menu items and ticks ([evolves]) the counter [nextId]
    never goes back, and an identifier below it that names no entity - one
    whose entity has been removed - names none ever after.  A reference
    kept in [headId], in [sourcePistonId] or by a menu item can dangle, it
    cannot come to name another block. *)
Theorem identifiers_never_reused (s s' : simulator) (k : Z) :
  evolves s s' ->
  k < nextId s ->
  lookup k (entities s) = None ->
  lookup k (entities s') = None /\ nextId s <= nextId s'.
Proof.
  intros Hev Hk Hnone. destruct (evolves_ids_step _ _ Hev) as [Hn Hkeys].
  split; [|exact Hn].
  apply lookup_None_keys. intros Hin.
  destruct (Hkeys k Hin) as [Hold | Hnew]; [|lia].
  apply lookup_None_keys in Hnone. contradiction.
Qed.

Lemma identifiers_never_reused_witness :
  exists s',
    placeOrInteract fuel50
      (state_of (perform button_ops (newSimulator 64 48)))
      "minecraft:observer" 5 5 = Done s'
    /\ lookup 1 (entities s') = None.
Proof.
  assert (Hp : placeOrInteract fuel50
                 (state_of (perform button_ops (newSimulator 64 48)))
                 "minecraft:observer" 5 5
               = Done (state_of
                         (placeOrInteract fuel50
                            (state_of (perform button_ops
                                         (newSimulator 64 48)))
                            "minecraft:observer" 5 5)))
    by (vm_compute; reflexivity).
  eexists. split; [exact Hp|].
  apply (identifiers_never_reused
           (state_of (perform button_ops (newSimulator 64 48))) _ 1).
  - eapply ev_place; [apply ev_refl | exact Hp].
  - vm_compute. reflexivity.
  - vm_compute. reflexivity.
Defined.

(** ** Pulses: the button and the observer *)






(** ** An idle tick *)

Lemma dueTicks_none now l :
  Forall (fun t => now < tick_time t) l ->
  dueTicks now l = [] /\ laterTicks now l = l.
Proof.
  unfold dueTicks, laterTicks.
  induction 1 as [|t l Ht _ [IH1 IH2]]; simpl; [auto|].
  replace (tick_time t <=? now) with false by (symmetry; apply Z.leb_gt; lia).
  replace (tick_time t >? now) with true by (symmetry; apply Z.gtb_lt; lia).
  rewrite IH1, IH2. auto.
Qed.

(** X18.  A tick at which no entry is due only advances the clock: it
    returns, whatever the state holds, with the table, the counter and the
    queue as they were. *)
Theorem idle_tick_only_advances_clock (fuel : nat) (s : simulator) :
  Forall (fun t => tickCount s + 1 < tick_time t) (nextTickList s) ->
  tick fuel s
  = Done {| width := width s; height := height s; entities := entities s;
            nextId := nextId s; tickCount := tickCount s + 1;
            nextTickList := nextTickList s |}.
Proof.
  intros H. unfold tick, processScheduledTicks. simpl.
  destruct (dueTicks_none _ _ H) as [-> ->]. reflexivity.
Qed.

Lemma idle_tick_only_advances_clock_witness :
  tickCount (state_of (tick fuel50 pressed_scene))
  = tickCount pressed_scene + 1
  /\ nextTickList (state_of (tick fuel50 pressed_scene))
     = nextTickList pressed_scene.
Proof.
  rewrite (idle_tick_only_advances_clock fuel50 pressed_scene).
  - split; reflexivity.
  - vm_compute. repeat constructor.
Defined.
